(** * TaskGroupService: scheduling and sequential execution of task groups

    A shallow embedding of [TaskGroupService] (the service that schedules
    task groups with node-cron and runs their member tasks in sequence), and
    the properties of it that the specification of the automation scheduler
    states.

    The service is asynchronous TypeScript.  Each method is embedded as a
    computation in a state-and-exception monad over the system state [Sys]:
    the database behind the Prisma client, the [scheduledGroups] map, the
    tasks armed in node-cron, the logger output, and the outside world on
    which the task executor acts.  An [await] is a sequencing point of that
    monad; the methods are run one at a time. *)

From Stdlib Require Import ZArith Lia Sorted.
From stdpp Require Import gmap strings list pretty sorting.

Local Open Scope string_scope.
Local Open Scope Z_scope.
Local Open Scope list_scope.

(** ** Data model *)

(** [TaskWithServer]: a task with the server it belongs to. *)
Module Server.
Record t := mk { id : string; name : string }.
End Server.

Module Task.
Record t := mk {
  id : string;
  name : string;
  type : string;
  serverId : string;
  enabled : bool;
  cronExpression : string;
  taskData : option string;
  server : Server.t
}.
End Task.

(** [TaskGroupMember], as the service writes it
    ([taskGroupMember.create({ data: { groupId, taskId, sortOrder } })]),
    and [TaskGroupMemberWithTask], which extends it with the task. *)
Module TaskGroupMember.
Record t := mk { groupId : string; taskId : string; sortOrder : Z }.
End TaskGroupMember.

Module TaskGroupMemberWithTask.
Record t := mk { base : TaskGroupMember.t; task : Task.t }.
Definition sortOrder (m : t) : Z := TaskGroupMember.sortOrder (base m).
End TaskGroupMemberWithTask.

(** [TaskGroup]: the columns the service and its callers read or write. *)
Module TaskGroup.
Record t := mk {
  id : string;
  name : string;
  description : option string;
  cronExpression : string;
  failureMode : string;
  delayBetweenTasks : Z;
  enabled : bool;
  lastRun : option Z;
  lastStatus : option string;
  lastError : option string
}.
End TaskGroup.

Module TaskGroupWithMembers.
Record t := mk {
  base : TaskGroup.t;
  taskMemberships : list TaskGroupMemberWithTask.t
}.
End TaskGroupWithMembers.

(** [TaskResult]: the outcome recorded for one member of a run. *)
Module TaskResult.
Inductive status := success | failed | skipped.

#[global] Instance status_eq_dec : EqDecision status.
Proof. solve_decision. Defined.

Record t := mk {
  taskId : string;
  taskName : string;
  serverId : string;
  serverName : string;
  st : status;
  error : option string;
  startedAt : Z;
  completedAt : option Z
}.
End TaskResult.

(** [TaskGroupExecution]: one row per run.  [taskResults] is the list that
    the service serialises with [JSON.stringify]; it is kept structured. *)
Module TaskGroupExecution.
Record t := mk {
  id : nat;
  groupId : string;
  startedAt : Z;
  completedAt : option Z;
  status : string;
  tasksTotal : nat;
  tasksCompleted : nat;
  tasksFailed : nat;
  tasksSkipped : nat;
  taskResults : option (list TaskResult.t);
  errorMessage : option string
}.
End TaskGroupExecution.

(** A JavaScript [Error] as far as the service looks at it. *)
Record JsError := Error { message : string }.

(** What [schedulerService.executeTask] does with its promise. *)
Inductive Outcome := Resolved | Rejected (e : JsError).

(** ** The [Map] behind [scheduledGroups]

    A JavaScript [Map] iterates in insertion order, which [cleanup] observes,
    so it is kept as an association list: [set] on a present key keeps the
    key's position, [set] on an absent key appends. *)
Module JsMap.
Section Ops.
Context {V : Type}.

Definition t := list (string * V).

Definition empty : t := [].

Fixpoint get (k : string) (m : t) : option V :=
  match m with
  | [] => None
  | (k', v) :: m' => if String.eqb k' k then Some v else get k m'
  end.

Definition has (k : string) (m : t) : bool :=
  match get k m with Some _ => true | None => false end.

Fixpoint delete (k : string) (m : t) : t :=
  match m with
  | [] => []
  | (k', v) :: m' =>
      if String.eqb k' k then delete k m' else (k', v) :: delete k m'
  end.

Fixpoint set (k : string) (v : V) (m : t) : t :=
  match m with
  | [] => [(k, v)]
  | (k', v') :: m' =>
      if String.eqb k' k then (k', v) :: m' else (k', v') :: set k v m'
  end.

Definition clear (m : t) : t := [].
End Ops.
Arguments t : clear implicits.
End JsMap.

(** ** node-cron

    A task returned by [cron.schedule]: the expression and time zone it was
    armed with, the group id that its callback passes to [executeGroup], and
    whether it is running (armed and not stopped). *)
Module ScheduledTask.
Record t := mk {
  expression : string;
  timezone : string;
  target : string;
  running : bool
}.

Definition stop (c : t) : t :=
  mk (expression c) (timezone c) (target c) false.
End ScheduledTask.

(** ** The database *)

(** Modelled from the spec: the Prisma schema and client are not part of the
    service file.  The store holds the task groups, the tasks, the
    memberships and the execution records ("CRUD for Task, TaskGroup,
    TaskGroupMember; create/update of TaskGroupExecution records").  Group
    ids are strings drawn from an id generator; execution ids are row
    numbers. *)
Record Store := mkStore {
  taskGroups : gmap string TaskGroup.t;
  tasks : gmap string Task.t;
  taskGroupMembers : list TaskGroupMember.t;
  taskGroupExecutions : list TaskGroupExecution.t;
  idCounter : nat
}.

Inductive LogLevel := LogInfo | LogError.

(** What a run does to the outside: calls of the task executor and timed
    suspensions (in milliseconds), in order. *)
Inductive Effect :=
| EvExecute (task : Task.t)
| EvDelay (ms : Z).

(** The tasks the executor was called with, in call order. *)
Fixpoint executed (tr : list Effect) : list Task.t :=
  match tr with
  | [] => []
  | EvExecute t :: tr' => t :: executed tr'
  | EvDelay _ :: tr' => executed tr'
  end.

(** The suspensions, in order. *)
Fixpoint delays (tr : list Effect) : list Z :=
  match tr with
  | [] => []
  | EvDelay ms :: tr' => ms :: delays tr'
  | EvExecute _ :: tr' => delays tr'
  end.

(** Stable sort of the memberships by [sortOrder], the effect of
    [[...memberships].sort((a, b) => a.sortOrder - b.sortOrder)] and of
    [orderBy: { sortOrder: 'asc' }]: a membership is placed before the first
    one whose position is not smaller. *)
Fixpoint insert_by_sortOrder (m : TaskGroupMemberWithTask.t)
    (l : list TaskGroupMemberWithTask.t) : list TaskGroupMemberWithTask.t :=
  match l with
  | [] => [m]
  | m' :: l' =>
      if (TaskGroupMemberWithTask.sortOrder m - TaskGroupMemberWithTask.sortOrder m' <=? 0)%Z
      then m :: m' :: l'
      else m' :: insert_by_sortOrder m l'
  end.

Fixpoint sort_by_sortOrder (l : list TaskGroupMemberWithTask.t)
    : list TaskGroupMemberWithTask.t :=
  match l with
  | [] => []
  | m :: l' => insert_by_sortOrder m (sort_by_sortOrder l')
  end.

(** The verdict of a run from its three counts. *)
Definition final_status (completed failedCount skippedCount : nat) : string :=
  if (failedCount =? 0)%nat && (skippedCount =? 0)%nat then "success"
  else if (completed =? 0)%nat then "failed"
  else "partial".

Definition count_status (s : TaskResult.status) (results : list TaskResult.t) : nat :=
  length (filter (λ r, TaskResult.st r = s) results).

(** Arguments of [createGroup] and [updateGroup]. *)
Inductive FailureMode := stop | continue.

Definition failureMode_string (f : FailureMode) : string :=
  match f with stop => "stop" | continue => "continue" end.

Module CreateData.
Record t := mk {
  name : string;
  description : option string;
  cronExpression : string;
  failureMode : option FailureMode;
  delayBetweenTasks : option Z;
  enabled : option bool;
  taskIds : option (list string)
}.
End CreateData.

Module UpdateData.
Record t := mk {
  name : option string;
  description : option string;
  cronExpression : option string;
  failureMode : option FailureMode;
  delayBetweenTasks : option Z;
  enabled : option bool
}.
End UpdateData.

(** [a || b] on an optional value whose falsy inhabitants are given by
    [falsy]. *)
Definition js_or {A : Type} (falsy : A → bool) (a : option A) (b : A) : A :=
  match a with
  | Some x => if falsy x then b else x
  | None => b
  end.

(** [enabled !== false]. *)
Definition not_false (b : option bool) : bool :=
  match b with Some false => false | _ => true end.

(** Truthiness of an optional string: defined and not empty. *)
Definition truthy_string (s : option string) : bool :=
  match s with Some s => negb (String.eqb s "") | None => false end.

(** ** System state

    The database, the [scheduledGroups] map of the service, the tasks armed
    in node-cron, the logger output, the outside world, and the record of
    what a run did to it. *)
Record Sys (World : Type) := mkSys {
  prisma : Store;
  scheduledGroups : JsMap.t nat;
  cronTasks : list ScheduledTask.t;
  logs : list (LogLevel * string);
  world : World;
  trace : list Effect
}.
Arguments mkSys {World}.
Arguments prisma {World}.
Arguments scheduledGroups {World}.
Arguments cronTasks {World}.
Arguments logs {World}.
Arguments world {World}.
Arguments trace {World}.

Definition with_prisma {World : Type} (db : Store) (s : Sys World) : Sys World :=
  mkSys db (scheduledGroups s) (cronTasks s) (logs s) (world s) (trace s).
Definition with_scheduledGroups {World : Type} (m : JsMap.t nat) (s : Sys World) : Sys World :=
  mkSys (prisma s) m (cronTasks s) (logs s) (world s) (trace s).
Definition with_cronTasks {World : Type} (c : list ScheduledTask.t) (s : Sys World) : Sys World :=
  mkSys (prisma s) (scheduledGroups s) c (logs s) (world s) (trace s).
Definition with_logs {World : Type} (l : list (LogLevel * string)) (s : Sys World) : Sys World :=
  mkSys (prisma s) (scheduledGroups s) (cronTasks s) l (world s) (trace s).
Definition with_world {World : Type} (w : World) (s : Sys World) : Sys World :=
  mkSys (prisma s) (scheduledGroups s) (cronTasks s) (logs s) w (trace s).
Definition with_trace {World : Type} (t : list Effect) (s : Sys World) : Sys World :=
  mkSys (prisma s) (scheduledGroups s) (cronTasks s) (logs s) (world s) t.

(** A computation ends with a value or with a thrown error. *)
Inductive Result (A : Type) :=
| Ok (a : A)
| Throw (e : JsError).
Arguments Ok {A} a.
Arguments Throw {A} e.

(** ** The service *)

Section Service.

Set Default Proof Using "Type".

(** The outside world on which the task executor acts, with its clock. *)
Context {World : Type}.

(** [schedulerService.executeTask]: the Action Executor.  It is given the
    task and either resolves or rejects with an error. *)
Variable executeTask : Task.t → World → Outcome * World.

(** [new Date()] and the passing of [ms] milliseconds in [setTimeout]. *)
Variable now : World → Z.
Variable sleep : Z → World → World.

(** [cron.validate] of node-cron. *)
Variable cron_validate : string → bool.

(** The id that the database gives to the n-th created row. *)
Variable gen_id : nat → string.

(** *** The monad: state, and exceptions that keep the state reached *)

Definition M (A : Type) : Type := Sys World → Result A * Sys World.

Definition ret {A} (a : A) : M A := λ s, (Ok a, s).

Definition bind {A B} (m : M A) (k : A → M B) : M B :=
  λ s, match m s with
       | (Ok a, s') => k a s'
       | (Throw e, s') => (Throw e, s')
       end.

Definition throw {A} (e : JsError) : M A := λ s, (Throw e, s).

Definition try_catch {A} (m : M A) (handler : JsError → M A) : M A :=
  λ s, match m s with
       | (Ok a, s') => (Ok a, s')
       | (Throw e, s') => handler e s'
       end.

Notation "x <- m ;; k" := (bind m (λ x, k))
  (at level 100, m at next level, right associativity).
Notation "m ;;; k" := (bind m (λ _, k))
  (at level 100, right associativity).

(** *** Logger, clock, executor, timers *)

Definition logger_info (msg : string) : M unit :=
  λ s, (Ok tt, with_logs (logs s ++ [(LogInfo, msg)]) s).

Definition logger_error (msg : string) : M unit :=
  λ s, (Ok tt, with_logs (logs s ++ [(LogError, msg)]) s).

Definition new_Date : M Z := λ s, (Ok (now (world s)), s).

Definition delay (ms : Z) : M unit :=
  λ s, (Ok tt, with_world (sleep ms (world s))
                 (with_trace (trace s ++ [EvDelay ms]) s)).

Definition schedulerService_executeTask (task : Task.t) : M unit :=
  λ s, let '(o, w) := executeTask task (world s) in
       let s' := with_world w (with_trace (trace s ++ [EvExecute task]) s) in
       match o with
       | Resolved => (Ok tt, s')
       | Rejected e => (Throw e, s')
       end.

(** [cron.schedule(expr, callback, { scheduled: true, timezone })]: arms a
    new running task and returns its handle. *)
Definition cron_schedule (expr : string) (target : string) (tz : string) : M nat :=
  λ s, (Ok (length (cronTasks s)),
        with_cronTasks (cronTasks s ++ [ScheduledTask.mk expr tz target true]) s).

(** [handle?.stop()]. *)
Definition cronTask_stop (handle : option nat) : M unit :=
  λ s, match handle with
       | Some h => (Ok tt, with_cronTasks (alter ScheduledTask.stop h (cronTasks s)) s)
       | None => (Ok tt, s)
       end.

Definition scheduledGroups_has (k : string) : M bool :=
  λ s, (Ok (JsMap.has k (scheduledGroups s)), s).
Definition scheduledGroups_get (k : string) : M (option nat) :=
  λ s, (Ok (JsMap.get k (scheduledGroups s)), s).
Definition scheduledGroups_delete (k : string) : M unit :=
  λ s, (Ok tt, with_scheduledGroups (JsMap.delete k (scheduledGroups s)) s).
Definition scheduledGroups_set (k : string) (h : nat) : M unit :=
  λ s, (Ok tt, with_scheduledGroups (JsMap.set k h (scheduledGroups s)) s).
Definition scheduledGroups_clear : M unit :=
  λ s, (Ok tt, with_scheduledGroups (JsMap.clear (scheduledGroups s)) s).

(** *** The Prisma client *)

Definition db_read {A} (f : Store → A) : M A := λ s, (Ok (f (prisma s)), s).

Definition db_write {A} (f : Store → Result A * Store) : M A :=
  λ s, let '(r, db) := f (prisma s) in (r, with_prisma db s).

Definition set_taskGroups (g : gmap string TaskGroup.t) (db : Store) : Store :=
  mkStore g (tasks db) (taskGroupMembers db) (taskGroupExecutions db) (idCounter db).
Definition set_taskGroupMembers (m : list TaskGroupMember.t) (db : Store) : Store :=
  mkStore (taskGroups db) (tasks db) m (taskGroupExecutions db) (idCounter db).
Definition set_taskGroupExecutions (e : list TaskGroupExecution.t) (db : Store) : Store :=
  mkStore (taskGroups db) (tasks db) (taskGroupMembers db) e (idCounter db).
Definition set_idCounter (n : nat) (db : Store) : Store :=
  mkStore (taskGroups db) (tasks db) (taskGroupMembers db) (taskGroupExecutions db) n.

(** Modelled from the spec: the Prisma query engine.  The memberships of a
    group, each with its task, ordered by position ("read of a group with
    its ordered membership and each member's task"). *)
Definition memberships_of (groupId : string) (db : Store)
    : list TaskGroupMemberWithTask.t :=
  sort_by_sortOrder
    (omap (λ m, TaskGroupMemberWithTask.mk m <$> tasks db !! TaskGroupMember.taskId m)
          (filter (λ m, TaskGroupMember.groupId m = groupId) (taskGroupMembers db))).

(** Modelled from the spec: the Prisma query engine.
    [taskGroup.findUnique] with the memberships included. *)
Definition taskGroup_findUnique_include (groupId : string) (db : Store)
    : option TaskGroupWithMembers.t :=
  (λ g, TaskGroupWithMembers.mk g (memberships_of groupId db))
    <$> taskGroups db !! groupId.

(** Modelled from the spec: the Prisma query engine.
    [taskGroupExecution.create]: a new row with the given columns, the
    start time, and the remaining columns unset ("created at run start in
    running state", "completion time (nullable while running)"). *)
Definition taskGroupExecution_create (groupId : string) (tasksTotal : nat)
    (status : string) (startedAt : Z) (db : Store)
    : Result TaskGroupExecution.t * Store :=
  let row := TaskGroupExecution.mk (length (taskGroupExecutions db)) groupId
               startedAt None status tasksTotal 0 0 0 None None in
  (Ok row, set_taskGroupExecutions (taskGroupExecutions db ++ [row]) db).

(** Modelled from the spec: the Prisma query engine.  An [update] rewrites
    the columns named in [data] of the row with that id, and is rejected
    when there is no such row. *)
Definition taskGroupExecution_update (id : nat)
    (data : TaskGroupExecution.t → TaskGroupExecution.t) (db : Store)
    : Result TaskGroupExecution.t * Store :=
  match taskGroupExecutions db !! id with
  | Some row =>
      (Ok (data row),
       set_taskGroupExecutions (<[id := data row]> (taskGroupExecutions db)) db)
  | None => (Throw (Error "Record to update not found."), db)
  end.

Definition taskGroup_update (id : string)
    (data : TaskGroup.t → TaskGroup.t) (db : Store)
    : Result TaskGroup.t * Store :=
  match taskGroups db !! id with
  | Some row => (Ok (data row), set_taskGroups (<[id := data row]> (taskGroups db)) db)
  | None => (Throw (Error "Record to update not found."), db)
  end.

(** Modelled from the spec: the Prisma query engine.  A [delete] removes
    the row with that id, and is rejected when there is no such row. *)
Definition taskGroup_delete (id : string) (db : Store) : Result unit * Store :=
  match taskGroups db !! id with
  | Some _ => (Ok tt, set_taskGroups (delete id (taskGroups db)) db)
  | None => (Throw (Error "Record to delete does not exist."), db)
  end.

(** Modelled from the spec: the Prisma query engine.  [taskGroup.create]
    stores the row under a generated id; the last-run columns start unset.
    A row whose id is taken is rejected. *)
Definition taskGroup_create (name : string) (description : option string)
    (cronExpression failureMode : string) (delayBetweenTasks : Z)
    (enabled : bool) (db : Store) : Result TaskGroup.t * Store :=
  let id := gen_id (idCounter db) in
  let db := set_idCounter (S (idCounter db)) db in
  match taskGroups db !! id with
  | Some _ => (Throw (Error "Unique constraint failed on the fields: (id)"), db)
  | None =>
      let row := TaskGroup.mk id name description cronExpression failureMode
                   delayBetweenTasks enabled None None None in
      (Ok row, set_taskGroups (<[id := row]> (taskGroups db)) db)
  end.

(** Modelled from the spec: the Prisma query engine.
    [taskGroupMember.create]: a pair (group, task) is stored once (the
    service addresses a membership by the unique key [groupId_taskId]), and
    a membership refers to a stored task. *)
Definition taskGroupMember_create (groupId taskId : string) (sortOrder : Z)
    (db : Store) : Result unit * Store :=
  if existsb (λ m, String.eqb (TaskGroupMember.groupId m) groupId
                   && String.eqb (TaskGroupMember.taskId m) taskId)
             (taskGroupMembers db)
  then (Throw (Error "Unique constraint failed on the fields: (groupId,taskId)"), db)
  else match tasks db !! taskId with
       | None => (Throw (Error "Foreign key constraint failed on the field: taskId"), db)
       | Some _ =>
           (Ok tt, set_taskGroupMembers
                     (taskGroupMembers db ++ [TaskGroupMember.mk groupId taskId sortOrder]) db)
       end.

(** Modelled from the spec: the Prisma query engine.  The largest position
    among the memberships of a group ([aggregate] with [_max]), unset when
    the group has none. *)
Definition max_sortOrder (groupId : string) (db : Store) : option Z :=
  foldr (λ m acc, match acc with
                  | Some a => Some (Z.max (TaskGroupMember.sortOrder m) a)
                  | None => Some (TaskGroupMember.sortOrder m)
                  end)
        None
        (filter (λ m, TaskGroupMember.groupId m = groupId) (taskGroupMembers db)).

(** Modelled from the spec: the Prisma query engine.  [taskGroup.findMany]
    with [where: { enabled: true }]. *)
Definition taskGroup_findMany_enabled (db : Store) : list TaskGroup.t :=
  filter (λ g, TaskGroup.enabled g = true) (snd <$> map_to_list (taskGroups db)).

(** *** Methods of [TaskGroupService] *)

Definition getGroup (groupId : string) : M (option TaskGroup.t) :=
  db_read (λ db, taskGroups db !! groupId).

Definition getGroupWithTasks (groupId : string) : M (option TaskGroupWithMembers.t) :=
  db_read (taskGroup_findUnique_include groupId).

(** The two statements of "stop existing schedule", used where a group is
    rescheduled, disabled or deleted. *)
Definition unschedule (groupId : string) : M unit :=
  has <- scheduledGroups_has groupId ;;
  if has : bool then
    h <- scheduledGroups_get groupId ;;
    cronTask_stop h ;;;
    scheduledGroups_delete groupId
  else ret tt.

Definition scheduleGroup (group : TaskGroup.t) : M unit :=
  if negb (cron_validate (TaskGroup.cronExpression group)) then
    logger_error ("Invalid cron expression for task group "
                  +:+ TaskGroup.name group +:+ ": " +:+ TaskGroup.cronExpression group)
  else
    unschedule (TaskGroup.id group) ;;;
    cronTask <- cron_schedule (TaskGroup.cronExpression group) (TaskGroup.id group) "UTC" ;;
    scheduledGroups_set (TaskGroup.id group) cronTask ;;;
    logger_info ("Scheduled task group: " +:+ TaskGroup.name group
                 +:+ " (" +:+ TaskGroup.cronExpression group +:+ ")").

Fixpoint loadTaskGroups_loop (groups : list TaskGroup.t) : M unit :=
  match groups with
  | [] => ret tt
  | group :: groups' =>
      try_catch (scheduleGroup group)
        (λ _, logger_error ("Failed to schedule task group " +:+ TaskGroup.name group +:+ ":")) ;;;
      loadTaskGroups_loop groups'
  end.

Definition loadTaskGroups : M unit :=
  try_catch
    (groups <- db_read taskGroup_findMany_enabled ;;
     logger_info ("Loading " +:+ pretty (length groups) +:+ " task groups...") ;;;
     loadTaskGroups_loop groups ;;;
     logger_info "All task groups loaded")
    (λ _, logger_error "Error loading task groups:").

Definition mk_result (task : Task.t) (st : TaskResult.status)
    (err : option string) (startedAt completedAt : Z) : TaskResult.t :=
  TaskResult.mk (Task.id task) (Task.name task) (Task.serverId task)
    (Server.name (Task.server task)) st err startedAt (Some completedAt).

(** One turn of the loop of [executeGroup] at index [i] of [len]: the
    variables [results] and [failed] before and after.  The two [continue]
    statements leave the turn before the delay. *)
Definition loop_body (group : TaskGroupWithMembers.t) (len i : nat)
    (membership : TaskGroupMemberWithTask.t)
    (vars : list TaskResult.t * bool) : M (list TaskResult.t * bool) :=
  let '(results, failed) := vars in
  let task := TaskGroupMemberWithTask.task membership in
  if negb (Task.enabled task) then
    startedAt <- new_Date ;;
    completedAt <- new_Date ;;
    ret (results ++ [mk_result task TaskResult.skipped (Some "Task is disabled")
                       startedAt completedAt], failed)
  else if failed && String.eqb (TaskGroup.failureMode (TaskGroupWithMembers.base group)) "stop" then
    startedAt <- new_Date ;;
    completedAt <- new_Date ;;
    ret (results ++ [mk_result task TaskResult.skipped
                       (Some "Skipped due to previous task failure")
                       startedAt completedAt], failed)
  else
    taskStarted <- new_Date ;;
    vars' <- try_catch
      (schedulerService_executeTask task ;;;
       completedAt <- new_Date ;;
       ret (results ++ [mk_result task TaskResult.success None
                          taskStarted completedAt], failed))
      (λ err,
       completedAt <- new_Date ;;
       ret (results ++ [mk_result task TaskResult.failed (Some (message err))
                          taskStarted completedAt], true)) ;;
    (if (Z.of_nat i <? Z.of_nat len - 1)
        && (TaskGroup.delayBetweenTasks (TaskGroupWithMembers.base group) >? 0)
     then
       logger_info ("Waiting "
                    +:+ pretty (TaskGroup.delayBetweenTasks (TaskGroupWithMembers.base group))
                    +:+ " seconds before next task...") ;;;
       delay (TaskGroup.delayBetweenTasks (TaskGroupWithMembers.base group) * 1000)
     else ret tt) ;;;
    ret vars'.

(** [for (let i = ...; i < sortedTasks.length; i++)] from index [i] on,
    [rest] being the members from that index. *)
Fixpoint for_loop (group : TaskGroupWithMembers.t) (len i : nat)
    (rest : list TaskGroupMemberWithTask.t)
    (vars : list TaskResult.t * bool) : M (list TaskResult.t * bool) :=
  match rest with
  | [] => ret vars
  | membership :: rest' =>
      vars' <- loop_body group len i membership vars ;;
      for_loop group len (S i) rest' vars'
  end.

Definition failure_summary (failedCount : nat) : option string :=
  if (0 <? failedCount)%nat then Some (pretty failedCount +:+ " task(s) failed") else None.

Definition executeGroup (groupId : string) : M TaskGroupExecution.t :=
  found <- getGroupWithTasks groupId ;;
  match found with
  | None => throw (Error ("Task group " +:+ groupId +:+ " not found"))
  | Some group =>
      logger_info ("Executing task group: "
                   +:+ TaskGroup.name (TaskGroupWithMembers.base group)) ;;;
      startedAt <- new_Date ;;
      execution <- db_write (taskGroupExecution_create groupId
                               (length (TaskGroupWithMembers.taskMemberships group))
                               "running" startedAt) ;;
      let sortedTasks := sort_by_sortOrder (TaskGroupWithMembers.taskMemberships group) in
      vars <- for_loop group (length sortedTasks) 0 sortedTasks ([], false) ;;
      let results := fst vars in
      let completed := count_status TaskResult.success results in
      let failedCount := count_status TaskResult.failed results in
      let skippedCount := count_status TaskResult.skipped results in
      let status := final_status completed failedCount skippedCount in
      completedAt <- new_Date ;;
      updatedExecution <- db_write (taskGroupExecution_update (TaskGroupExecution.id execution)
        (λ row, TaskGroupExecution.mk
                  (TaskGroupExecution.id row) (TaskGroupExecution.groupId row)
                  (TaskGroupExecution.startedAt row) (Some completedAt) status
                  (TaskGroupExecution.tasksTotal row)
                  completed failedCount skippedCount (Some results)
                  (failure_summary failedCount))) ;;
      lastRun <- new_Date ;;
      db_write (taskGroup_update groupId
        (λ row, TaskGroup.mk
                  (TaskGroup.id row) (TaskGroup.name row) (TaskGroup.description row)
                  (TaskGroup.cronExpression row) (TaskGroup.failureMode row)
                  (TaskGroup.delayBetweenTasks row) (TaskGroup.enabled row)
                  (Some lastRun) (Some status) (failure_summary failedCount))) ;;;
      logger_info ("Task group " +:+ TaskGroup.name (TaskGroupWithMembers.base group)
                   +:+ " completed: " +:+ pretty completed +:+ "/"
                   +:+ pretty (length results) +:+ " successful") ;;;
      ret updatedExecution
  end.

Definition addTask (groupId taskId : string) (sortOrder : option Z) : M unit :=
  sortOrder <- match sortOrder with
               | Some n => ret n
               | None =>
                   maxSort <- db_read (max_sortOrder groupId) ;;
                   ret (default (-1) maxSort + 1)
               end ;;
  db_write (taskGroupMember_create groupId taskId sortOrder) ;;;
  logger_info ("Added task " +:+ taskId +:+ " to group " +:+ groupId
               +:+ " at position " +:+ pretty sortOrder).

Fixpoint createGroup_addTasks (groupId : string) (i : nat) (taskIds : list string) : M unit :=
  match taskIds with
  | [] => ret tt
  | taskId :: taskIds' =>
      addTask groupId taskId (Some (Z.of_nat i)) ;;;
      createGroup_addTasks groupId (S i) taskIds'
  end.

Definition createGroup (data : CreateData.t) : M TaskGroup.t :=
  if negb (cron_validate (CreateData.cronExpression data)) then
    throw (Error ("Invalid cron expression: " +:+ CreateData.cronExpression data))
  else
    group <- db_write (taskGroup_create
               (CreateData.name data)
               (CreateData.description data)
               (CreateData.cronExpression data)
               (js_or (λ s, String.eqb s "")
                      (failureMode_string <$> CreateData.failureMode data) "stop")
               (js_or (λ n, n =? 0) (CreateData.delayBetweenTasks data) 0)
               (not_false (CreateData.enabled data))) ;;
    match CreateData.taskIds data with
    | Some taskIds =>
        if (0 <? length taskIds)%nat
        then createGroup_addTasks (TaskGroup.id group) 0 taskIds
        else ret tt
    | None => ret tt
    end ;;;
    (if TaskGroup.enabled group then scheduleGroup group else ret tt) ;;;
    logger_info ("Created task group: " +:+ TaskGroup.name group) ;;;
    ret group.

(** The columns of [data] that are present replace the stored ones. *)
Definition apply_update (data : UpdateData.t) (row : TaskGroup.t) : TaskGroup.t :=
  TaskGroup.mk
    (TaskGroup.id row)
    (default (TaskGroup.name row) (UpdateData.name data))
    (match UpdateData.description data with
     | Some d => Some d
     | None => TaskGroup.description row
     end)
    (default (TaskGroup.cronExpression row) (UpdateData.cronExpression data))
    (default (TaskGroup.failureMode row) (failureMode_string <$> UpdateData.failureMode data))
    (default (TaskGroup.delayBetweenTasks row) (UpdateData.delayBetweenTasks data))
    (default (TaskGroup.enabled row) (UpdateData.enabled data))
    (TaskGroup.lastRun row) (TaskGroup.lastStatus row) (TaskGroup.lastError row).

Definition updateGroup (groupId : string) (data : UpdateData.t) : M TaskGroup.t :=
  if truthy_string (UpdateData.cronExpression data)
     && negb (cron_validate (default "" (UpdateData.cronExpression data)))
  then
    throw (Error ("Invalid cron expression: " +:+ default "" (UpdateData.cronExpression data)))
  else
    group <- db_write (taskGroup_update groupId (apply_update data)) ;;
    (if TaskGroup.enabled group then scheduleGroup group
     else unschedule groupId) ;;;
    ret group.

Definition deleteGroup (groupId : string) : M unit :=
  unschedule groupId ;;;
  db_write (taskGroup_delete groupId) ;;;
  logger_info ("Deleted task group: " +:+ groupId).

Definition toggleGroup (groupId : string) (enabled : bool) : M TaskGroup.t :=
  updateGroup groupId (UpdateData.mk None None None None None (Some enabled)).

Fixpoint cleanup_loop (entries : list (string * nat)) : M unit :=
  match entries with
  | [] => ret tt
  | (groupId, cronTask) :: entries' =>
      cronTask_stop (Some cronTask) ;;;
      logger_info ("Stopped task group: " +:+ groupId) ;;;
      cleanup_loop entries'
  end.

Definition cleanup : M unit :=
  logger_info "Stopping all task group schedules..." ;;;
  entries <- (λ s, (Ok (scheduledGroups s), s)) ;;
  cleanup_loop entries ;;;
  scheduledGroups_clear ;;;
  logger_info "All task group schedules stopped".

(** *** Membership management *)

Definition is_membership (groupId taskId : string) (m : TaskGroupMember.t) : bool :=
  String.eqb (TaskGroupMember.groupId m) groupId
  && String.eqb (TaskGroupMember.taskId m) taskId.

(** Modelled from the spec: the Prisma query engine.
    [taskGroupMember.delete] by the key [groupId_taskId]: the membership is
    removed, and the call is rejected when there is none. *)
Definition taskGroupMember_delete (groupId taskId : string) (db : Store)
    : Result unit * Store :=
  if existsb (is_membership groupId taskId) (taskGroupMembers db)
  then (Ok tt,
        set_taskGroupMembers
          (filter (λ m, is_membership groupId taskId m = false) (taskGroupMembers db)) db)
  else (Throw (Error "Record to delete does not exist."), db).

(** Modelled from the spec: the Prisma query engine.
    [taskGroupMember.update] by the key [groupId_taskId] with
    [data: { sortOrder }]: the position of the membership is rewritten, and
    the call is rejected when there is no such membership. *)
Definition taskGroupMember_update (groupId taskId : string) (sortOrder : Z) (db : Store)
    : Result unit * Store :=
  if existsb (is_membership groupId taskId) (taskGroupMembers db)
  then (Ok tt,
        set_taskGroupMembers
          ((λ m, if is_membership groupId taskId m
                 then TaskGroupMember.mk groupId taskId sortOrder else m)
             <$> taskGroupMembers db) db)
  else (Throw (Error "Record to update not found."), db).

Definition removeTask (groupId taskId : string) : M unit :=
  db_write (taskGroupMember_delete groupId taskId) ;;;
  logger_info ("Removed task " +:+ taskId +:+ " from group " +:+ groupId).

Fixpoint reorderTasks_loop (groupId : string) (i : nat) (taskIds : list string) : M unit :=
  match taskIds with
  | [] => ret tt
  | taskId :: taskIds' =>
      db_write (taskGroupMember_update groupId taskId (Z.of_nat i)) ;;;
      reorderTasks_loop groupId (S i) taskIds'
  end.

Definition reorderTasks (groupId : string) (taskIds : list string) : M unit :=
  reorderTasks_loop groupId 0 taskIds ;;;
  logger_info ("Reordered tasks in group " +:+ groupId).

(** ** Properties *)

(** *** What a run leaves alone *)

(** The loop of [executeGroup] writes to the log, the world and the trace
    only. *)
Definition same_stores (s s' : Sys World) : Prop :=
  prisma s' = prisma s
  ∧ scheduledGroups s' = scheduledGroups s
  ∧ cronTasks s' = cronTasks s.

(** Whether turn [i] of [len] ends with a suspension, once the executor was
    called. *)
Definition delay_due (group : TaskGroupWithMembers.t) (len i : nat) : bool :=
  (Z.of_nat i <? Z.of_nat len - 1)
  && (TaskGroup.delayBetweenTasks (TaskGroupWithMembers.base group) >? 0).

(** The effects of a run read off its members and their recorded results:
    nothing for a member recorded [skipped]; for any other member a call of
    the executor, followed by the suspension when one is due. *)
Fixpoint run_effects (group : TaskGroupWithMembers.t) (len i : nat)
    (members : list TaskGroupMemberWithTask.t) (results : list TaskResult.t)
    : list Effect :=
  match members, results with
  | m :: members', r :: results' =>
      (if decide (TaskResult.st r = TaskResult.skipped) then []
       else EvExecute (TaskGroupMemberWithTask.task m)
            :: (if delay_due group len i
                then [EvDelay (TaskGroup.delayBetweenTasks (TaskGroupWithMembers.base group) * 1000)]
                else []))
      ++ run_effects group len (S i) members' results'
  | _, _ => []
  end.

(** A result records the task of its member, and a disabled task is
    recorded [skipped] with the message of the first guard. *)
Definition records (m : TaskGroupMemberWithTask.t) (r : TaskResult.t) : Prop :=
  let task := TaskGroupMemberWithTask.task m in
  TaskResult.taskId r = Task.id task
  ∧ TaskResult.taskName r = Task.name task
  ∧ TaskResult.serverId r = Task.serverId task
  ∧ TaskResult.serverName r = Server.name (Task.server task)
  ∧ (Task.enabled task = false →
     TaskResult.st r = TaskResult.skipped
     ∧ TaskResult.error r = Some "Task is disabled")
  ∧ (TaskResult.st r ≠ TaskResult.skipped → Task.enabled task = true).

Definition is_failed (r : TaskResult.t) : bool :=
  bool_decide (TaskResult.st r = TaskResult.failed).

Definition stop_mode (group : TaskGroupWithMembers.t) : bool :=
  String.eqb (TaskGroup.failureMode (TaskGroupWithMembers.base group)) "stop".

Lemma same_stores_trans s1 s2 s3 :
  same_stores s1 s2 → same_stores s2 s3 → same_stores s1 s3.
Proof.
  intros (H1 & H2 & H3) (H4 & H5 & H6). unfold same_stores.
  rewrite H4, H5, H6. by rewrite H1, H2, H3.
Qed.

(** *** One turn of the loop *)

Lemma loop_body_disabled group len i m results failed s :
  Task.enabled (TaskGroupMemberWithTask.task m) = false →
  loop_body group len i m (results, failed) s =
    (Ok (results ++ [mk_result (TaskGroupMemberWithTask.task m) TaskResult.skipped
                       (Some "Task is disabled") (now (world s)) (now (world s))],
         failed),
     s).
Proof. intros Hen. unfold loop_body. rewrite Hen. reflexivity. Qed.

Lemma loop_body_stopped group len i m results s :
  Task.enabled (TaskGroupMemberWithTask.task m) = true →
  stop_mode group = true →
  loop_body group len i m (results, true) s =
    (Ok (results ++ [mk_result (TaskGroupMemberWithTask.task m) TaskResult.skipped
                       (Some "Skipped due to previous task failure")
                       (now (world s)) (now (world s))],
         true),
     s).
Proof.
  intros Hen Hstop. unfold loop_body, stop_mode in *.
  rewrite Hen, Hstop. reflexivity.
Qed.

(** The turn of a member that reaches the executor, in the state after the
    call and the suspension. *)
Lemma loop_body_execute group len i m results failed s :
  Task.enabled (TaskGroupMemberWithTask.task m) = true →
  failed && stop_mode group = false →
  let task := TaskGroupMemberWithTask.task m in
  let w := (executeTask task (world s)).2 in
  let d := TaskGroup.delayBetweenTasks (TaskGroupWithMembers.base group) in
  ∃ s',
    loop_body group len i m (results, failed) s =
      (Ok (match (executeTask task (world s)).1 with
           | Resolved =>
               (results ++ [mk_result task TaskResult.success None
                              (now (world s)) (now w)], failed)
           | Rejected e =>
               (results ++ [mk_result task TaskResult.failed (Some (message e))
                              (now (world s)) (now w)], true)
           end),
       s')
    ∧ same_stores s s'
    ∧ trace s' = trace s ++ EvExecute task
                   :: (if delay_due group len i then [EvDelay (d * 1000)] else [])
    ∧ world s' = (if delay_due group len i then sleep (d * 1000) w else w).
Proof.
  intros Hen Hgo. unfold loop_body, stop_mode, delay_due in *. rewrite Hen, Hgo. simpl.
  unfold bind, try_catch, new_Date, schedulerService_executeTask, ret. simpl.
  destruct (executeTask (TaskGroupMemberWithTask.task m) (world s)) as [[|e] w'] eqn:?; simpl;
    (destruct ((Z.of_nat i <? Z.of_nat len - 1)
               && (TaskGroup.delayBetweenTasks (TaskGroupWithMembers.base group) >? 0));
     simpl; eexists; (split; [reflexivity|]); unfold same_stores; simpl;
     rewrite <- ?app_assoc; auto).
Qed.

(** *** The loop *)

(** The loop over [l1 ++ l2] is the loop over [l1] followed by the loop over
    [l2] from the index and the variables reached. *)
Lemma for_loop_app group len l1 l2 : ∀ i vars s,
  for_loop group len i (l1 ++ l2) vars s =
  bind (for_loop group len i l1 vars)
       (λ vars', for_loop group len (i + length l1) l2 vars') s.
Proof.
  induction l1 as [|m l1 IH]; intros i vars s; simpl.
  - unfold bind, ret. by rewrite Nat.add_0_r.
  - unfold bind at 1 2 3.
    destruct (loop_body group len i m vars s) as [[vars'|e] s1]; [|done].
    rewrite IH. unfold bind. by rewrite Nat.add_succ_r.
Qed.

(** What a member skipped by the second guard is recorded as. *)
Definition stop_skipped (m : TaskGroupMemberWithTask.t) (r : TaskResult.t) : Prop :=
  TaskResult.st r = TaskResult.skipped
  ∧ (Task.enabled (TaskGroupMemberWithTask.task m) = true →
     TaskResult.error r = Some "Skipped due to previous task failure").

(** A member that passes both guards is not recorded [skipped]. *)
Definition attempted (m : TaskGroupMemberWithTask.t) (r : TaskResult.t) : Prop :=
  Task.enabled (TaskGroupMemberWithTask.task m) = true →
  TaskResult.st r ≠ TaskResult.skipped.

(** A result that is not [skipped] records what the executor did with the
    member's task in the world in which it was called: [success] when it
    resolved, [failed] with the message of the error when it rejected. *)
Definition outcome_recorded (m : TaskGroupMemberWithTask.t) (r : TaskResult.t) : Prop :=
  TaskResult.st r ≠ TaskResult.skipped →
  ∃ w, match (executeTask (TaskGroupMemberWithTask.task m) w).1 with
       | Resolved =>
           TaskResult.st r = TaskResult.success ∧ TaskResult.error r = None
       | Rejected e =>
           TaskResult.st r = TaskResult.failed
           ∧ TaskResult.error r = Some (message e)
       end.

Lemma records_mk_result m st err t1 t2 :
  (Task.enabled (TaskGroupMemberWithTask.task m) = false →
   st = TaskResult.skipped ∧ err = Some "Task is disabled") →
  (st ≠ TaskResult.skipped → Task.enabled (TaskGroupMemberWithTask.task m) = true) →
  records m (mk_result (TaskGroupMemberWithTask.task m) st err t1 t2).
Proof.
  intros H1 H2. unfold records, mk_result. simpl.
  split; [done|]. split; [done|]. split; [done|]. split; [done|]. split; [exact H1|exact H2].
Qed.

(** The loop never throws; it appends one result per member, each for its
    member; it leaves the stores alone; its effects are those of
    [run_effects]; the flag ends set exactly when it was set or a result is
    [failed]; under a set flag in stop mode every member is skipped; and
    outside stop mode every enabled member is attempted. *)
Lemma for_loop_spec group len rest : ∀ i results failed s,
  ∃ new s',
    for_loop group len i rest (results, failed) s
      = (Ok (results ++ new, failed || existsb is_failed new), s')
    ∧ Forall2 records rest new
    ∧ same_stores s s'
    ∧ trace s' = trace s ++ run_effects group len i rest new
    ∧ (failed = true → stop_mode group = true → Forall2 stop_skipped rest new)
    ∧ (stop_mode group = false → Forall2 attempted rest new)
    ∧ Forall2 outcome_recorded rest new.
Proof.
  induction rest as [|m rest IH]; intros i results failed s.
  - exists [], s. simpl. unfold ret, same_stores.
    rewrite !app_nil_r, orb_false_r. repeat split; auto; constructor.
  - cbn [for_loop]. unfold bind at 1.
    destruct (Task.enabled (TaskGroupMemberWithTask.task m)) eqn:Hen.
    + destruct (failed && stop_mode group) eqn:Hgo.
      * apply andb_true_iff in Hgo as [-> Hstop].
        rewrite loop_body_stopped by done.
        match goal with |- context [results ++ [?x]] => set (r := x) end.
        destruct (IH (S i) (results ++ [r]) true s)
          as (new & s' & Hrun & Hrec & Hsame & Htr & Hskip & Hatt & Hout).
        exists (r :: new), s'. rewrite Hrun, <- app_assoc.
        split; [done|]. split.
        { constructor; [|done]. apply records_mk_result; [congruence|done]. }
        split; [done|]. split; [done|]. split.
        { intros _ _. constructor; [|auto]. by split. }
        split.
        { intros Hno. congruence. }
        { constructor; [|done]. intros Hst. by destruct Hst. }
      * destruct (loop_body_execute group len i m results failed s Hen Hgo)
          as (s1 & Hbody & Hsame1 & Htr1 & _).
        rewrite Hbody.
        destruct ((executeTask (TaskGroupMemberWithTask.task m) (world s)).1) as [|e] eqn:Hex.
        -- match goal with |- context [results ++ [?x]] => set (r := x) end.
           destruct (IH (S i) (results ++ [r]) failed s1)
             as (new & s' & Hrun & Hrec & Hsame & Htr & Hskip & Hatt & Hout).
           exists (r :: new), s'. rewrite Hrun, <- app_assoc.
           split; [done|]. split.
           { constructor; [|done]. apply records_mk_result; [congruence|done]. }
           split.
           { by eapply same_stores_trans. }
           split.
           { rewrite Htr, Htr1, <- app_assoc. done. }
           split.
           { intros -> Hstop. by rewrite Hstop in Hgo. }
           split.
           { intros Hno. constructor; [|auto]. intros _. done. }
           { constructor; [|done]. intros _. exists (world s). by rewrite Hex. }
        -- match goal with |- context [results ++ [?x]] => set (r := x) end.
           destruct (IH (S i) (results ++ [r]) true s1)
             as (new & s' & Hrun & Hrec & Hsame & Htr & Hskip & Hatt & Hout).
           exists (r :: new), s'. rewrite Hrun, <- app_assoc.
           split; [by rewrite orb_true_r|]. split.
           { constructor; [|done]. apply records_mk_result; [congruence|done]. }
           split.
           { by eapply same_stores_trans. }
           split.
           { rewrite Htr, Htr1, <- app_assoc. done. }
           split.
           { intros -> Hstop. by rewrite Hstop in Hgo. }
           split.
           { intros Hno. constructor; [|auto]. intros _. done. }
           { constructor; [|done]. intros _. exists (world s). by rewrite Hex. }
    + rewrite loop_body_disabled by done.
      match goal with |- context [results ++ [?x]] => set (r := x) end.
      destruct (IH (S i) (results ++ [r]) failed s)
        as (new & s' & Hrun & Hrec & Hsame & Htr & Hskip & Hatt & Hout).
      exists (r :: new), s'. rewrite Hrun, <- app_assoc.
      split; [done|]. split.
      { constructor; [|done]. by apply records_mk_result. }
      split; [done|]. split; [done|]. split.
      { intros Hf Hstop. constructor; [|auto]. split; [done|]. congruence. }
      split.
      { intros Hno. constructor; [|auto]. intros ?. congruence. }
      { constructor; [|done]. intros Hst. by destruct Hst. }
Qed.

(** *** A run of [executeGroup] on a stored group *)

(** The row with which [executeGroup] starts a run. *)
Definition running_row (db : Store) (groupId : string) (startedAt : Z) (tasksTotal : nat)
    : TaskGroupExecution.t :=
  TaskGroupExecution.mk (length (taskGroupExecutions db)) groupId startedAt None
    "running" tasksTotal 0 0 0 None None.

(** The state in which the loop of [executeGroup] starts. *)
Definition loop_start (groupId : string) (group : TaskGroupWithMembers.t) (s : Sys World)
    : Sys World :=
  with_prisma
    (set_taskGroupExecutions
       (taskGroupExecutions (prisma s)
        ++ [running_row (prisma s) groupId (now (world s))
              (length (TaskGroupWithMembers.taskMemberships group))])
       (prisma s))
    (with_logs (logs s ++ [(LogInfo, "Executing task group: "
                                     +:+ TaskGroup.name (TaskGroupWithMembers.base group))]) s).

(** The row that a run ends with, from the results of its loop. *)
Definition finalized (id : nat) (groupId : string) (startedAt completedAt : Z)
    (tasksTotal : nat) (results : list TaskResult.t) : TaskGroupExecution.t :=
  TaskGroupExecution.mk id groupId startedAt (Some completedAt)
    (final_status (count_status TaskResult.success results)
                  (count_status TaskResult.failed results)
                  (count_status TaskResult.skipped results))
    tasksTotal
    (count_status TaskResult.success results)
    (count_status TaskResult.failed results)
    (count_status TaskResult.skipped results)
    (Some results)
    (failure_summary (count_status TaskResult.failed results)).

Lemma executeGroup_found groupId s g :
  taskGroups (prisma s) !! groupId = Some g →
  let group := TaskGroupWithMembers.mk g (memberships_of groupId (prisma s)) in
  let sorted := sort_by_sortOrder (TaskGroupWithMembers.taskMemberships group) in
  ∃ results failed sL s',
    for_loop group (length sorted) 0 sorted ([], false) (loop_start groupId group s)
      = (Ok (results, failed), sL)
    ∧ let ex := finalized (length (taskGroupExecutions (prisma s))) groupId
                  (now (world s)) (now (world sL))
                  (length (TaskGroupWithMembers.taskMemberships group)) results in
      executeGroup groupId s = (Ok ex, s')
      ∧ taskGroupExecutions (prisma s') = taskGroupExecutions (prisma s) ++ [ex]
      ∧ (∃ g', taskGroups (prisma s') = <[groupId := g']> (taskGroups (prisma s))
               ∧ TaskGroup.lastStatus g' = Some (TaskGroupExecution.status ex)
               ∧ TaskGroup.lastError g' = TaskGroupExecution.errorMessage ex)
      ∧ tasks (prisma s') = tasks (prisma s)
      ∧ taskGroupMembers (prisma s') = taskGroupMembers (prisma s)
      ∧ scheduledGroups s' = scheduledGroups s
      ∧ cronTasks s' = cronTasks s
      ∧ trace s' = trace sL
      ∧ world s' = world sL.
Proof.
  intros Hg group sorted.
  destruct (for_loop_spec group (length sorted) sorted 0 [] false (loop_start groupId group s))
    as (results & sL & Hloop & _ & (Hdb & Hreg & Hcron) & _).
  simpl in Hloop.
  exists results, (existsb is_failed results), sL. eexists. split; [exact Hloop|].
  cbn zeta.
  unfold executeGroup, getGroupWithTasks, db_read, taskGroup_findUnique_include.
  unfold bind at 1. rewrite Hg. cbn [fmap option_fmap option_map].
  unfold bind at 1. unfold logger_info at 1.
  unfold bind at 1. unfold new_Date at 1. cbn [world with_logs].
  unfold bind at 1. unfold db_write at 1, taskGroupExecution_create.
  cbn [prisma with_logs].
  fold (running_row (prisma s) groupId (now (world s))
          (length (TaskGroupWithMembers.taskMemberships group))).
  change (with_prisma _ _) with (loop_start groupId group s).
  unfold bind at 1. fold group. fold sorted. rewrite Hloop. cbn [fst].
  unfold bind at 1. unfold new_Date at 1.
  unfold bind at 1. unfold db_write at 1, taskGroupExecution_update.
  rewrite Hdb. cbn [loop_start prisma with_prisma taskGroupExecutions set_taskGroupExecutions
                    TaskGroupExecution.id running_row].
  rewrite list_lookup_middle by done.
  unfold bind at 1. unfold new_Date at 1.
  unfold bind at 1. unfold db_write at 1, taskGroup_update.
  cbn [prisma with_prisma taskGroups set_taskGroupExecutions]. rewrite Hg.
  unfold bind at 1. unfold logger_info at 1. unfold bind, ret.
  cbn [TaskGroupExecution.id TaskGroupExecution.groupId TaskGroupExecution.startedAt
       TaskGroupExecution.tasksTotal].
  split; [reflexivity|].
  cbn. rewrite Hreg, Hcron.
  split. { by rewrite insert_app_r_alt, Nat.sub_diag by done. }
  split. { eexists. split; [reflexivity|]. done. }
  done.
Qed.

Lemma found_inv groupId db group :
  taskGroup_findUnique_include groupId db = Some group →
  ∃ g, taskGroups db !! groupId = Some g
       ∧ group = TaskGroupWithMembers.mk g (memberships_of groupId db).
Proof.
  unfold taskGroup_findUnique_include. intros H.
  destruct (taskGroups db !! groupId) as [g|]; [|done].
  exists g. simpl in H. by injection H as <-.
Qed.

(** *** The order of a run *)

Definition by_sortOrder (a b : TaskGroupMemberWithTask.t) : Prop :=
  TaskGroupMemberWithTask.sortOrder a ≤ TaskGroupMemberWithTask.sortOrder b.

Lemma insert_by_sortOrder_perm m l : insert_by_sortOrder m l ≡ₚ m :: l.
Proof.
  induction l as [|m' l IH]; simpl; [done|].
  case_match; [done|]. by rewrite IH, Permutation_swap.
Qed.

Lemma sort_by_sortOrder_perm l : sort_by_sortOrder l ≡ₚ l.
Proof.
  induction l as [|m l IH]; simpl; [done|].
  by rewrite insert_by_sortOrder_perm, IH.
Qed.

Lemma insert_by_sortOrder_hd a m l :
  by_sortOrder a m → HdRel by_sortOrder a l → HdRel by_sortOrder a (insert_by_sortOrder m l).
Proof.
  intros Ham Hl. destruct l as [|m' l]; simpl; [by constructor|].
  case_match; constructor; [done|]. by inversion Hl.
Qed.

Lemma insert_by_sortOrder_sorted m l :
  Sorted by_sortOrder l → Sorted by_sortOrder (insert_by_sortOrder m l).
Proof.
  induction 1 as [|m' l Hl IH Hhd]; simpl.
  - repeat constructor.
  - destruct (Z.leb_spec (TaskGroupMemberWithTask.sortOrder m
                          - TaskGroupMemberWithTask.sortOrder m') 0).
    + constructor; [by constructor|]. constructor. unfold by_sortOrder. lia.
    + constructor; [done|]. apply insert_by_sortOrder_hd; [|done].
      unfold by_sortOrder. lia.
Qed.

Lemma sort_by_sortOrder_sorted l : Sorted by_sortOrder (sort_by_sortOrder l).
Proof.
  induction l as [|m l IH]; simpl; [constructor|].
  by apply insert_by_sortOrder_sorted.
Qed.

(** *** Counting results *)

Lemma count_status_cons s r results :
  count_status s (r :: results)
  = ((if decide (TaskResult.st r = s) then 1 else 0) + count_status s results)%nat.
Proof.
  unfold count_status. rewrite filter_cons. by case_decide.
Qed.

Lemma count_status_total results :
  (count_status TaskResult.success results
   + count_status TaskResult.failed results
   + count_status TaskResult.skipped results)%nat = length results.
Proof.
  induction results as [|r results IH]; [done|].
  rewrite !count_status_cons. simpl length.
  destruct (TaskResult.st r); repeat case_decide; try congruence; lia.
Qed.

Lemma count_status_all s results :
  Forall (λ r, TaskResult.st r = s) results → count_status s results = length results.
Proof.
  induction 1 as [|r results Hr _ IH]; [done|].
  rewrite count_status_cons, IH. by case_decide.
Qed.

Lemma count_status_none s results :
  Forall (λ r, TaskResult.st r ≠ s) results → count_status s results = 0%nat.
Proof.
  induction 1 as [|r results Hr _ IH]; [done|].
  rewrite count_status_cons, IH. by case_decide.
Qed.

Lemma final_status_cases completed failedCount skippedCount :
  (failedCount = 0%nat ∧ skippedCount = 0%nat →
   final_status completed failedCount skippedCount = "success")
  ∧ (¬ (failedCount = 0%nat ∧ skippedCount = 0%nat) → completed = 0%nat →
     final_status completed failedCount skippedCount = "failed")
  ∧ (¬ (failedCount = 0%nat ∧ skippedCount = 0%nat) → completed ≠ 0%nat →
     final_status completed failedCount skippedCount = "partial").
Proof.
  unfold final_status.
  destruct (Nat.eqb_spec failedCount 0), (Nat.eqb_spec skippedCount 0),
    (Nat.eqb_spec completed 0); simpl;
    (split; [|split]); intros; try done; try lia;
    match goal with H : ¬ _ |- _ => exfalso; apply H; by split end.
Qed.

(** *** Effects of a run *)

Lemma run_effects_app group len ms1 rs1 ms2 rs2 : ∀ i,
  length ms1 = length rs1 →
  run_effects group len i (ms1 ++ ms2) (rs1 ++ rs2)
  = run_effects group len i ms1 rs1
    ++ run_effects group len (i + length ms1) ms2 rs2.
Proof.
  revert rs1. induction ms1 as [|m ms1 IH]; intros [|r rs1] i Hlen; try done.
  - simpl. by rewrite Nat.add_0_r.
  - simpl in *. rewrite IH by lia. by rewrite <- app_assoc, Nat.add_succ_r.
Qed.

Lemma run_effects_skipped group len ms rs : ∀ i,
  Forall (λ r, TaskResult.st r = TaskResult.skipped) rs →
  run_effects group len i ms rs = [].
Proof.
  revert rs. induction ms as [|m ms IH]; intros [|r rs] i Hrs; try done.
  inversion_clear Hrs. simpl. case_decide; [|done]. by apply IH.
Qed.

(** The members for which the executor is called: those whose result is not
    [skipped]. *)
Definition attempted_tasks (ms : list TaskGroupMemberWithTask.t)
    (rs : list TaskResult.t) : list Task.t :=
  (λ p, TaskGroupMemberWithTask.task p.1)
    <$> filter (λ p, TaskResult.st p.2 ≠ TaskResult.skipped) (zip ms rs).

Lemma executed_app tr1 tr2 : executed (tr1 ++ tr2) = executed tr1 ++ executed tr2.
Proof. induction tr1 as [|[t|ms] tr1 IH]; simpl; by rewrite ?IH. Qed.

Lemma delays_app tr1 tr2 : delays (tr1 ++ tr2) = delays tr1 ++ delays tr2.
Proof. induction tr1 as [|[t|ms] tr1 IH]; simpl; by rewrite ?IH. Qed.

Lemma executed_run_effects group len ms rs : ∀ i,
  executed (run_effects group len i ms rs) = attempted_tasks ms rs.
Proof.
  revert rs. induction ms as [|m ms IH]; intros [|r rs] i; try done.
  simpl. rewrite executed_app, IH. unfold attempted_tasks. simpl zip.
  rewrite filter_cons. simpl.
  case_decide; case_decide; try done.
  simpl. by destruct (delay_due group len i).
Qed.

Lemma delay_due_last group len i : (len ≤ i + 1)%nat → delay_due group len i = false.
Proof.
  intros Hi. unfold delay_due.
  destruct (Z.ltb_spec (Z.of_nat i) (Z.of_nat len - 1)); [lia|done].
Qed.

Lemma delay_due_zero group len i :
  TaskGroup.delayBetweenTasks (TaskGroupWithMembers.base group) ≤ 0 →
  delay_due group len i = false.
Proof.
  intros Hd. unfold delay_due.
  destruct (Z.gtb_spec (TaskGroup.delayBetweenTasks (TaskGroupWithMembers.base group)) 0);
    [lia|]. apply andb_false_r.
Qed.

Lemma delay_due_between group len i :
  (i + 1 < len)%nat →
  0 < TaskGroup.delayBetweenTasks (TaskGroupWithMembers.base group) →
  delay_due group len i = true.
Proof.
  intros Hi Hd. unfold delay_due.
  destruct (Z.ltb_spec (Z.of_nat i) (Z.of_nat len - 1)); [|lia].
  destruct (Z.gtb_spec (TaskGroup.delayBetweenTasks (TaskGroupWithMembers.base group)) 0);
    [done|lia].
Qed.

(** Without a positive delay a run never suspends. *)
Lemma delays_run_effects_zero group len ms rs : ∀ i,
  TaskGroup.delayBetweenTasks (TaskGroupWithMembers.base group) ≤ 0 →
  delays (run_effects group len i ms rs) = [].
Proof.
  revert rs. induction ms as [|m ms IH]; intros [|r rs] i Hd; try done.
  simpl. rewrite delays_app, IH by done.
  case_decide; [done|]. simpl. by rewrite delay_due_zero.
Qed.

(** With a positive delay a run suspends once for each member that is not
    the last and whose result is not [skipped]. *)
Lemma delays_run_effects_pos group ms rs : ∀ len i,
  0 < TaskGroup.delayBetweenTasks (TaskGroupWithMembers.base group) →
  length ms = length rs →
  len = (i + length ms)%nat →
  delays (run_effects group len i ms rs)
  = replicate
      (length (filter (λ r, TaskResult.st r ≠ TaskResult.skipped)
                      (take (length rs - 1) rs)))
      (TaskGroup.delayBetweenTasks (TaskGroupWithMembers.base group) * 1000).
Proof.
  revert rs. induction ms as [|m ms IH]; intros [|r rs] len i Hd Hlen Hi; try done.
  simpl in Hlen. simpl run_effects. rewrite delays_app.
  rewrite (IH rs len (S i)) by (simpl in *; lia).
  destruct rs as [|r' rs].
  - simpl. rewrite delay_due_last by (simpl in *; lia).
    by case_decide.
  - replace (length (r :: r' :: rs) - 1)%nat with (S (length (r' :: rs) - 1))
      by (simpl; lia).
    rewrite firstn_cons, filter_cons.
    rewrite delay_due_between by (simpl in *; lia).
    case_decide; case_decide; try done.
Qed.

(** *** After a failure in stop mode *)

Lemma for_loop_after_failure group len rest results failed s s' j rj :
  for_loop group len 0 rest ([], false) s = (Ok (results, failed), s') →
  stop_mode group = true →
  results !! j = Some rj →
  TaskResult.st rj = TaskResult.failed →
  Forall2 stop_skipped (drop (S j) rest) (drop (S j) results).
Proof.
  intros Hrun Hstop Hj Hfailed.
  rewrite <- (take_drop (S j) rest), for_loop_app in Hrun.
  unfold bind in Hrun.
  destruct (for_loop_spec group len (take (S j) rest) 0 [] false s)
    as (new1 & s1 & Hrun1 & Hrec1 & _).
  rewrite Hrun1 in Hrun. simpl app in Hrun.
  destruct (for_loop_spec group len (drop (S j) rest) (0 + length (take (S j) rest))
              new1 (false || existsb is_failed new1) s1)
    as (new2 & s2 & Hrun2 & Hrec2 & _ & _ & Hskip & _).
  rewrite Hrun2 in Hrun. injection Hrun as <- _ _.
  apply Forall2_length in Hrec1, Hrec2.
  apply lookup_lt_Some in Hj as Hlt. rewrite length_app in Hlt.
  rewrite length_take in Hrec1. rewrite length_drop in Hrec2.
  assert (length new1 = S j) as Hn1 by lia.
  rewrite drop_app_length' by done.
  apply Hskip; [|done]. simpl.
  rewrite lookup_app_l in Hj by lia.
  apply existsb_exists. exists rj. split.
  - apply list_elem_of_In. by eapply list_elem_of_lookup_2.
  - unfold is_failed. by apply bool_decide_eq_true.
Qed.

(** *** Summary of a run *)

(** Everything the properties below use about a run of [executeGroup] on a
    stored group: it returns the finalized row, which is the one row added to
    the executions; the results are those of the members in run order; the
    registry and the timers are left alone. *)
Lemma executeGroup_run groupId s group :
  taskGroup_findUnique_include groupId (prisma s) = Some group →
  let sorted := sort_by_sortOrder (TaskGroupWithMembers.taskMemberships group) in
  ∃ completedAt results s',
    executeGroup groupId s
      = (Ok (finalized (length (taskGroupExecutions (prisma s))) groupId
               (now (world s)) completedAt
               (length (TaskGroupWithMembers.taskMemberships group)) results),
         s')
    ∧ Forall2 records sorted results
    ∧ Forall2 outcome_recorded sorted results
    ∧ trace s' = trace s ++ run_effects group (length sorted) 0 sorted results
    ∧ taskGroupExecutions (prisma s')
      = taskGroupExecutions (prisma s)
        ++ [finalized (length (taskGroupExecutions (prisma s))) groupId
              (now (world s)) completedAt
              (length (TaskGroupWithMembers.taskMemberships group)) results]
    ∧ scheduledGroups s' = scheduledGroups s
    ∧ cronTasks s' = cronTasks s
    ∧ (stop_mode group = true →
       ∀ j rj, results !! j = Some rj → TaskResult.st rj = TaskResult.failed →
               Forall2 stop_skipped (drop (S j) sorted) (drop (S j) results))
    ∧ (stop_mode group = false → Forall2 attempted sorted results).
Proof.
  intros Hfound sorted.
  destruct (found_inv _ _ _ Hfound) as (g & Hg & ->).
  destruct (executeGroup_found groupId s g Hg)
    as (results & failed & sL & s' & Hloop & Hrun & Hex & _ & _ & _ & Hreg & Hcron & Htr & _).
  cbn zeta in *. fold sorted in Hloop.
  set (group := TaskGroupWithMembers.mk g (memberships_of groupId (prisma s))) in *.
  destruct (for_loop_spec group (length sorted) sorted 0 [] false (loop_start groupId group s))
    as (new & sL' & Hloop' & Hrec & _ & Htr' & _ & Hatt & Hout).
  rewrite Hloop in Hloop'. injection Hloop' as -> _ <-.
  exists (now (world sL)), new, s'.
  split; [exact Hrun|]. split; [done|]. split; [done|].
  split. { by rewrite Htr, Htr'. }
  split; [done|]. split; [done|]. split; [done|]. split; [|done].
  intros Hstop j rj Hj Hf. by eapply for_loop_after_failure.
Qed.

Lemma records_all_disabled ms rs :
  Forall2 records ms rs →
  Forall (λ m, Task.enabled (TaskGroupMemberWithTask.task m) = false) ms →
  Forall (λ r, TaskResult.st r = TaskResult.skipped) rs.
Proof.
  induction 1 as [|m r ms rs Hrec _ IH]; intros Hms; [constructor|].
  inversion_clear Hms. constructor; [|auto].
  destruct Hrec as (_ & _ & _ & _ & Hdis & _). by apply Hdis.
Qed.

Lemma attempted_tasks_enabled ms rs t :
  Forall2 records ms rs → t ∈ attempted_tasks ms rs → Task.enabled t = true.
Proof.
  unfold attempted_tasks.
  induction 1 as [|m r ms rs Hrec _ IH]; simpl; [by intros ?%elem_of_nil|].
  rewrite filter_cons. simpl. case_decide as Hst; [|done].
  rewrite fmap_cons, elem_of_cons. intros [->|Hin]; [|auto].
  destruct Hrec as (_ & _ & _ & _ & _ & Hen). by apply Hen.
Qed.

(** ** The claims about a group run *)

(** C1 (amended).  A run of [executeGroup] that finalizes takes its final
    status from the counts of its results: [success] when no result is
    failed and none is skipped; [failed] when no result is a success and at
    least one member did not succeed; [partial] otherwise.  In particular a
    run with at least one member in which every member was skipped (for
    instance because every member is disabled) finalizes as [failed], with
    [tasksCompleted = 0]. *)
Theorem executeGroup_final_status groupId s group :
  taskGroup_findUnique_include groupId (prisma s) = Some group →
  ∃ ex s' results,
    executeGroup groupId s = (Ok ex, s')
    ∧ TaskGroupExecution.taskResults ex = Some results
    ∧ TaskGroupExecution.tasksCompleted ex = count_status TaskResult.success results
    ∧ TaskGroupExecution.tasksFailed ex = count_status TaskResult.failed results
    ∧ TaskGroupExecution.tasksSkipped ex = count_status TaskResult.skipped results
    ∧ (TaskGroupExecution.tasksFailed ex = 0%nat
       ∧ TaskGroupExecution.tasksSkipped ex = 0%nat →
       TaskGroupExecution.status ex = "success")
    ∧ (TaskGroupExecution.tasksCompleted ex = 0%nat →
       (0 < TaskGroupExecution.tasksFailed ex + TaskGroupExecution.tasksSkipped ex)%nat →
       TaskGroupExecution.status ex = "failed")
    ∧ (TaskGroupExecution.tasksCompleted ex ≠ 0%nat →
       (0 < TaskGroupExecution.tasksFailed ex + TaskGroupExecution.tasksSkipped ex)%nat →
       TaskGroupExecution.status ex = "partial")
    ∧ (results ≠ [] →
       Forall (λ r, TaskResult.st r = TaskResult.skipped) results →
       TaskGroupExecution.status ex = "failed"
       ∧ TaskGroupExecution.tasksCompleted ex = 0%nat)
    ∧ (TaskGroupWithMembers.taskMemberships group ≠ [] →
       Forall (λ m, Task.enabled (TaskGroupMemberWithTask.task m) = false)
              (TaskGroupWithMembers.taskMemberships group) →
       Forall (λ r, TaskResult.st r = TaskResult.skipped) results
       ∧ TaskGroupExecution.status ex = "failed"
       ∧ TaskGroupExecution.tasksCompleted ex = 0%nat).
Proof.
  intros Hfound.
  destruct (executeGroup_run groupId s group Hfound)
    as (completedAt & results & s' & Hrun & Hrec & _).
  eexists _, s', results. split; [exact Hrun|].
  cbn [finalized TaskGroupExecution.taskResults TaskGroupExecution.tasksCompleted
       TaskGroupExecution.tasksFailed TaskGroupExecution.tasksSkipped
       TaskGroupExecution.status].
  destruct (final_status_cases (count_status TaskResult.success results)
              (count_status TaskResult.failed results)
              (count_status TaskResult.skipped results)) as (Hs & Hf & Hp).
  assert (∀ rs : list TaskResult.t, rs ≠ [] →
            Forall (λ r, TaskResult.st r = TaskResult.skipped) rs →
            final_status (count_status TaskResult.success rs)
              (count_status TaskResult.failed rs)
              (count_status TaskResult.skipped rs) = "failed"
            ∧ count_status TaskResult.success rs = 0%nat) as Hall.
  { intros rs Hne Hrs.
    assert (count_status TaskResult.success rs = 0%nat) as H0.
    { apply count_status_none. eapply Forall_impl; [exact Hrs|]. simpl. congruence. }
    split; [|done].
    destruct (final_status_cases (count_status TaskResult.success rs)
                (count_status TaskResult.failed rs)
                (count_status TaskResult.skipped rs)) as (_ & Hf' & _).
    apply Hf'; [|done].
    rewrite (count_status_all _ _ Hrs). destruct rs; [done|]. simpl. lia. }
  split; [done|]. split; [done|]. split; [done|]. split; [done|].
  split; [done|].
  split. { intros H0 Hpos. apply Hf; [lia|done]. }
  split. { intros H0 Hpos. apply Hp; [lia|done]. }
  split; [by apply Hall|].
  intros Hne Hdis.
  assert (Forall (λ r, TaskResult.st r = TaskResult.skipped) results) as Hsk.
  { eapply records_all_disabled; [exact Hrec|].
    by rewrite sort_by_sortOrder_perm. }
  split; [done|]. apply Hall; [|done].
  intros ->. apply Forall2_length in Hrec.
  apply Hne. apply length_zero_iff_nil.
  rewrite <- (Permutation_length (sort_by_sortOrder_perm _)). by rewrite Hrec.
Qed.

(** C5.  [executeGroup] on a group id that is not stored throws and leaves
    the whole state as it was: no execution row is created, in [running]
    state or otherwise, and nothing else is written. *)
Theorem executeGroup_not_found groupId s :
  taskGroups (prisma s) !! groupId = None →
  executeGroup groupId s
    = (Throw (Error ("Task group " +:+ groupId +:+ " not found")), s)
  ∧ taskGroupExecutions (prisma (executeGroup groupId s).2)
    = taskGroupExecutions (prisma s).
Proof.
  intros Hnone.
  assert (executeGroup groupId s
          = (Throw (Error ("Task group " +:+ groupId +:+ " not found")), s)) as Hrun.
  { unfold executeGroup, getGroupWithTasks, db_read, taskGroup_findUnique_include.
    unfold bind. by rewrite Hnone. }
  split; [done|]. by rewrite Hrun.
Qed.

(** C9.  A run of [executeGroup] on a stored group returns a row whose
    results are, entry by entry, those of the memberships of the group taken
    in ascending [sortOrder]; the three counts add up to [tasksTotal], the
    number of memberships. *)
Theorem executeGroup_results_per_member groupId s group :
  taskGroup_findUnique_include groupId (prisma s) = Some group →
  ∃ ex s' results sorted,
    executeGroup groupId s = (Ok ex, s')
    ∧ TaskGroupExecution.taskResults ex = Some results
    ∧ sorted ≡ₚ TaskGroupWithMembers.taskMemberships group
    ∧ Sorted by_sortOrder sorted
    ∧ Forall2 (λ m r, TaskResult.taskId r = Task.id (TaskGroupMemberWithTask.task m)
                      ∧ TaskResult.taskName r = Task.name (TaskGroupMemberWithTask.task m))
              sorted results
    ∧ length results = length (TaskGroupWithMembers.taskMemberships group)
    ∧ TaskGroupExecution.tasksTotal ex
      = length (TaskGroupWithMembers.taskMemberships group)
    ∧ (TaskGroupExecution.tasksCompleted ex + TaskGroupExecution.tasksFailed ex
       + TaskGroupExecution.tasksSkipped ex)%nat
      = TaskGroupExecution.tasksTotal ex
    ∧ TaskGroupExecution.tasksCompleted ex = count_status TaskResult.success results
    ∧ TaskGroupExecution.tasksFailed ex = count_status TaskResult.failed results
    ∧ TaskGroupExecution.tasksSkipped ex = count_status TaskResult.skipped results.
Proof.
  intros Hfound.
  destruct (executeGroup_run groupId s group Hfound)
    as (completedAt & results & s' & Hrun & Hrec & _).
  eexists _, s', results, _. split; [exact Hrun|].
  cbn [finalized TaskGroupExecution.taskResults TaskGroupExecution.tasksCompleted
       TaskGroupExecution.tasksFailed TaskGroupExecution.tasksSkipped
       TaskGroupExecution.tasksTotal].
  assert (length results = length (TaskGroupWithMembers.taskMemberships group)) as Hlen.
  { apply Forall2_length in Hrec.
    by rewrite <- Hrec, (Permutation_length (sort_by_sortOrder_perm _)). }
  split; [done|].
  split; [apply sort_by_sortOrder_perm|].
  split; [apply sort_by_sortOrder_sorted|].
  split. { eapply Forall2_impl; [exact Hrec|]. intros m r (? & ? & _). by split. }
  split; [done|]. split; [done|].
  split. { by rewrite count_status_total. }
  done.
Qed.

Lemma stop_mode_true group :
  stop_mode group = true
  ↔ TaskGroup.failureMode (TaskGroupWithMembers.base group) = "stop".
Proof. unfold stop_mode. apply String.eqb_eq. Qed.

Lemma stop_mode_false group :
  stop_mode group = false
  ↔ TaskGroup.failureMode (TaskGroupWithMembers.base group) ≠ "stop".
Proof. unfold stop_mode. apply String.eqb_neq. Qed.

(** C3.  In a run of [executeGroup], a member whose task is disabled is
    recorded [skipped] with the message of the first guard ("Task is
    disabled"), the executor is not called with its task, and its turn of the
    loop returns the failure flag it was given and leaves the state as it
    was: such a member never makes later members skip and is never counted
    as failed. *)
Theorem disabled_member_is_skipped groupId s group :
  taskGroup_findUnique_include groupId (prisma s) = Some group →
  let sorted := sort_by_sortOrder (TaskGroupWithMembers.taskMemberships group) in
  ∃ ex s' results evs,
    executeGroup groupId s = (Ok ex, s')
    ∧ TaskGroupExecution.taskResults ex = Some results
    ∧ trace s' = trace s ++ evs
    ∧ ∀ k m,
        sorted !! k = Some m →
        Task.enabled (TaskGroupMemberWithTask.task m) = false →
        (∃ r, results !! k = Some r
              ∧ TaskResult.st r = TaskResult.skipped
              ∧ TaskResult.error r = Some "Task is disabled")
        ∧ ¬ (TaskGroupMemberWithTask.task m ∈ executed evs)
        ∧ (∀ len i results0 failed s0,
             loop_body group len i m (results0, failed) s0
             = (Ok (results0
                    ++ [mk_result (TaskGroupMemberWithTask.task m) TaskResult.skipped
                          (Some "Task is disabled") (now (world s0)) (now (world s0))],
                    failed),
                s0)).
Proof.
  intros Hfound sorted.
  destruct (executeGroup_run groupId s group Hfound)
    as (completedAt & results & s' & Hrun & Hrec & _ & Htr & _).
  eexists _, s', results, _. split; [exact Hrun|].
  split; [done|]. split; [exact Htr|].
  intros k m Hk Hdis. split; [|split].
  - destruct (Forall2_lookup_l _ _ _ _ _ Hrec Hk) as (r & Hr & Hmr).
    exists r. split; [done|].
    destruct Hmr as (_ & _ & _ & _ & Hd & _). by apply Hd.
  - rewrite executed_run_effects. intros Hin.
    apply (attempted_tasks_enabled _ _ _ Hrec) in Hin. congruence.
  - intros. by apply loop_body_disabled.
Qed.

(** C2.  In a run of [executeGroup] the executor is called exactly for the
    members that are not recorded [skipped].  With failure mode [stop], once
    a member is recorded [failed], every later member is recorded [skipped],
    an enabled one with the message of the second guard ("Skipped due to
    previous task failure"), and the run has no effect past the failed
    member.  With any other failure mode every enabled member is attempted,
    whatever happened before it.  For a group of four in stop mode whose
    first member succeeds and whose second fails, the results are success,
    failed, skipped, skipped, the status is [partial] and the counts are
    1, 1 and 2. *)
Theorem failure_mode_semantics groupId s group :
  taskGroup_findUnique_include groupId (prisma s) = Some group →
  let sorted := sort_by_sortOrder (TaskGroupWithMembers.taskMemberships group) in
  ∃ ex s' results evs,
    executeGroup groupId s = (Ok ex, s')
    ∧ TaskGroupExecution.taskResults ex = Some results
    ∧ trace s' = trace s ++ evs
    ∧ executed evs = attempted_tasks sorted results
    ∧ (TaskGroup.failureMode (TaskGroupWithMembers.base group) = "stop" →
       ∀ j rj,
         results !! j = Some rj →
         TaskResult.st rj = TaskResult.failed →
         (∀ k m, (j < k)%nat → sorted !! k = Some m →
                 ∃ r, results !! k = Some r
                      ∧ TaskResult.st r = TaskResult.skipped
                      ∧ (Task.enabled (TaskGroupMemberWithTask.task m) = true →
                         TaskResult.error r = Some "Skipped due to previous task failure"))
         ∧ evs = run_effects group (length sorted) 0
                   (take (S j) sorted) (take (S j) results))
    ∧ (TaskGroup.failureMode (TaskGroupWithMembers.base group) ≠ "stop" →
       ∀ k m, sorted !! k = Some m →
              Task.enabled (TaskGroupMemberWithTask.task m) = true →
              ∃ r, results !! k = Some r ∧ TaskResult.st r ≠ TaskResult.skipped)
    ∧ (TaskGroup.failureMode (TaskGroupWithMembers.base group) = "stop" →
       length sorted = 4%nat →
       (∃ r0, results !! 0%nat = Some r0 ∧ TaskResult.st r0 = TaskResult.success) →
       (∃ r1, results !! 1%nat = Some r1 ∧ TaskResult.st r1 = TaskResult.failed) →
       TaskResult.st <$> results
       = [TaskResult.success; TaskResult.failed; TaskResult.skipped; TaskResult.skipped]
       ∧ TaskGroupExecution.status ex = "partial"
       ∧ TaskGroupExecution.tasksCompleted ex = 1%nat
       ∧ TaskGroupExecution.tasksFailed ex = 1%nat
       ∧ TaskGroupExecution.tasksSkipped ex = 2%nat).
Proof.
  intros Hfound sorted.
  destruct (executeGroup_run groupId s group Hfound)
    as (completedAt & results & s' & Hrun & Hrec & _ & Htr & _ & _ & _ & Hstop & Hcont).
  fold sorted in Hrec, Htr, Hstop, Hcont.
  eexists _, s', results, _. split; [exact Hrun|].
  split; [done|]. split; [exact Htr|].
  split; [apply executed_run_effects|].
  assert (length sorted = length results) as Hlen by (eapply Forall2_length; eassumption).
  split; [|split].
  - intros Hmode%stop_mode_true j rj Hj Hf.
    specialize (Hstop Hmode j rj Hj Hf). split.
    + intros k m Hjk Hk.
      assert ((drop (S j) sorted) !! (k - S j)%nat = Some m) as Hk'.
      { rewrite lookup_drop. by replace (S j + (k - S j))%nat with k by lia. }
      destruct (Forall2_lookup_l _ _ _ _ _ Hstop Hk') as (r & Hr & Hsk & Herr).
      rewrite lookup_drop in Hr.
      replace (S j + (k - S j))%nat with k in Hr by lia. by exists r.
    + rewrite <- (take_drop (S j) sorted) at 2.
      rewrite <- (take_drop (S j) results) at 1.
      rewrite run_effects_app by (rewrite !length_take; lia).
      rewrite (run_effects_skipped _ _ (drop (S j) sorted)), app_nil_r; [done|].
      clear -Hstop. induction Hstop as [|???? [? _]]; constructor; done.
  - intros Hmode%stop_mode_false k m Hk Hen.
    destruct (Forall2_lookup_l _ _ _ _ _ (Hcont Hmode) Hk) as (r & Hr & Hatt).
    exists r. split; [done|]. by apply Hatt.
  - intros Hmode%stop_mode_true H4 (r0 & H0 & Hs0) (r1 & H1 & Hs1).
    specialize (Hstop Hmode 1%nat r1 H1 Hs1).
    rewrite H4 in Hlen.
    destruct results as [|a [|b [|c [|d [|? ?]]]]]; try done.
    injection H0 as ->. injection H1 as ->.
    simpl in Hstop.
    apply Forall2_length in Hstop as Hl2.
    destruct (drop 2 sorted) as [|mc [|md [|]]] eqn:Hd; try done.
    inversion Hstop as [|? ? ? ? [Hc _] Htl]; subst.
    inversion Htl as [|? ? ? ? [Hdd _] _]; subst.
    cbn [finalized TaskGroupExecution.status TaskGroupExecution.tasksCompleted
         TaskGroupExecution.tasksFailed TaskGroupExecution.tasksSkipped].
    rewrite !count_status_cons. unfold count_status. simpl.
    rewrite Hs0, Hs1, Hc, Hdd. by repeat case_decide.
Qed.

(** *** The worlds of a run *)

(** The world in which the turn after turn [i] starts, when turn [i]
    started in [w] and recorded [r]: the same world when the member was
    skipped; otherwise the world that the call of the executor left,
    after the suspension when one is due. *)
Definition world_after (group : TaskGroupWithMembers.t) (len i : nat)
    (m : TaskGroupMemberWithTask.t) (r : TaskResult.t) (w : World) : World :=
  if decide (TaskResult.st r = TaskResult.skipped) then w
  else
    let w' := (executeTask (TaskGroupMemberWithTask.task m) w).2 in
    if delay_due group len i
    then sleep (TaskGroup.delayBetweenTasks (TaskGroupWithMembers.base group) * 1000) w'
    else w'.

(** The worlds in which the turns of the loop start, from turn [i] in
    world [w] on. *)
Fixpoint run_worlds (group : TaskGroupWithMembers.t) (len i : nat)
    (members : list TaskGroupMemberWithTask.t) (results : list TaskResult.t)
    (w : World) : list World :=
  match members, results with
  | m :: members', r :: results' =>
      w :: run_worlds group len (S i) members' results' (world_after group len i m r w)
  | _, _ => []
  end.

(** What the turn of member [m] records when it starts in world [w] with
    the failure flag [failed]: the first guard, the second guard, and the
    outcome of the call of the executor in [w]. *)
Definition turn_recorded (group : TaskGroupWithMembers.t) (failed : bool)
    (m : TaskGroupMemberWithTask.t) (w : World) (r : TaskResult.t) : Prop :=
  let task := TaskGroupMemberWithTask.task m in
  TaskResult.taskId r = Task.id task
  ∧ (Task.enabled task = false →
     TaskResult.st r = TaskResult.skipped
     ∧ TaskResult.error r = Some "Task is disabled")
  ∧ (Task.enabled task = true → failed && stop_mode group = true →
     TaskResult.st r = TaskResult.skipped
     ∧ TaskResult.error r = Some "Skipped due to previous task failure")
  ∧ (Task.enabled task = true → failed && stop_mode group = false →
     match (executeTask task w).1 with
     | Resolved =>
         TaskResult.st r = TaskResult.success ∧ TaskResult.error r = None
     | Rejected e =>
         TaskResult.st r = TaskResult.failed
         ∧ TaskResult.error r = Some (message e)
     end).

(** The loop never throws; turn by turn, in the world and under the flag
    that the earlier turns left, it records what [turn_recorded] says. *)
Lemma for_loop_turns group len rest : ∀ i results failed s,
  ∃ new s',
    for_loop group len i rest (results, failed) s
      = (Ok (results ++ new, failed || existsb is_failed new), s')
    ∧ length new = length rest
    ∧ ∀ k m r, rest !! k = Some m → new !! k = Some r →
        ∃ w, run_worlds group len i rest new (world s) !! k = Some w
             ∧ turn_recorded group (failed || existsb is_failed (take k new)) m w r.
Proof.
  induction rest as [|m rest IH]; intros i results failed s.
  { exists [], s. cbn [for_loop existsb]. unfold ret.
    rewrite app_nil_r, orb_false_r. split; [done|]. split; [done|].
    intros k m r Hk. by rewrite lookup_nil in Hk. }
  assert (∀ r0 flag s1,
            loop_body group len i m (results, failed) s = (Ok (results ++ [r0], flag), s1) →
            flag = failed || is_failed r0 →
            world s1 = world_after group len i m r0 (world s) →
            turn_recorded group failed m (world s) r0 →
            ∃ new s',
              for_loop group len i (m :: rest) (results, failed) s
                = (Ok (results ++ new, failed || existsb is_failed new), s')
              ∧ length new = length (m :: rest)
              ∧ ∀ k m' r, (m :: rest) !! k = Some m' → new !! k = Some r →
                  ∃ w, run_worlds group len i (m :: rest) new (world s) !! k = Some w
                       ∧ turn_recorded group (failed || existsb is_failed (take k new))
                           m' w r) as Hstep.
  { intros r0 flag s1 Hbody Hflag Hworld Hturn.
    destruct (IH (S i) (results ++ [r0]) flag s1) as (new & s' & Hloop & Hlen & Hturns).
    exists (r0 :: new), s'. split.
    { cbn [for_loop]. unfold bind at 1. rewrite Hbody, Hloop.
      rewrite <- app_assoc. cbn [app existsb]. by rewrite Hflag, orb_assoc. }
    split. { cbn [length]. by rewrite Hlen. }
    intros [|k] m' r Hm Hr; cbn [lookup list_lookup] in Hm, Hr.
    - injection Hm as <-. injection Hr as <-. exists (world s). split; [done|].
      cbn [take existsb]. by rewrite orb_false_r.
    - destruct (Hturns k m' r Hm Hr) as (w & Hw & Ht). exists w. split.
      + cbn [run_worlds lookup list_lookup]. by rewrite <- Hworld.
      + cbn [take existsb]. by rewrite orb_assoc, <- Hflag. }
  destruct (Task.enabled (TaskGroupMemberWithTask.task m)) eqn:Hen.
  2: { eapply Hstep.
       - by apply loop_body_disabled.
       - by rewrite orb_false_r.
       - unfold world_after. by rewrite decide_True.
       - unfold turn_recorded. rewrite Hen. split; [done|]. split; [done|].
         split; intros; congruence. }
  destruct (failed && stop_mode group) eqn:Hgo.
  - apply andb_true_iff in Hgo as [-> Hstop]. eapply Hstep.
    + by apply loop_body_stopped.
    + done.
    + unfold world_after. by rewrite decide_True.
    + unfold turn_recorded. rewrite Hen, Hstop. split; [done|]. split; [intros; congruence|].
      split; [done|]. cbn [andb]. intros; congruence.
  - destruct (loop_body_execute group len i m results failed s Hen Hgo)
      as (s1 & Hbody & _ & _ & Hworld).
    cbn zeta in Hbody, Hworld.
    destruct ((executeTask (TaskGroupMemberWithTask.task m) (world s)).1) as [|e] eqn:Hout.
    + eapply Hstep.
      * exact Hbody.
      * by rewrite orb_false_r.
      * unfold world_after. by rewrite decide_False.
      * unfold turn_recorded. rewrite Hen, Hgo, Hout. split; [done|].
        split; [intros; congruence|]. split; [intros; congruence|]. done.
    + eapply Hstep.
      * exact Hbody.
      * by rewrite orb_true_r.
      * unfold world_after. by rewrite decide_False.
      * unfold turn_recorded. rewrite Hen, Hgo, Hout. split; [done|].
        split; [intros; congruence|]. split; [intros; congruence|]. done.
Qed.

(** C4.  Whatever the executor does, a run of [executeGroup] on a stored
    group returns: no error of the executor escapes.  It adds exactly one
    row to the executions, the row it returns, finalized (a completion
    time, a status other than [running]), with one result per member, and
    its effects are the calls and suspensions of the members not recorded
    [skipped].  Turn by turn, in the world that the earlier turns left and
    under the failure flag that the earlier results give, the member is
    recorded as follows: [skipped] when its task is disabled; [skipped]
    when it is enabled, an earlier member failed and the mode is [stop];
    otherwise the executor is called in that world, and the member is
    recorded [failed] with the message of the error when the call rejects,
    [success] when it resolves.  So a rejection is recorded for its member
    and the members after it are still processed.  The results that the
    loop holds after [k] turns are the first [k] results of the returned
    row: a later turn changes no earlier result.  A rejection of the
    executor carries an error, a value with a message, as the executor is
    described. *)
Theorem executor_errors_are_recorded groupId s group :
  taskGroup_findUnique_include groupId (prisma s) = Some group →
  let sorted := sort_by_sortOrder (TaskGroupWithMembers.taskMemberships group) in
  let len := length sorted in
  ∃ ex s' results,
    executeGroup groupId s = (Ok ex, s')
    ∧ TaskGroupExecution.taskResults ex = Some results
    ∧ length results = len
    ∧ taskGroupExecutions (prisma s') = taskGroupExecutions (prisma s) ++ [ex]
    ∧ TaskGroupExecution.status ex ≠ "running"
    ∧ TaskGroupExecution.completedAt ex ≠ None
    ∧ trace s' = trace s ++ run_effects group len 0 sorted results
    ∧ (∀ k m r,
         sorted !! k = Some m → results !! k = Some r →
         ∃ w, run_worlds group len 0 sorted results (world s) !! k = Some w
              ∧ turn_recorded group (existsb is_failed (take k results)) m w r)
    ∧ (∀ k, (k ≤ len)%nat →
         ∃ failed sk,
           for_loop group len 0 (take k sorted) ([], false) (loop_start groupId group s)
           = (Ok (take k results, failed), sk)).
Proof.
  intros Hfound sorted len.
  destruct (executeGroup_run groupId s group Hfound)
    as (completedAt & results & s' & Hrun & Hrec & _ & Htrace & Hex & _).
  destruct (found_inv _ _ _ Hfound) as (g & Hg & Hgroup).
  destruct (executeGroup_found groupId s g Hg)
    as (results' & failed' & sL & s'' & Hloop & Hrun' & _).
  cbn zeta in Hloop, Hrun'. rewrite <- Hgroup in Hloop, Hrun'. fold sorted len in Hloop.
  assert (results' = results) as ->.
  { rewrite Hrun in Hrun'. pose proof (f_equal fst Hrun') as Heq. cbn [fst] in Heq.
    apply (f_equal (λ r, match r with Ok ex => TaskGroupExecution.taskResults ex
                                    | Throw _ => None end)) in Heq.
    cbn [finalized TaskGroupExecution.taskResults] in Heq. congruence. }
  assert (length results = len) as Hlen by (symmetry; by eapply Forall2_length).
  eexists _, s', results. split; [exact Hrun|].
  split; [done|]. split; [done|]. split; [done|].
  split.
  { cbn [finalized TaskGroupExecution.status]. unfold final_status.
    repeat case_match; discriminate. }
  split; [done|]. split; [done|]. split.
  - destruct (for_loop_turns group len sorted 0 [] false (loop_start groupId group s))
      as (new & sL' & Hloop' & _ & Hturns).
    rewrite Hloop in Hloop'. injection Hloop' as -> _ _.
    exact Hturns.
  - intros k Hk.
    pose proof (for_loop_app group len (take k sorted) (drop k sorted) 0 ([], false)
                  (loop_start groupId group s)) as Happ.
    rewrite take_drop, Hloop in Happ. unfold bind in Happ.
    destruct (for_loop_turns group len (take k sorted) 0 [] false
                (loop_start groupId group s)) as (new1 & s1 & Hloop1 & Hlen1 & _).
    rewrite Hloop1 in Happ. cbn [app] in Happ, Hloop1.
    destruct (for_loop_turns group len (drop k sorted) (0 + length (take k sorted)) new1
                (false || existsb is_failed new1) s1) as (new2 & s2 & Hloop2 & _).
    rewrite Hloop2 in Happ. injection Happ as -> _ _.
    eexists _, s1. rewrite Hloop1. do 2 f_equal.
    rewrite take_app_length'; [done|].
    rewrite Hlen1, length_take. fold len. lia.
Qed.

(** C6 (amended).  The effects of a run of [executeGroup] are those of
    [run_effects]: a member recorded [skipped] (disabled, or passed over
    after a failure in stop mode) causes no call and no suspension; any other
    member causes one call of the executor, followed by a suspension of
    [delayBetweenTasks * 1000] milliseconds exactly when the member is not
    the last in run order and [delayBetweenTasks] is positive.  So the turn
    of the last member never suspends; without a positive delay the run never
    suspends; with one, it suspends once for each member that is not the last
    and is not recorded [skipped], which is [n - 1] times when all [n]
    members are attempted. *)
Theorem inter_task_delays groupId s group :
  taskGroup_findUnique_include groupId (prisma s) = Some group →
  let sorted := sort_by_sortOrder (TaskGroupWithMembers.taskMemberships group) in
  let d := TaskGroup.delayBetweenTasks (TaskGroupWithMembers.base group) in
  ∃ ex s' results evs,
    executeGroup groupId s = (Ok ex, s')
    ∧ TaskGroupExecution.taskResults ex = Some results
    ∧ trace s' = trace s ++ evs
    ∧ evs = run_effects group (length sorted) 0 sorted results
    ∧ (∀ i, (length sorted ≤ i + 1)%nat → delay_due group (length sorted) i = false)
    ∧ (d ≤ 0 → delays evs = [])
    ∧ (0 < d →
       delays evs
       = replicate
           (length (filter (λ r, TaskResult.st r ≠ TaskResult.skipped)
                           (take (length results - 1) results)))
           (d * 1000))
    ∧ (0 < d →
       Forall (λ r, TaskResult.st r ≠ TaskResult.skipped) results →
       delays evs = replicate (length sorted - 1) (d * 1000)).
Proof.
  intros Hfound sorted d.
  destruct (executeGroup_run groupId s group Hfound)
    as (completedAt & results & s' & Hrun & Hrec & _ & Htr & _).
  fold sorted in Hrec, Htr.
  eexists _, s', results, _. split; [exact Hrun|].
  split; [done|]. split; [exact Htr|]. split; [done|].
  apply Forall2_length in Hrec as Hlen.
  split. { intros i Hi. by apply delay_due_last. }
  split. { intros Hd. by apply delays_run_effects_zero. }
  assert (0 < d →
          delays (run_effects group (length sorted) 0 sorted results)
          = replicate
              (length (filter (λ r, TaskResult.st r ≠ TaskResult.skipped)
                              (take (length results - 1) results)))
              (d * 1000)) as Hpos.
  { intros Hd. by apply delays_run_effects_pos. }
  split; [done|].
  intros Hd Hall. rewrite Hpos by done. f_equal.
  assert (∀ l : list TaskResult.t,
            Forall (λ r, TaskResult.st r ≠ TaskResult.skipped) l →
            filter (λ r, TaskResult.st r ≠ TaskResult.skipped) l = l) as Hfilt.
  { induction 1 as [|r l Hr _ IH]; [done|].
    rewrite filter_cons. case_decide; [|done]. by rewrite IH. }
  rewrite Hfilt by by apply Forall_take.
  rewrite length_take. lia.
Qed.

(** ** The registry of timers *)

Lemma JsMap_get_set {V} k k' (v : V) m :
  JsMap.get k' (JsMap.set k v m) = if String.eqb k k' then Some v else JsMap.get k' m.
Proof.
  induction m as [|[k0 v0] m IH]; simpl.
  - by destruct (String.eqb k k').
  - destruct (String.eqb_spec k0 k) as [->|Hne]; simpl.
    + by destruct (String.eqb k k').
    + rewrite IH. destruct (String.eqb_spec k0 k') as [->|]; [|done].
      by rewrite (proj2 (String.eqb_neq k k')) by done.
Qed.

Lemma JsMap_get_delete {V} k k' (m : JsMap.t V) :
  JsMap.get k' (JsMap.delete k m) = if String.eqb k k' then None else JsMap.get k' m.
Proof.
  induction m as [|[k0 v0] m IH]; simpl.
  - by destruct (String.eqb k k').
  - destruct (String.eqb_spec k0 k) as [->|Hne]; simpl.
    + rewrite IH. by destruct (String.eqb k k').
    + rewrite IH. destruct (String.eqb_spec k0 k') as [->|]; [|done].
      by rewrite (proj2 (String.eqb_neq k k')) by done.
Qed.

Lemma JsMap_get_elem_of {V} k (v : V) m : JsMap.get k m = Some v → (k, v) ∈ m.
Proof.
  induction m as [|[k0 v0] m IH]; simpl; [done|].
  destruct (String.eqb_spec k0 k) as [->|Hne].
  - intros [= ->]. apply elem_of_cons. by left.
  - intros Hm. apply elem_of_cons. right. by apply IH.
Qed.

(** Handle [h] is a live timer of group [groupId]: a task armed in node-cron
    for that group and not stopped. *)
Definition live (s : Sys World) (h : nat) (groupId : string) : Prop :=
  ∃ c, cronTasks s !! h = Some c
       ∧ ScheduledTask.running c = true
       ∧ ScheduledTask.target c = groupId.

(** The invariant of the registry: a live timer is the one that
    [scheduledGroups] holds for its group, and a handle held for a group is
    a task armed for that group. *)
Definition registry_inv (s : Sys World) : Prop :=
  (∀ h groupId, live s h groupId → JsMap.get groupId (scheduledGroups s) = Some h)
  ∧ (∀ groupId h, JsMap.get groupId (scheduledGroups s) = Some h →
       ∃ c, cronTasks s !! h = Some c ∧ ScheduledTask.target c = groupId).

Lemma registry_inv_one_live s groupId h1 h2 :
  registry_inv s → live s h1 groupId → live s h2 groupId → h1 = h2.
Proof. intros [Hinv _] H1%Hinv H2%Hinv. congruence. Qed.

Lemma live_ext s s' h groupId :
  cronTasks s' = cronTasks s → live s' h groupId ↔ live s h groupId.
Proof. intros Hc. unfold live. by rewrite Hc. Qed.

Lemma registry_inv_ext s s' :
  cronTasks s' = cronTasks s → scheduledGroups s' = scheduledGroups s →
  registry_inv s → registry_inv s'.
Proof.
  intros Hc Hr [Hinv Hwf]. split.
  - intros h groupId Hlive. rewrite Hr. apply Hinv. by apply (live_ext s s').
  - intros groupId h. rewrite Hr, Hc. apply Hwf.
Qed.

(** The state that [unschedule] leaves. *)
Definition unscheduled (groupId : string) (s : Sys World) : Sys World :=
  match JsMap.get groupId (scheduledGroups s) with
  | Some h =>
      with_scheduledGroups (JsMap.delete groupId (scheduledGroups s))
        (with_cronTasks (alter ScheduledTask.stop h (cronTasks s)) s)
  | None => s
  end.

Lemma unschedule_eq groupId s : unschedule groupId s = (Ok tt, unscheduled groupId s).
Proof.
  unfold unschedule, unscheduled, bind, scheduledGroups_has, JsMap.has,
    scheduledGroups_get, cronTask_stop, scheduledGroups_delete, ret.
  destruct (JsMap.get groupId (scheduledGroups s)) eqn:Hget; simpl; by rewrite ?Hget.
Qed.

Lemma live_stop s h0 h groupId :
  live (with_cronTasks (alter ScheduledTask.stop h0 (cronTasks s)) s) h groupId
  ↔ live s h groupId ∧ h ≠ h0.
Proof.
  unfold live. simpl. rewrite list_lookup_alter. split.
  - intros (c & Hc & Hrun & Htgt). case_decide as Heq.
    + subst. destruct (cronTasks s !! h) as [c0|]; [|done].
      injection Hc as <-. done.
    + split; [by exists c|congruence].
  - intros [(c & Hc & Hrun & Htgt) Hne]. exists c.
    case_decide; [congruence|done].
Qed.

(** After [unschedule] the timers of the other groups are as before and the
    group has none. *)
Lemma unscheduled_live groupId s h gid :
  registry_inv s →
  live (unscheduled groupId s) h gid ↔ live s h gid ∧ gid ≠ groupId.
Proof.
  intros [Hinv Hwf]. unfold unscheduled.
  destruct (JsMap.get groupId (scheduledGroups s)) as [h0|] eqn:Hget.
  - rewrite (live_ext (with_cronTasks (alter ScheduledTask.stop h0 (cronTasks s)) s))
      by done.
    rewrite live_stop. split.
    + intros [Hl Hne]. split; [done|]. intros ->. apply Hinv in Hl. congruence.
    + intros [Hl Hne]. split; [done|]. intros ->.
      destruct (Hwf _ _ Hget) as (c0 & Hc0 & Ht0).
      destruct Hl as (c & Hc & _ & Htgt). congruence.
  - split.
    + intros Hl. split; [done|]. intros ->. apply Hinv in Hl. congruence.
    + by intros [Hl _].
Qed.

Lemma unscheduled_get groupId s gid :
  JsMap.get gid (scheduledGroups (unscheduled groupId s))
  = if String.eqb groupId gid then None else JsMap.get gid (scheduledGroups s).
Proof.
  unfold unscheduled.
  destruct (JsMap.get groupId (scheduledGroups s)) as [h0|] eqn:Hget; simpl.
  - apply JsMap_get_delete.
  - destruct (String.eqb_spec groupId gid) as [<-|]; done.
Qed.

Lemma unscheduled_cronTasks_target groupId s h c :
  cronTasks s !! h = Some c →
  ∃ c', cronTasks (unscheduled groupId s) !! h = Some c'
        ∧ ScheduledTask.target c' = ScheduledTask.target c.
Proof.
  intros Hc. unfold unscheduled.
  destruct (JsMap.get groupId (scheduledGroups s)) as [h0|]; simpl; [|by exists c].
  rewrite list_lookup_alter. case_decide; [|by exists c].
  subst. rewrite Hc. by exists (ScheduledTask.stop c).
Qed.

Lemma unscheduled_length groupId s :
  length (cronTasks (unscheduled groupId s)) = length (cronTasks s).
Proof.
  unfold unscheduled.
  destruct (JsMap.get groupId (scheduledGroups s)); simpl; [|done].
  apply length_alter.
Qed.

Lemma unscheduled_inv groupId s :
  registry_inv s → registry_inv (unscheduled groupId s).
Proof.
  intros Hinv. split.
  - intros h gid [Hl Hne]%unscheduled_live; [|done].
    rewrite unscheduled_get, (proj2 (String.eqb_neq groupId gid)) by done.
    by apply Hinv.
  - intros gid h. rewrite unscheduled_get.
    destruct (String.eqb_spec groupId gid); [done|]. intros Hget.
    destruct (proj2 Hinv _ _ Hget) as (c & Hc & Ht).
    destruct (unscheduled_cronTasks_target groupId s h c Hc) as (c' & Hc' & Ht').
    exists c'. split; [done|congruence].
Qed.

Lemma unscheduled_none groupId s h :
  registry_inv s → ¬ live (unscheduled groupId s) h groupId.
Proof. intros Hinv [_ Hne]%unscheduled_live; done. Qed.

(** The state that [scheduleGroup] leaves for a valid expression. *)
Definition scheduled (group : TaskGroup.t) (s : Sys World) : Sys World :=
  let s1 := unscheduled (TaskGroup.id group) s in
  with_logs (logs s1 ++ [(LogInfo, "Scheduled task group: " +:+ TaskGroup.name group
                                   +:+ " (" +:+ TaskGroup.cronExpression group +:+ ")")])
    (with_scheduledGroups
       (JsMap.set (TaskGroup.id group) (length (cronTasks s1)) (scheduledGroups s1))
       (with_cronTasks
          (cronTasks s1 ++ [ScheduledTask.mk (TaskGroup.cronExpression group) "UTC"
                              (TaskGroup.id group) true])
          s1)).

Lemma scheduleGroup_valid group s :
  cron_validate (TaskGroup.cronExpression group) = true →
  scheduleGroup group s = (Ok tt, scheduled group s).
Proof.
  intros Hv. unfold scheduleGroup. rewrite Hv. simpl.
  unfold bind at 1. by rewrite unschedule_eq.
Qed.

Lemma scheduleGroup_invalid group s :
  cron_validate (TaskGroup.cronExpression group) = false →
  scheduleGroup group s
  = (Ok tt,
     with_logs (logs s ++ [(LogError, "Invalid cron expression for task group "
                                      +:+ TaskGroup.name group +:+ ": "
                                      +:+ TaskGroup.cronExpression group)]) s).
Proof. intros Hv. unfold scheduleGroup. by rewrite Hv. Qed.

Lemma scheduled_live group s h gid :
  registry_inv s →
  live (scheduled group s) h gid
  ↔ (live s h gid ∧ gid ≠ TaskGroup.id group)
    ∨ (h = length (cronTasks s) ∧ gid = TaskGroup.id group).
Proof.
  intros Hinv. unfold scheduled, live. simpl.
  rewrite <- (unscheduled_live (TaskGroup.id group) s h gid) by done.
  rewrite <- (unscheduled_length (TaskGroup.id group) s).
  unfold live. split.
  - intros (c & Hc & Hrun & Htgt).
    apply lookup_app_Some in Hc as [Hc|[Hlen Hc]].
    + left. by exists c.
    + right. apply list_lookup_singleton_Some in Hc as [Hh <-].
      simpl in Htgt. split; [lia|done].
  - intros [(c & Hc & Hrun & Htgt)|[-> ->]].
    + exists c. split; [|done]. by apply lookup_app_l_Some.
    + eexists. split; [by apply list_lookup_middle|done].
Qed.

Lemma scheduled_inv group s : registry_inv s → registry_inv (scheduled group s).
Proof.
  intros Hinv. pose proof (unscheduled_inv (TaskGroup.id group) s Hinv) as [Hinv1 Hwf1].
  split.
  - intros h gid Hl. apply scheduled_live in Hl; [|done].
    unfold scheduled. simpl. rewrite JsMap_get_set.
    destruct Hl as [[Hl Hne]|[-> ->]].
    + rewrite (proj2 (String.eqb_neq (TaskGroup.id group) gid)) by done.
      apply Hinv1. by apply unscheduled_live.
    + by rewrite String.eqb_refl, unscheduled_length.
  - intros gid h. unfold scheduled. simpl. rewrite JsMap_get_set.
    destruct (String.eqb_spec (TaskGroup.id group) gid) as [<-|Hne].
    + intros [= <-]. eexists. split; [by apply list_lookup_middle|done].
    + intros Hget. destruct (Hwf1 _ _ Hget) as (c & Hc & Ht).
      exists c. split; [|done]. by apply lookup_app_l_Some.
Qed.

Lemma scheduleGroup_inv group s :
  registry_inv s → registry_inv (scheduleGroup group s).2.
Proof.
  intros Hinv. destruct (cron_validate (TaskGroup.cronExpression group)) eqn:Hv.
  - rewrite scheduleGroup_valid by done. by apply scheduled_inv.
  - rewrite scheduleGroup_invalid by done. by apply (registry_inv_ext s).
Qed.

(** [updateGroup] either throws with the registry and the timers as they
    were, or stores the update and then reschedules or unschedules. *)
Lemma updateGroup_cases groupId data s :
  (∃ e s', updateGroup groupId data s = (Throw e, s')
           ∧ cronTasks s' = cronTasks s
           ∧ scheduledGroups s' = scheduledGroups s)
  ∨ (∃ row s1,
       taskGroups (prisma s) !! groupId = Some row
       ∧ cronTasks s1 = cronTasks s
       ∧ scheduledGroups s1 = scheduledGroups s
       ∧ updateGroup groupId data s
         = (Ok (apply_update data row),
            if TaskGroup.enabled (apply_update data row)
            then (scheduleGroup (apply_update data row) s1).2
            else unscheduled groupId s1)).
Proof.
  unfold updateGroup.
  destruct (truthy_string (UpdateData.cronExpression data)
            && negb (cron_validate (default "" (UpdateData.cronExpression data)))).
  { left. by eexists _, s. }
  unfold bind, ret, db_write, taskGroup_update. cbn beta.
  destruct (taskGroups (prisma s) !! groupId) as [row|] eqn:Hrow.
  - right.
    exists row, (with_prisma (set_taskGroups (<[groupId:=apply_update data row]>
                                               (taskGroups (prisma s))) (prisma s)) s).
    split; [done|]. split; [done|]. split; [done|].
    destruct (TaskGroup.enabled (apply_update data row)).
    + destruct (cron_validate (TaskGroup.cronExpression (apply_update data row))) eqn:Hv.
      * by rewrite scheduleGroup_valid.
      * by rewrite scheduleGroup_invalid.
    + by rewrite unschedule_eq.
  - left. eexists _, _. split; [done|]. done.
Qed.

(** The state in which [updateGroup] turns to the registry. *)
Definition updated (groupId : string) (data : UpdateData.t) (row : TaskGroup.t)
    (s : Sys World) : Sys World :=
  with_prisma
    (set_taskGroups (<[groupId := apply_update data row]> (taskGroups (prisma s))) (prisma s))
    s.

(** Whether the first statement of [updateGroup] throws. *)
Definition update_rejected (data : UpdateData.t) : bool :=
  truthy_string (UpdateData.cronExpression data)
  && negb (cron_validate (default "" (UpdateData.cronExpression data))).

Lemma updateGroup_stored groupId data row s :
  taskGroups (prisma s) !! groupId = Some row →
  update_rejected data = false →
  updateGroup groupId data s
  = (Ok (apply_update data row),
     if TaskGroup.enabled (apply_update data row)
     then (scheduleGroup (apply_update data row) (updated groupId data row s)).2
     else unscheduled groupId (updated groupId data row s)).
Proof.
  intros Hrow Hgate. unfold updateGroup, update_rejected in *. rewrite Hgate.
  cbn iota. unfold bind, ret, db_write, taskGroup_update. cbn beta. rewrite Hrow.
  fold (updated groupId data row s).
  destruct (TaskGroup.enabled (apply_update data row)).
  - destruct (cron_validate (TaskGroup.cronExpression (apply_update data row))) eqn:Hv.
    + by rewrite scheduleGroup_valid.
    + by rewrite scheduleGroup_invalid.
  - by rewrite unschedule_eq.
Qed.

Lemma updateGroup_inv groupId data s :
  registry_inv s → registry_inv (updateGroup groupId data s).2.
Proof.
  intros Hinv.
  destruct (updateGroup_cases groupId data s)
    as [(e & s' & -> & Hc & Hr)|(row & s1 & _ & Hc & Hr & ->)]; cbn [snd].
  - by apply (registry_inv_ext s).
  - assert (registry_inv s1) by (by apply (registry_inv_ext s)).
    destruct (TaskGroup.enabled (apply_update data row));
      [by apply scheduleGroup_inv|by apply unscheduled_inv].
Qed.

Lemma updateGroup_disabled groupId data s group s' :
  registry_inv s →
  updateGroup groupId data s = (Ok group, s') →
  TaskGroup.enabled group = false →
  ∀ h, ¬ live s' h groupId.
Proof.
  intros Hinv Hrun Hdis h.
  destruct (updateGroup_cases groupId data s)
    as [(e & s0 & Heq & _)|(row & s1 & _ & Hc & Hr & Heq)];
    rewrite Heq in Hrun; [done|].
  pose proof (f_equal fst Hrun) as Hg. pose proof (f_equal snd Hrun) as Hs.
  cbn [fst snd] in Hg, Hs. injection Hg as <-. rewrite Hdis in Hs. subst s'.
  apply unscheduled_none. by apply (registry_inv_ext s).
Qed.

(** [deleteGroup] unschedules first; what it does to the store and the log
    afterwards leaves the registry and the timers alone. *)
Lemma deleteGroup_registry groupId s :
  cronTasks (deleteGroup groupId s).2 = cronTasks (unscheduled groupId s)
  ∧ scheduledGroups (deleteGroup groupId s).2 = scheduledGroups (unscheduled groupId s).
Proof.
  unfold deleteGroup, bind. rewrite unschedule_eq.
  unfold db_write, taskGroup_delete, logger_info.
  by destruct (taskGroups (prisma (unscheduled groupId s)) !! groupId).
Qed.

Lemma deleteGroup_inv groupId s :
  registry_inv s →
  registry_inv (deleteGroup groupId s).2
  ∧ ∀ h, ¬ live (deleteGroup groupId s).2 h groupId.
Proof.
  intros Hinv. destruct (deleteGroup_registry groupId s) as [Hc Hr]. split.
  - apply (registry_inv_ext (unscheduled groupId s)); [done|done|].
    by apply unscheduled_inv.
  - intros h Hl. apply (live_ext (unscheduled groupId s)) in Hl; [|done].
    by apply unscheduled_none in Hl.
Qed.

Lemma cleanup_loop_spec entries : ∀ s,
  ∃ s', cleanup_loop entries s = (Ok tt, s')
        ∧ scheduledGroups s' = scheduledGroups s
        ∧ ∀ h groupId, live s' h groupId ↔ live s h groupId ∧ h ∉ entries.*2.
Proof.
  induction entries as [|[gid h0] entries IH]; intros s.
  - exists s. split; [done|]. split; [done|].
    intros h groupId. split; [|by intros []].
    intros Hl. split; [done|]. apply not_elem_of_nil.
  - cbn [cleanup_loop]. unfold bind at 1. unfold cronTask_stop.
    unfold bind at 1. unfold logger_info at 1.
    destruct (IH (with_logs (logs (with_cronTasks (alter ScheduledTask.stop h0 (cronTasks s)) s)
                              ++ [(LogInfo, "Stopped task group: " +:+ gid)])
                    (with_cronTasks (alter ScheduledTask.stop h0 (cronTasks s)) s)))
      as (s' & Hrun & Hr & Hlive).
    exists s'. split; [exact Hrun|]. split; [done|].
    intros h groupId. rewrite Hlive.
    rewrite (live_ext (with_cronTasks (alter ScheduledTask.stop h0 (cronTasks s)) s))
      by done.
    rewrite live_stop, fmap_cons, not_elem_of_cons. simpl.
    split; [by intros [[? ?] ?]|by intros [? [? ?]]].
Qed.

Lemma cleanup_inv s :
  registry_inv s →
  registry_inv (cleanup s).2
  ∧ scheduledGroups (cleanup s).2 = []
  ∧ ∀ h groupId, ¬ live (cleanup s).2 h groupId.
Proof.
  intros [Hinv Hwf].
  unfold cleanup, bind. unfold logger_info at 1 3 5. cbn beta.
  destruct (cleanup_loop_spec
              (scheduledGroups (with_logs (logs s ++ [(LogInfo, "Stopping all task group schedules...")]) s))
              (with_logs (logs s ++ [(LogInfo, "Stopping all task group schedules...")]) s))
    as (s' & Hrun & Hr & Hlive).
  cbn [scheduledGroups with_logs] in *. rewrite Hrun.
  unfold scheduledGroups_clear, logger_info, JsMap.clear. simpl.
  assert (∀ h groupId,
            ¬ live (with_logs (logs (with_scheduledGroups [] s')
                               ++ [(LogInfo, "All task group schedules stopped")])
                      (with_scheduledGroups [] s')) h groupId) as Hnone.
  { intros h groupId Hl. apply (live_ext s') in Hl; [|done].
    apply Hlive in Hl as [Hl Hnin].
    apply (live_ext s) in Hl; [|done].
    apply Hinv, JsMap_get_elem_of in Hl. apply Hnin.
    apply list_elem_of_fmap. by exists (groupId, h). }
  split; [|done]. split.
  - intros h groupId Hl. by apply Hnone in Hl.
  - intros groupId h. done.
Qed.

(** *** [createGroup] *)

Lemma unscheduled_prisma groupId s : prisma (unscheduled groupId s) = prisma s.
Proof.
  unfold unscheduled. by destruct (JsMap.get groupId (scheduledGroups s)).
Qed.

(** Adding the members writes memberships and log lines only. *)
Lemma createGroup_addTasks_frame groupId taskIds : ∀ i s,
  cronTasks (createGroup_addTasks groupId i taskIds s).2 = cronTasks s
  ∧ scheduledGroups (createGroup_addTasks groupId i taskIds s).2 = scheduledGroups s
  ∧ taskGroups (prisma (createGroup_addTasks groupId i taskIds s).2)
    = taskGroups (prisma s).
Proof.
  induction taskIds as [|taskId taskIds IH]; intros i s; [done|].
  cbn [createGroup_addTasks]. unfold bind.
  destruct (addTask groupId taskId (Some (Z.of_nat i)) s) as [r s1] eqn:Hadd.
  assert (cronTasks s1 = cronTasks s ∧ scheduledGroups s1 = scheduledGroups s
          ∧ taskGroups (prisma s1) = taskGroups (prisma s)) as (Hc & Hr & Hg).
  { revert Hadd. unfold addTask, bind, ret, db_write, taskGroupMember_create, logger_info.
    cbn beta.
    destruct (existsb _ _); [by intros [= <- <-]|].
    destruct (tasks (prisma s) !! taskId); by intros [= <- <-]. }
  destruct r as [[]|e]; [|done].
  destruct (IH (S i) s1) as (Hc' & Hr' & Hg'). by rewrite Hc', Hr', Hg'.
Qed.

(** The group that [createGroup] stores for its argument. *)
Definition created_group (data : CreateData.t) (db : Store) : TaskGroup.t :=
  TaskGroup.mk (gen_id (idCounter db))
    (CreateData.name data) (CreateData.description data)
    (CreateData.cronExpression data)
    (js_or (λ s, String.eqb s "") (failureMode_string <$> CreateData.failureMode data) "stop")
    (js_or (λ n, n =? 0) (CreateData.delayBetweenTasks data) 0)
    (not_false (CreateData.enabled data))
    None None None.

Lemma createGroup_ok data s group s' :
  createGroup data s = (Ok group, s') →
  group = created_group data (prisma s)
  ∧ ∃ s2,
      cronTasks s2 = cronTasks s
      ∧ scheduledGroups s2 = scheduledGroups s
      ∧ taskGroups (prisma s2) = <[TaskGroup.id group := group]> (taskGroups (prisma s))
      ∧ s' = with_logs
               (logs (if TaskGroup.enabled group then scheduled group s2 else s2)
                ++ [(LogInfo, "Created task group: " +:+ TaskGroup.name group)])
               (if TaskGroup.enabled group then scheduled group s2 else s2).
Proof.
  unfold createGroup.
  destruct (cron_validate (CreateData.cronExpression data)) eqn:Hv; [|done].
  cbn [negb]. unfold bind at 1. unfold db_write at 1, taskGroup_create.
  cbn [idCounter set_idCounter taskGroups].
  fold (created_group data (prisma s)).
  destruct (taskGroups (prisma s) !! gen_id (idCounter (prisma s))); [done|].
  unfold bind at 1.
  set (s1 := with_prisma _ s).
  set (addAll := match CreateData.taskIds data with
                 | Some taskIds =>
                     if (0 <? length taskIds)%nat
                     then createGroup_addTasks
                            (TaskGroup.id (created_group data (prisma s))) 0 taskIds
                     else ret tt
                 | None => ret tt
                 end).
  assert (cronTasks (addAll s1).2 = cronTasks s
          ∧ scheduledGroups (addAll s1).2 = scheduledGroups s
          ∧ taskGroups (prisma (addAll s1).2)
            = <[TaskGroup.id (created_group data (prisma s)) := created_group data (prisma s)]>
                (taskGroups (prisma s))) as (Hc & Hr & Hg).
  { subst addAll. destruct (CreateData.taskIds data) as [taskIds|]; [|done].
    destruct (0 <? length taskIds)%nat; [|done].
    destruct (createGroup_addTasks_frame (TaskGroup.id (created_group data (prisma s)))
                taskIds 0%nat s1) as (-> & -> & ->). done. }
  destruct (addAll s1) as [[[]|e] s2]; [|done]. cbn [snd] in *.
  unfold bind at 1.
  assert ((if TaskGroup.enabled (created_group data (prisma s))
           then scheduleGroup (created_group data (prisma s)) else ret tt) s2
          = (Ok tt, if TaskGroup.enabled (created_group data (prisma s))
                    then scheduled (created_group data (prisma s)) s2 else s2)) as ->.
  { destruct (TaskGroup.enabled (created_group data (prisma s))); [|done].
    by apply scheduleGroup_valid. }
  unfold bind, logger_info, ret. intros [= <- <-].
  split; [done|]. by exists s2.
Qed.

Lemma createGroup_inv data s : registry_inv s → registry_inv (createGroup data s).2.
Proof.
  intros Hinv. unfold createGroup.
  destruct (cron_validate (CreateData.cronExpression data)) eqn:Hv; [|done].
  cbn [negb]. unfold bind at 1. unfold db_write at 1, taskGroup_create.
  cbn [idCounter set_idCounter taskGroups].
  fold (created_group data (prisma s)).
  destruct (taskGroups (prisma s) !! gen_id (idCounter (prisma s)));
    [by apply (registry_inv_ext s)|].
  unfold bind at 1.
  set (s1 := with_prisma _ s).
  set (addAll := match CreateData.taskIds data with
                 | Some taskIds =>
                     if (0 <? length taskIds)%nat
                     then createGroup_addTasks
                            (TaskGroup.id (created_group data (prisma s))) 0 taskIds
                     else ret tt
                 | None => ret tt
                 end).
  assert (registry_inv (addAll s1).2) as Hinv2.
  { subst addAll. destruct (CreateData.taskIds data) as [taskIds|]; [|done].
    destruct (0 <? length taskIds)%nat; [|done].
    destruct (createGroup_addTasks_frame (TaskGroup.id (created_group data (prisma s)))
                taskIds 0%nat s1) as (Hc & Hr & _).
    by apply (registry_inv_ext s1). }
  destruct (addAll s1) as [[[]|e] s2]; [|done]. cbn [snd] in *.
  unfold bind at 1.
  pose proof (scheduleGroup_inv (created_group data (prisma s)) s2 Hinv2) as Hinv3.
  destruct (TaskGroup.enabled (created_group data (prisma s))).
  - destruct (scheduleGroup (created_group data (prisma s)) s2) as [[[]|e] s3];
      [|done]. by apply (registry_inv_ext s3).
  - by apply (registry_inv_ext s2).
Qed.

Lemma loadTaskGroups_loop_inv groups : ∀ s,
  registry_inv s →
  ∃ s', loadTaskGroups_loop groups s = (Ok tt, s') ∧ registry_inv s'.
Proof.
  induction groups as [|group groups IH]; intros s Hinv; [by exists s|].
  cbn [loadTaskGroups_loop]. unfold bind, try_catch.
  pose proof (scheduleGroup_inv group s Hinv) as Hinv1.
  destruct (cron_validate (TaskGroup.cronExpression group)) eqn:Hv.
  - rewrite scheduleGroup_valid in * by done. by apply IH.
  - rewrite scheduleGroup_invalid in * by done. by apply IH.
Qed.

Lemma loadTaskGroups_inv s : registry_inv s → registry_inv (loadTaskGroups s).2.
Proof.
  intros Hinv. unfold loadTaskGroups, try_catch, bind, db_read, logger_info. cbn beta.
  match goal with
  | |- context [loadTaskGroups_loop ?gs ?s1] =>
      destruct (loadTaskGroups_loop_inv gs s1) as (s' & -> & Hinv');
        [by apply (registry_inv_ext s)|]
  end.
  by apply (registry_inv_ext s').
Qed.

(** ** The claims about the registry *)

(** C7 (amended).  For a group whose cron expression does not validate,
    [scheduleGroup] returns normally: it writes one error line to the log
    and nothing else, so no timer is armed and [scheduledGroups] is as it
    was.  [createGroup] with such an expression throws to its caller before
    it stores anything, and so does [updateGroup] when given one. *)
Theorem invalid_cron_registers_nothing group s :
  cron_validate (TaskGroup.cronExpression group) = false →
  scheduleGroup group s
  = (Ok tt,
     with_logs (logs s ++ [(LogError, "Invalid cron expression for task group "
                                      +:+ TaskGroup.name group +:+ ": "
                                      +:+ TaskGroup.cronExpression group)]) s)
  ∧ cronTasks (scheduleGroup group s).2 = cronTasks s
  ∧ scheduledGroups (scheduleGroup group s).2 = scheduledGroups s
  ∧ prisma (scheduleGroup group s).2 = prisma s
  ∧ (∀ data,
       CreateData.cronExpression data = TaskGroup.cronExpression group →
       createGroup data s
       = (Throw (Error ("Invalid cron expression: " +:+ TaskGroup.cronExpression group)), s))
  ∧ (∀ groupId data,
       UpdateData.cronExpression data = Some (TaskGroup.cronExpression group) →
       TaskGroup.cronExpression group ≠ "" →
       updateGroup groupId data s
       = (Throw (Error ("Invalid cron expression: " +:+ TaskGroup.cronExpression group)), s)).
Proof.
  intros Hv. rewrite scheduleGroup_invalid by done.
  split; [done|]. split; [done|]. split; [done|]. split; [done|]. split.
  - intros data Hd. unfold createGroup. by rewrite Hd, Hv.
  - intros groupId data Hd Hne. unfold updateGroup, truthy_string. rewrite Hd. simpl.
    by rewrite Hv, (proj2 (String.eqb_neq _ _) Hne).
Qed.

(** C8.  In a state in which every live timer is the one that
    [scheduledGroups] holds for its group, a group has at most one live
    timer, and [scheduleGroup], [updateGroup], [deleteGroup], [cleanup],
    [createGroup] and [loadTaskGroups] lead to such a state again.  After
    [scheduleGroup] with a valid expression the only live timer of the group
    is the new one, which [scheduledGroups] holds for it, and a timer held
    for the group before is stopped.  An [updateGroup] of a stored group
    that passes the expression check and leaves the group disabled returns
    the updated row, stops the timer held for the group and removes its
    entry from [scheduledGroups], so the group has no live timer; the
    entries of the other groups are as they were.  After [deleteGroup] the
    group has no entry and no live timer, and the timer held for it before
    is stopped; after [cleanup] no group has one. *)
Theorem one_live_timer_per_group s :
  registry_inv s →
  (∀ groupId h1 h2, live s h1 groupId → live s h2 groupId → h1 = h2)
  ∧ (∀ group, registry_inv (scheduleGroup group s).2)
  ∧ (∀ group,
       cron_validate (TaskGroup.cronExpression group) = true →
       (∀ h, live (scheduleGroup group s).2 h (TaskGroup.id group)
             ↔ h = length (cronTasks s))
       ∧ JsMap.get (TaskGroup.id group) (scheduledGroups (scheduleGroup group s).2)
         = Some (length (cronTasks s))
       ∧ (∀ h c, JsMap.get (TaskGroup.id group) (scheduledGroups s) = Some h →
                 cronTasks (scheduleGroup group s).2 !! h = Some c →
                 ScheduledTask.running c = false))
  ∧ (∀ groupId data, registry_inv (updateGroup groupId data s).2)
  ∧ (∀ groupId data group s',
       updateGroup groupId data s = (Ok group, s') →
       TaskGroup.enabled group = false →
       ∀ h, ¬ live s' h groupId)
  ∧ (∀ groupId data row,
       taskGroups (prisma s) !! groupId = Some row →
       update_rejected data = false →
       TaskGroup.enabled (apply_update data row) = false →
       ∃ s',
         updateGroup groupId data s = (Ok (apply_update data row), s')
         ∧ JsMap.get groupId (scheduledGroups s') = None
         ∧ (∀ h, ¬ live s' h groupId)
         ∧ (∀ h c, JsMap.get groupId (scheduledGroups s) = Some h →
                   cronTasks s' !! h = Some c → ScheduledTask.running c = false)
         ∧ (∀ other, other ≠ groupId →
              JsMap.get other (scheduledGroups s') = JsMap.get other (scheduledGroups s)))
  ∧ (∀ groupId,
       registry_inv (deleteGroup groupId s).2
       ∧ JsMap.get groupId (scheduledGroups (deleteGroup groupId s).2) = None
       ∧ (∀ h, ¬ live (deleteGroup groupId s).2 h groupId)
       ∧ (∀ h c, JsMap.get groupId (scheduledGroups s) = Some h →
                 cronTasks (deleteGroup groupId s).2 !! h = Some c →
                 ScheduledTask.running c = false))
  ∧ (registry_inv (cleanup s).2
     ∧ scheduledGroups (cleanup s).2 = []
     ∧ ∀ h groupId, ¬ live (cleanup s).2 h groupId)
  ∧ (∀ data, registry_inv (createGroup data s).2)
  ∧ registry_inv (loadTaskGroups s).2.
Proof.
  intros Hinv.
  assert (∀ groupId s0 h c,
            JsMap.get groupId (scheduledGroups s0) = Some h →
            cronTasks (unscheduled groupId s0) !! h = Some c →
            ScheduledTask.running c = false) as Hstopped.
  { intros groupId s0 h c Hget. unfold unscheduled. rewrite Hget. simpl.
    rewrite list_lookup_alter. case_decide; [|done].
    destruct (cronTasks s0 !! h); [|done]. by intros [= <-]. }
  split. { intros groupId h1 h2. by apply registry_inv_one_live. }
  split. { intros group. by apply scheduleGroup_inv. }
  split.
  { intros group Hv. rewrite scheduleGroup_valid by done. cbn [snd]. split.
    { intros h. rewrite scheduled_live by done. split.
      - by intros [[_ Hne]|[-> _]].
      - intros ->. by right. }
    split.
    { unfold scheduled. cbn [scheduledGroups with_logs with_scheduledGroups].
      by rewrite JsMap_get_set, String.eqb_refl, unscheduled_length. }
    intros h c Hget. unfold scheduled.
    cbn [cronTasks with_logs with_scheduledGroups with_cronTasks].
    intros Hc. apply (Hstopped (TaskGroup.id group) s h c Hget).
    rewrite lookup_app_l in Hc; [done|].
    rewrite unscheduled_length.
    destruct (proj2 Hinv _ _ Hget) as (c0 & Hc0 & _).
    by eapply lookup_lt_Some. }
  split. { intros groupId data. by apply updateGroup_inv. }
  split. { intros groupId data group s'. by apply updateGroup_disabled. }
  split.
  { intros groupId data row Hrow Hgate Hdis.
    rewrite (updateGroup_stored groupId data row s Hrow Hgate), Hdis.
    eexists. split; [reflexivity|].
    assert (registry_inv (updated groupId data row s)) as Hinv'
      by (by apply (registry_inv_ext s)).
    split. { by rewrite unscheduled_get, String.eqb_refl. }
    split. { intros h. by apply unscheduled_none. }
    split. { intros h c Hget. by apply Hstopped. }
    intros other Hne. by rewrite unscheduled_get, (proj2 (String.eqb_neq _ _)). }
  split.
  { intros groupId. destruct (deleteGroup_inv groupId s Hinv) as [H1 H2].
    destruct (deleteGroup_registry groupId s) as [Hc Hr].
    split; [done|]. split. { by rewrite Hr, unscheduled_get, String.eqb_refl. }
    split; [done|]. intros h c Hget. rewrite Hc. by apply Hstopped. }
  split. { by apply cleanup_inv. }
  split. { intros data. by apply createGroup_inv. }
  by apply loadTaskGroups_inv.
Qed.

(** C10.  A group returned by [createGroup] is the stored one.  Its failure
    mode is ["stop"] when none was given, its delay 0 when none was given,
    and it is enabled unless [enabled] was given as [false].  When it is
    enabled, a new running timer for it is armed and held in
    [scheduledGroups]; when it is not, the timers and [scheduledGroups] are
    as they were. *)
Theorem createGroup_defaults data s group s' :
  createGroup data s = (Ok group, s') →
  taskGroups (prisma s') !! TaskGroup.id group = Some group
  ∧ (CreateData.failureMode data = None → TaskGroup.failureMode group = "stop")
  ∧ (∀ f, CreateData.failureMode data = Some f →
          TaskGroup.failureMode group = failureMode_string f)
  ∧ (CreateData.delayBetweenTasks data = None → TaskGroup.delayBetweenTasks group = 0)
  ∧ (∀ n, CreateData.delayBetweenTasks data = Some n →
          TaskGroup.delayBetweenTasks group = n)
  ∧ (CreateData.enabled data = None → TaskGroup.enabled group = true)
  ∧ (TaskGroup.enabled group = false ↔ CreateData.enabled data = Some false)
  ∧ (TaskGroup.enabled group = true →
     ∃ old,
       cronTasks s'
       = old ++ [ScheduledTask.mk (TaskGroup.cronExpression group) "UTC"
                   (TaskGroup.id group) true]
       ∧ length old = length (cronTasks s)
       ∧ JsMap.get (TaskGroup.id group) (scheduledGroups s')
         = Some (length (cronTasks s)))
  ∧ (TaskGroup.enabled group = false →
     cronTasks s' = cronTasks s ∧ scheduledGroups s' = scheduledGroups s).
Proof.
  intros Hrun.
  destruct (createGroup_ok data s group s' Hrun) as (Hgroup & s2 & Hc & Hr & Hg & ->).
  split.
  { cbn [prisma with_logs].
    destruct (TaskGroup.enabled group).
    - unfold scheduled. cbn [prisma with_logs with_scheduledGroups with_cronTasks].
      by rewrite unscheduled_prisma, Hg, lookup_insert_eq.
    - by rewrite Hg, lookup_insert_eq. }
  split. { intros Hf. subst group. simpl. by rewrite Hf. }
  split. { intros f Hf. subst group. simpl. rewrite Hf. by destruct f. }
  split. { intros Hd. subst group. simpl. by rewrite Hd. }
  split.
  { intros n Hd. subst group. simpl. rewrite Hd. simpl.
    destruct (Z.eqb_spec n 0); congruence. }
  split. { intros He. subst group. simpl. by rewrite He. }
  split.
  { subst group. simpl. destruct (CreateData.enabled data) as [[|]|]; simpl;
      split; congruence. }
  split.
  - intros Hen. rewrite Hen. unfold scheduled.
    cbn [cronTasks scheduledGroups with_logs with_scheduledGroups with_cronTasks].
    eexists. split; [reflexivity|].
    rewrite JsMap_get_set, String.eqb_refl, unscheduled_length, Hc. done.
  - intros Hdis. by rewrite Hdis.
Qed.

(** ** Further properties of a group run *)

(** A run of [executeGroup] on a stored group, as the store sees it. *)
Lemma executeGroup_store groupId s g :
  taskGroups (prisma s) !! groupId = Some g →
  ∃ ex s' lastRun,
    executeGroup groupId s = (Ok ex, s')
    ∧ taskGroups (prisma s')
      = <[groupId := TaskGroup.mk (TaskGroup.id g) (TaskGroup.name g)
                       (TaskGroup.description g) (TaskGroup.cronExpression g)
                       (TaskGroup.failureMode g) (TaskGroup.delayBetweenTasks g)
                       (TaskGroup.enabled g) (Some lastRun)
                       (Some (TaskGroupExecution.status ex))
                       (TaskGroupExecution.errorMessage ex)]> (taskGroups (prisma s))
    ∧ taskGroupExecutions (prisma s') = taskGroupExecutions (prisma s) ++ [ex]
    ∧ tasks (prisma s') = tasks (prisma s)
    ∧ taskGroupMembers (prisma s') = taskGroupMembers (prisma s)
    ∧ idCounter (prisma s') = idCounter (prisma s)
    ∧ scheduledGroups s' = scheduledGroups s
    ∧ cronTasks s' = cronTasks s.
Proof.
  intros Hg.
  set (group := TaskGroupWithMembers.mk g (memberships_of groupId (prisma s))).
  set (sorted := sort_by_sortOrder (TaskGroupWithMembers.taskMemberships group)).
  destruct (for_loop_spec group (length sorted) sorted 0 [] false (loop_start groupId group s))
    as (results & sL & Hloop & _ & (Hdb & Hreg & Hcron) & _).
  simpl in Hloop.
  eexists _, _, _.
  unfold executeGroup, getGroupWithTasks, db_read, taskGroup_findUnique_include.
  unfold bind at 1. rewrite Hg. cbn [fmap option_fmap option_map].
  unfold bind at 1. unfold logger_info at 1.
  unfold bind at 1. unfold new_Date at 1. cbn [world with_logs].
  unfold bind at 1. unfold db_write at 1, taskGroupExecution_create.
  cbn [prisma with_logs].
  fold (running_row (prisma s) groupId (now (world s))
          (length (TaskGroupWithMembers.taskMemberships group))).
  change (with_prisma _ _) with (loop_start groupId group s).
  unfold bind at 1. fold group. fold sorted. rewrite Hloop. cbn [fst].
  unfold bind at 1. unfold new_Date at 1.
  unfold bind at 1. unfold db_write at 1, taskGroupExecution_update.
  rewrite Hdb. cbn [loop_start prisma with_prisma taskGroupExecutions set_taskGroupExecutions
                    TaskGroupExecution.id running_row].
  rewrite list_lookup_middle by done.
  unfold bind at 1. unfold new_Date at 1.
  unfold bind at 1. unfold db_write at 1, taskGroup_update.
  cbn [prisma with_prisma taskGroups set_taskGroupExecutions]. rewrite Hg.
  unfold bind at 1. unfold logger_info at 1. unfold bind, ret.
  split; [reflexivity|].
  cbn. rewrite Hreg, Hcron.
  split; [reflexivity|].
  split. { by rewrite insert_app_r_alt, Nat.sub_diag by done. }
  done.
Qed.

(** A list that is in ascending order is left as it is by the sort. *)
Lemma sort_by_sortOrder_sorted_id l :
  Sorted by_sortOrder l → sort_by_sortOrder l = l.
Proof.
  induction 1 as [|m l Hl IH Hhd]; [done|].
  simpl. rewrite IH. destruct Hhd as [|m' l' Hm]; [done|].
  simpl. unfold by_sortOrder in Hm.
  destruct (Z.leb_spec (TaskGroupMemberWithTask.sortOrder m
                        - TaskGroupMemberWithTask.sortOrder m') 0); [done|lia].
Qed.

Lemma finalized_inj id1 id2 g1 g2 a1 a2 c1 c2 n1 n2 r1 r2 :
  finalized id1 g1 a1 c1 n1 r1 = finalized id2 g2 a2 c2 n2 r2 → r1 = r2.
Proof. unfold finalized. by intros [= _ _ _ _ _ _ _ _ _ ->]. Qed.

Lemma failure_summary_cases n :
  (n = 0%nat → failure_summary n = None)
  ∧ ((0 < n)%nat → failure_summary n = Some (pretty n +:+ " task(s) failed")).
Proof.
  unfold failure_summary. destruct (Nat.ltb_spec 0 n); split; intros; try done; lia.
Qed.

(** The memberships that [getGroupWithTasks] returns are in ascending order
    already. *)
Lemma memberships_of_sorted groupId db :
  sort_by_sortOrder (memberships_of groupId db) = memberships_of groupId db.
Proof.
  apply sort_by_sortOrder_sorted_id. unfold memberships_of.
  apply sort_by_sortOrder_sorted.
Qed.

(** X1.  After a run of [executeGroup] the stored group carries the summary
    of the run: [lastStatus] is the status of the returned row and
    [lastError] its error message, which is unset when no member failed and
    reads "n task(s) failed" otherwise.  Its other columns, the other
    groups, the tasks, the memberships, the earlier execution rows, the
    registry and the timers are as they were. *)
Theorem executeGroup_writes_summary groupId s g :
  taskGroups (prisma s) !! groupId = Some g →
  ∃ ex s' lastRun,
    executeGroup groupId s = (Ok ex, s')
    ∧ taskGroups (prisma s') !! groupId
      = Some (TaskGroup.mk (TaskGroup.id g) (TaskGroup.name g)
                (TaskGroup.description g) (TaskGroup.cronExpression g)
                (TaskGroup.failureMode g) (TaskGroup.delayBetweenTasks g)
                (TaskGroup.enabled g) (Some lastRun)
                (Some (TaskGroupExecution.status ex))
                (TaskGroupExecution.errorMessage ex))
    ∧ (∀ other, other ≠ groupId →
         taskGroups (prisma s') !! other = taskGroups (prisma s) !! other)
    ∧ (TaskGroupExecution.tasksFailed ex = 0%nat →
       TaskGroupExecution.errorMessage ex = None)
    ∧ ((0 < TaskGroupExecution.tasksFailed ex)%nat →
       TaskGroupExecution.errorMessage ex
       = Some (pretty (TaskGroupExecution.tasksFailed ex) +:+ " task(s) failed"))
    ∧ taskGroupExecutions (prisma s') = taskGroupExecutions (prisma s) ++ [ex]
    ∧ tasks (prisma s') = tasks (prisma s)
    ∧ taskGroupMembers (prisma s') = taskGroupMembers (prisma s)
    ∧ scheduledGroups s' = scheduledGroups s
    ∧ cronTasks s' = cronTasks s.
Proof.
  intros Hg.
  destruct (executeGroup_store groupId s g Hg)
    as (ex & s' & lastRun & Hrun & Hgroups & Hrows & Htasks & Hmembers & _ & Hreg & Hcron).
  assert (taskGroup_findUnique_include groupId (prisma s)
          = Some (TaskGroupWithMembers.mk g (memberships_of groupId (prisma s)))) as Hfound.
  { unfold taskGroup_findUnique_include. by rewrite Hg. }
  destruct (executeGroup_run groupId s _ Hfound)
    as (completedAt & results & s'' & Hrun' & _).
  rewrite Hrun in Hrun'. injection Hrun' as Hex _.
  exists ex, s', lastRun. split; [done|].
  split. { by rewrite Hgroups, lookup_insert_eq. }
  split. { intros other Hne. by rewrite Hgroups, lookup_insert_ne. }
  destruct (failure_summary_cases (count_status TaskResult.failed results)) as [Hnone Hsome].
  rewrite Hex. cbn [finalized TaskGroupExecution.tasksFailed TaskGroupExecution.errorMessage].
  split; [done|]. split; [done|]. rewrite <- Hex. done.
Qed.

(** X2.  A run of [executeGroup] on a group without memberships calls
    nothing and suspends never; it finalizes as [success] with no results,
    all counts 0 and no error message. *)
Theorem executeGroup_empty_group groupId s group :
  taskGroup_findUnique_include groupId (prisma s) = Some group →
  TaskGroupWithMembers.taskMemberships group = [] →
  ∃ ex s',
    executeGroup groupId s = (Ok ex, s')
    ∧ TaskGroupExecution.status ex = "success"
    ∧ TaskGroupExecution.taskResults ex = Some []
    ∧ TaskGroupExecution.tasksTotal ex = 0%nat
    ∧ TaskGroupExecution.tasksCompleted ex = 0%nat
    ∧ TaskGroupExecution.tasksFailed ex = 0%nat
    ∧ TaskGroupExecution.tasksSkipped ex = 0%nat
    ∧ TaskGroupExecution.errorMessage ex = None
    ∧ trace s' = trace s.
Proof.
  intros Hfound Hnil.
  destruct (executeGroup_run groupId s group Hfound)
    as (completedAt & results & s' & Hrun & Hrec & _ & Htr & _).
  rewrite Hnil in *. simpl in Hrec, Htr.
  apply Forall2_nil_inv_l in Hrec. subst results.
  eexists _, s'. split; [exact Hrun|].
  rewrite Htr, app_nil_r. done.
Qed.

Lemma count_failed_at_most_one results :
  (∀ j rj, results !! j = Some rj → TaskResult.st rj = TaskResult.failed →
           Forall (λ r, TaskResult.st r = TaskResult.skipped) (drop (S j) results)) →
  (count_status TaskResult.failed results ≤ 1)%nat.
Proof.
  induction results as [|r results IH]; intros Hafter; [unfold count_status; simpl; lia|].
  rewrite count_status_cons. case_decide as Hr.
  - specialize (Hafter 0%nat r eq_refl Hr). simpl in Hafter.
    rewrite (count_status_none TaskResult.failed results); [lia|].
    eapply Forall_impl; [exact Hafter|]. simpl. congruence.
  - simpl. apply IH. intros j rj Hj Hf. exact (Hafter (S j) rj Hj Hf).
Qed.

(** X3.  In stop mode a run of [executeGroup] records at most one member as
    [failed], so its error message is either unset or "1 task(s) failed". *)
Theorem stop_mode_at_most_one_failure groupId s group :
  taskGroup_findUnique_include groupId (prisma s) = Some group →
  TaskGroup.failureMode (TaskGroupWithMembers.base group) = "stop" →
  ∃ ex s',
    executeGroup groupId s = (Ok ex, s')
    ∧ (TaskGroupExecution.tasksFailed ex ≤ 1)%nat
    ∧ (TaskGroupExecution.errorMessage ex = None
       ∨ TaskGroupExecution.errorMessage ex = Some "1 task(s) failed").
Proof.
  intros Hfound Hmode%stop_mode_true.
  destruct (executeGroup_run groupId s group Hfound)
    as (completedAt & results & s' & Hrun & _ & _ & _ & _ & _ & _ & Hstop & _).
  eexists _, s'. split; [exact Hrun|].
  cbn [finalized TaskGroupExecution.tasksFailed TaskGroupExecution.errorMessage].
  assert (count_status TaskResult.failed results ≤ 1)%nat as Hle.
  { apply count_failed_at_most_one. intros j rj Hj Hf.
    specialize (Hstop Hmode j rj Hj Hf).
    clear -Hstop. induction Hstop as [|???? [? _]]; constructor; done. }
  split; [done|].
  destruct (count_status TaskResult.failed results) as [|[|n]]; [by left|by right|lia].
Qed.

(** The memberships that [executeGroup] loads are in run order already. *)
Lemma found_sorted groupId db group :
  taskGroup_findUnique_include groupId db = Some group →
  sort_by_sortOrder (TaskGroupWithMembers.taskMemberships group)
  = TaskGroupWithMembers.taskMemberships group.
Proof.
  intros (g & _ & ->)%found_inv. apply memberships_of_sorted.
Qed.

(** X4.  The run order of [executeGroup] is the order in which
    [getGroupWithTasks] returns the memberships: sorting them again changes
    nothing, and the results are those of the returned memberships, entry by
    entry. *)
Theorem executeGroup_runs_in_loaded_order groupId s group :
  taskGroup_findUnique_include groupId (prisma s) = Some group →
  sort_by_sortOrder (TaskGroupWithMembers.taskMemberships group)
  = TaskGroupWithMembers.taskMemberships group
  ∧ ∃ ex s' results,
      executeGroup groupId s = (Ok ex, s')
      ∧ TaskGroupExecution.taskResults ex = Some results
      ∧ TaskResult.taskId <$> results
        = (λ m, Task.id (TaskGroupMemberWithTask.task m))
            <$> TaskGroupWithMembers.taskMemberships group.
Proof.
  intros Hfound.
  pose proof (found_sorted _ _ _ Hfound) as Hsort.
  split; [done|].
  destruct (executeGroup_run groupId s group Hfound)
    as (completedAt & results & s' & Hrun & Hrec & _).
  rewrite Hsort in Hrec.
  eexists _, s', results. split; [exact Hrun|]. split; [done|].
  clear -Hrec. induction Hrec as [|m r ms rs (Hid & _) _ IH]; [done|].
  rewrite !fmap_cons. by f_equal.
Qed.

(** How the executor treats a task when that does not depend on the world:
    the error it rejects with, if any. *)
Definition outcome_of (fails : option JsError) : Outcome :=
  match fails with Some e => Rejected e | None => Resolved end.

(** The result of a member that the executor was called for, when the
    executor rejects exactly the tasks for which [fails] gives an error. *)
Definition records_outcome (fails : Task.t → option JsError)
    (m : TaskGroupMemberWithTask.t) (r : TaskResult.t) : Prop :=
  TaskResult.st r
  = match fails (TaskGroupMemberWithTask.task m) with
    | Some _ => TaskResult.failed
    | None => TaskResult.success
    end
  ∧ TaskResult.error r = message <$> fails (TaskGroupMemberWithTask.task m).

Lemma records_outcome_all fails ms rs :
  (∀ t w, (executeTask t w).1 = outcome_of (fails t)) →
  Forall (λ m, Task.enabled (TaskGroupMemberWithTask.task m) = true) ms →
  Forall2 attempted ms rs →
  Forall2 outcome_recorded ms rs →
  Forall2 (records_outcome fails) ms rs.
Proof.
  intros Hexec Hen Hatt. revert Hen.
  induction Hatt as [|m r ms rs Hmr _ IH]; intros Hen Hout; [constructor|].
  inversion_clear Hen as [|?? Hm Hms]. inversion_clear Hout as [|???? Hr Hrs].
  constructor; [|by apply IH].
  destruct (Hr (Hmr Hm)) as (w & Hw). rewrite Hexec in Hw.
  unfold records_outcome. by destruct (fails (TaskGroupMemberWithTask.task m)).
Qed.

Lemma records_outcome_counts fails ms rs :
  Forall2 (records_outcome fails) ms rs →
  attempted_tasks ms rs = TaskGroupMemberWithTask.task <$> ms
  ∧ count_status TaskResult.skipped rs = 0%nat
  ∧ count_status TaskResult.failed rs
    = length (filter (λ m, is_Some (fails (TaskGroupMemberWithTask.task m))) ms)
  ∧ count_status TaskResult.success rs
    = length (filter (λ m, fails (TaskGroupMemberWithTask.task m) = None) ms).
Proof.
  induction 1 as [|m r ms rs [Hst _] _ (IH1 & IH2 & IH3 & IH4)]; [done|].
  rewrite !count_status_cons, IH2, IH3, IH4, !filter_cons.
  unfold attempted_tasks in *. simpl zip. rewrite filter_cons. simpl.
  destruct (fails (TaskGroupMemberWithTask.task m)) as [e|] eqn:Hf; rewrite Hst;
    repeat case_decide; try done;
    try (by rewrite fmap_cons, IH1);
    try (by match goal with H : ¬ is_Some (Some _) |- _ => destruct H end);
    try (by match goal with H : is_Some None |- _ => destruct H as [? [=]] end).
Qed.

(** X5.  When the failure mode is not [stop], every member is enabled, and
    the executor rejects exactly the tasks for which [fails] gives an error,
    a run of [executeGroup] calls the executor once for every member, in run
    order, records [failed] with the message for the rejected ones and
    [success] for the others, and skips none.  With exactly one failing
    member among at least two the run is [partial]. *)
Theorem continue_mode_attempts_every_member groupId s group fails :
  taskGroup_findUnique_include groupId (prisma s) = Some group →
  TaskGroup.failureMode (TaskGroupWithMembers.base group) ≠ "stop" →
  Forall (λ m, Task.enabled (TaskGroupMemberWithTask.task m) = true)
         (TaskGroupWithMembers.taskMemberships group) →
  (∀ t w, (executeTask t w).1 = outcome_of (fails t)) →
  ∃ ex s' results evs,
    executeGroup groupId s = (Ok ex, s')
    ∧ TaskGroupExecution.taskResults ex = Some results
    ∧ trace s' = trace s ++ evs
    ∧ executed evs
      = TaskGroupMemberWithTask.task <$> TaskGroupWithMembers.taskMemberships group
    ∧ Forall2 (records_outcome fails) (TaskGroupWithMembers.taskMemberships group) results
    ∧ TaskGroupExecution.tasksSkipped ex = 0%nat
    ∧ TaskGroupExecution.tasksFailed ex
      = length (filter (λ m, is_Some (fails (TaskGroupMemberWithTask.task m)))
                       (TaskGroupWithMembers.taskMemberships group))
    ∧ TaskGroupExecution.tasksCompleted ex
      = length (filter (λ m, fails (TaskGroupMemberWithTask.task m) = None)
                       (TaskGroupWithMembers.taskMemberships group))
    ∧ (TaskGroupExecution.tasksFailed ex = 1%nat →
       (2 ≤ length (TaskGroupWithMembers.taskMemberships group))%nat →
       TaskGroupExecution.status ex = "partial"
       ∧ TaskGroupExecution.tasksCompleted ex
         = (length (TaskGroupWithMembers.taskMemberships group) - 1)%nat).
Proof.
  intros Hfound Hmode%stop_mode_false Hen Hexec.
  pose proof (found_sorted _ _ _ Hfound) as Hsort.
  destruct (executeGroup_run groupId s group Hfound)
    as (completedAt & results & s' & Hrun & Hrec & Hout & Htr & _ & _ & _ & _ & Hcont).
  rewrite Hsort in *.
  pose proof (records_outcome_all fails _ _ Hexec Hen (Hcont Hmode) Hout) as Hall.
  destruct (records_outcome_counts fails _ _ Hall) as (Hatt & Hsk & Hfl & Hok).
  eexists _, s', results, _. split; [exact Hrun|].
  split; [done|]. split; [exact Htr|].
  split. { by rewrite executed_run_effects. }
  split; [done|].
  cbn [finalized TaskGroupExecution.tasksSkipped TaskGroupExecution.tasksFailed
       TaskGroupExecution.tasksCompleted TaskGroupExecution.status].
  split; [done|]. split; [done|]. split; [done|].
  intros Hone Hlen.
  pose proof (count_status_total results) as Htotal.
  apply Forall2_length in Hrec.
  destruct (final_status_cases (count_status TaskResult.success results)
              (count_status TaskResult.failed results)
              (count_status TaskResult.skipped results)) as (_ & _ & Hp).
  split; [|lia]. apply Hp; lia.
Qed.

(** ** Further properties of the registry *)

Lemma scheduled_prisma group s : prisma (scheduled group s) = prisma s.
Proof. unfold scheduled. simpl. apply unscheduled_prisma. Qed.

(** What the loop of [loadTaskGroups] leaves: a live timer for every group
    of the list whose expression validates, and the timers of all other
    group ids as they were. *)
Lemma loadTaskGroups_loop_spec groups : ∀ s,
  registry_inv s →
  ∃ s', loadTaskGroups_loop groups s = (Ok tt, s')
        ∧ registry_inv s'
        ∧ prisma s' = prisma s
        ∧ (∀ g, g ∈ groups → cron_validate (TaskGroup.cronExpression g) = true →
                ∃ h, live s' h (TaskGroup.id g))
        ∧ (∀ groupId,
             (∀ g, g ∈ groups → cron_validate (TaskGroup.cronExpression g) = true →
                   TaskGroup.id g ≠ groupId) →
             ∀ h, live s' h groupId ↔ live s h groupId).
Proof.
  induction groups as [|group groups IH]; intros s Hinv.
  { exists s. split; [done|]. split; [done|]. split; [done|].
    split; [by intros g ?%elem_of_nil|done]. }
  cbn [loadTaskGroups_loop]. unfold bind, try_catch.
  destruct (cron_validate (TaskGroup.cronExpression group)) eqn:Hv.
  - rewrite scheduleGroup_valid by done.
    destruct (IH (scheduled group s) (scheduled_inv group s Hinv))
      as (s' & Hrun & Hinv' & Hdb & Harmed & Hother).
    exists s'. split; [exact Hrun|]. split; [done|].
    split. { by rewrite Hdb, scheduled_prisma. }
    split.
    + intros g [->|Hin]%elem_of_cons Hg; [|by apply Harmed].
      destruct (decide (Exists (λ g', cron_validate (TaskGroup.cronExpression g') = true
                                      ∧ TaskGroup.id g' = TaskGroup.id group) groups))
        as [Hex|Hnex].
      * apply Exists_exists in Hex as (g' & Hin' & Hv' & Hid').
        rewrite <- Hid'. by apply Harmed.
      * exists (length (cronTasks s)). apply Hother.
        { intros g' Hin' Hv' Hid'. apply Hnex, Exists_exists. by exists g'. }
        apply scheduled_live; [done|]. by right.
    + intros groupId Hnone h. rewrite Hother.
      * rewrite scheduled_live by done. split.
        -- intros [[Hl _]|[_ ->]]; [done|].
           exfalso. by apply (Hnone group); [apply elem_of_cons; left|..].
        -- intros Hl. left. split; [done|]. intros ->.
           by apply (Hnone group); [apply elem_of_cons; left|..].
      * intros g Hin. apply Hnone. apply elem_of_cons. by right.
  - rewrite scheduleGroup_invalid by done.
    set (s1 := with_logs _ s).
    assert (registry_inv s1) as Hinv1 by (by apply (registry_inv_ext s)).
    destruct (IH s1 Hinv1) as (s' & Hrun & Hinv' & Hdb & Harmed & Hother).
    exists s'. split; [exact Hrun|]. split; [done|]. split; [done|].
    split.
    + intros g [->|Hin]%elem_of_cons Hg; [congruence|by apply Harmed].
    + intros groupId Hnone h. rewrite Hother.
      * by apply live_ext.
      * intros g Hin. apply Hnone. apply elem_of_cons. by right.
Qed.

(** X6.  [loadTaskGroups] never throws and leaves the store alone.  It leaves a
    live timer for every stored group that is enabled and whose expression
    validates; for a group id that no such stored group carries (the group
    is disabled, its expression does not validate, or it is not stored) it
    arms nothing: the timers of that id are as they were. *)
Theorem loadTaskGroups_arms_enabled_groups s :
  registry_inv s →
  ∃ s',
    loadTaskGroups s = (Ok tt, s')
    ∧ registry_inv s'
    ∧ prisma s' = prisma s
    ∧ (∀ key g,
         taskGroups (prisma s) !! key = Some g →
         TaskGroup.enabled g = true →
         cron_validate (TaskGroup.cronExpression g) = true →
         ∃ h, live s' h (TaskGroup.id g))
    ∧ (∀ groupId,
         (∀ key g,
            taskGroups (prisma s) !! key = Some g →
            TaskGroup.enabled g = true →
            cron_validate (TaskGroup.cronExpression g) = true →
            TaskGroup.id g ≠ groupId) →
         ∀ h, live s' h groupId ↔ live s h groupId).
Proof.
  intros Hinv.
  unfold loadTaskGroups, try_catch, bind, db_read, logger_info. cbn beta.
  set (groups := taskGroup_findMany_enabled (prisma s)).
  set (s0 := with_logs _ s).
  assert (registry_inv s0) as Hinv0 by (by apply (registry_inv_ext s)).
  destruct (loadTaskGroups_loop_spec groups s0 Hinv0)
    as (s1 & -> & Hinv1 & Hdb & Harmed & Hother).
  assert (∀ g, g ∈ groups ↔ TaskGroup.enabled g = true
                            ∧ ∃ key, taskGroups (prisma s) !! key = Some g) as Hgroups.
  { intros g. subst groups. unfold taskGroup_findMany_enabled.
    rewrite list_elem_of_filter, list_elem_of_fmap. split.
    - intros [Hen ([key g'] & -> & Hin)]. split; [done|].
      exists key. by apply elem_of_map_to_list.
    - intros [Hen (key & Hkey)]. split; [done|].
      exists (key, g). split; [done|]. by apply elem_of_map_to_list. }
  eexists. split; [reflexivity|].
  split. { by apply (registry_inv_ext s1). }
  split; [done|]. split.
  - intros key g Hkey Hen Hv.
    destruct (Harmed g) as (h & Hl); [apply Hgroups; eauto|done|].
    exists h. by apply (live_ext s1).
  - intros groupId Hnone h.
    rewrite (live_ext s1) by done. rewrite Hother.
    + by apply live_ext.
    + intros g (Hen & key & Hkey)%Hgroups Hv. by eapply Hnone.
Qed.

Lemma with_prisma_same (s : Sys World) : with_prisma (prisma s) s = s.
Proof. by destruct s. Qed.

(** X7.  [updateGroup] for a group id that is not stored throws after the
    expression check and leaves the whole state as it was; [deleteGroup]
    for such an id throws as well, but only after it has stopped and removed
    the timer held for the id. *)
Theorem missing_group_update_and_delete groupId s :
  taskGroups (prisma s) !! groupId = None →
  (∀ data, update_rejected data = false →
           updateGroup groupId data s
           = (Throw (Error "Record to update not found."), s))
  ∧ deleteGroup groupId s
    = (Throw (Error "Record to delete does not exist."), unscheduled groupId s)
  ∧ JsMap.get groupId (scheduledGroups (unscheduled groupId s)) = None
  ∧ (∀ h c, JsMap.get groupId (scheduledGroups s) = Some h →
            cronTasks (unscheduled groupId s) !! h = Some c →
            ScheduledTask.running c = false).
Proof.
  intros Hnone. split; [|split; [|split]].
  - intros data Hgate. unfold updateGroup, update_rejected in *. rewrite Hgate.
    cbn iota. unfold bind, db_write, taskGroup_update. cbn beta. rewrite Hnone.
    by rewrite with_prisma_same.
  - unfold deleteGroup, bind. rewrite unschedule_eq.
    unfold db_write, taskGroup_delete. rewrite unscheduled_prisma, Hnone.
    by rewrite <- (unscheduled_prisma groupId s), with_prisma_same.
  - by rewrite unscheduled_get, String.eqb_refl.
  - intros h c Hget. unfold unscheduled. rewrite Hget. simpl.
    rewrite list_lookup_alter. case_decide; [|done].
    destruct (cronTasks s !! h); [|done]. by intros [= <-].
Qed.

(** X8.  [deleteGroup] of a stored group returns normally: the row of the
    group is gone from the groups and the rows of the other groups are as
    they were, the timer held for the id is stopped and removed from
    [scheduledGroups], and the entries and timers of the other groups are
    untouched.  What becomes of the memberships and the executions of the
    group is decided by the database schema and is not stated. *)
Theorem deleteGroup_removes_row_and_timer groupId s g :
  taskGroups (prisma s) !! groupId = Some g →
  ∃ s',
    deleteGroup groupId s = (Ok tt, s')
    ∧ taskGroups (prisma s') = delete groupId (taskGroups (prisma s))
    ∧ taskGroups (prisma s') !! groupId = None
    ∧ JsMap.get groupId (scheduledGroups s') = None
    ∧ (∀ other, other ≠ groupId →
         JsMap.get other (scheduledGroups s') = JsMap.get other (scheduledGroups s))
    ∧ (∀ h c, JsMap.get groupId (scheduledGroups s) = Some h →
              cronTasks s' !! h = Some c → ScheduledTask.running c = false)
    ∧ (∀ h, JsMap.get groupId (scheduledGroups s) ≠ Some h →
            cronTasks s' !! h = cronTasks s !! h).
Proof.
  intros Hg. unfold deleteGroup, bind. rewrite unschedule_eq.
  unfold db_write, taskGroup_delete, logger_info. rewrite unscheduled_prisma, Hg.
  eexists. split; [reflexivity|].
  cbn [prisma with_logs with_prisma taskGroups set_taskGroups scheduledGroups cronTasks].
  split; [done|]. split; [apply lookup_delete_eq|].
  split. { by rewrite unscheduled_get, String.eqb_refl. }
  split.
  { intros other Hne. by rewrite unscheduled_get, (proj2 (String.eqb_neq _ _)). }
  split.
  - intros h c Hget. unfold unscheduled. rewrite Hget. simpl.
    rewrite list_lookup_alter. case_decide; [|done].
    destruct (cronTasks s !! h); [|done]. by intros [= <-].
  - intros h Hne. unfold unscheduled.
    destruct (JsMap.get groupId (scheduledGroups s)) as [h0|]; [|done]. simpl.
    rewrite list_lookup_alter. case_decide; [congruence|done].
Qed.

(** X9.  [updateGroup] that passes the expression check on a stored group
    stores the update and returns the stored row.  When the row is then
    enabled and its expression validates, the timer held for the group
    before is stopped and the one live timer of the group is a new task armed
    with the expression of the updated row, in UTC. *)
Theorem updateGroup_reschedules groupId data row s :
  registry_inv s →
  taskGroups (prisma s) !! groupId = Some row →
  update_rejected data = false →
  TaskGroup.enabled (apply_update data row) = true →
  cron_validate (TaskGroup.cronExpression (apply_update data row)) = true →
  ∃ s',
    updateGroup groupId data s = (Ok (apply_update data row), s')
    ∧ taskGroups (prisma s') !! groupId = Some (apply_update data row)
    ∧ cronTasks s' !! length (cronTasks s)
      = Some (ScheduledTask.mk (TaskGroup.cronExpression (apply_update data row)) "UTC"
                (TaskGroup.id row) true)
    ∧ JsMap.get (TaskGroup.id row) (scheduledGroups s') = Some (length (cronTasks s))
    ∧ (∀ h, live s' h (TaskGroup.id row) ↔ h = length (cronTasks s)).
Proof.
  intros Hinv Hrow Hgate Hen Hv.
  rewrite (updateGroup_stored groupId data row s Hrow Hgate), Hen.
  rewrite scheduleGroup_valid by done. cbn [snd].
  eexists. split; [reflexivity|].
  assert (registry_inv (updated groupId data row s)) as Hinv1
    by (by apply (registry_inv_ext s)).
  split. { rewrite scheduled_prisma. unfold updated. simpl. apply lookup_insert_eq. }
  assert (length (cronTasks (unscheduled (TaskGroup.id (apply_update data row))
                               (updated groupId data row s)))
          = length (cronTasks s)) as Hlen by (by rewrite unscheduled_length).
  split.
  { unfold scheduled.
    cbn [cronTasks with_logs with_scheduledGroups with_cronTasks].
    rewrite <- Hlen. by rewrite list_lookup_middle. }
  split.
  { unfold scheduled.
    cbn [scheduledGroups with_logs with_scheduledGroups with_cronTasks].
    change (TaskGroup.id (apply_update data row)) with (TaskGroup.id row) in *.
    by rewrite JsMap_get_set, String.eqb_refl, Hlen. }
  intros h. rewrite scheduled_live by done.
  change (TaskGroup.id (apply_update data row)) with (TaskGroup.id row).
  change (cronTasks (updated groupId data row s)) with (cronTasks s).
  split; [by intros [[_ ?]|[-> _]]|]. intros ->. by right.
Qed.

(** X10.  An update of a stored group with [cronExpression: ""] is not
    checked: the empty expression is stored.  More generally, when an update
    passes the expression check and leaves the stored row enabled with an
    expression that does not validate, [updateGroup] returns the row,
    writes an error line to the log, and leaves [scheduledGroups] and
    the timers as they were: a timer armed for the group before keeps
    running with the expression it was armed with. *)
Theorem updateGroup_invalid_stored_expression groupId data row s :
  taskGroups (prisma s) !! groupId = Some row →
  update_rejected data = false →
  TaskGroup.enabled (apply_update data row) = true →
  cron_validate (TaskGroup.cronExpression (apply_update data row)) = false →
  (UpdateData.cronExpression data = Some "" →
   TaskGroup.cronExpression (apply_update data row) = "")
  ∧ ∃ s',
      updateGroup groupId data s = (Ok (apply_update data row), s')
      ∧ taskGroups (prisma s') !! groupId = Some (apply_update data row)
      ∧ scheduledGroups s' = scheduledGroups s
      ∧ cronTasks s' = cronTasks s
      ∧ logs s'
        = logs s ++ [(LogError, "Invalid cron expression for task group "
                                +:+ TaskGroup.name (apply_update data row) +:+ ": "
                                +:+ TaskGroup.cronExpression (apply_update data row))].
Proof.
  intros Hrow Hgate Hen Hv.
  split. { intros Hd. unfold apply_update. simpl. by rewrite Hd. }
  rewrite (updateGroup_stored groupId data row s Hrow Hgate), Hen.
  rewrite scheduleGroup_invalid by done. cbn [snd].
  eexists. split; [reflexivity|].
  split. { unfold updated. simpl. apply lookup_insert_eq. }
  done.
Qed.

(** X11.  [toggleGroup] on a stored group never throws and stores the flag,
    leaving the other columns of the row as they were.  Switched off, the
    group is left without a live timer and without an entry in
    [scheduledGroups]; switched on with an expression that validates, it is
    left with exactly one live timer, a new one. *)
Theorem toggleGroup_stores_flag groupId enabled row s :
  registry_inv s →
  taskGroups (prisma s) !! groupId = Some row →
  let row' := TaskGroup.mk (TaskGroup.id row) (TaskGroup.name row)
                (TaskGroup.description row) (TaskGroup.cronExpression row)
                (TaskGroup.failureMode row) (TaskGroup.delayBetweenTasks row)
                enabled (TaskGroup.lastRun row) (TaskGroup.lastStatus row)
                (TaskGroup.lastError row) in
  ∃ s',
    toggleGroup groupId enabled s = (Ok row', s')
    ∧ taskGroups (prisma s') !! groupId = Some row'
    ∧ (enabled = false →
       JsMap.get groupId (scheduledGroups s') = None
       ∧ ∀ h, ¬ live s' h groupId)
    ∧ (enabled = true →
       cron_validate (TaskGroup.cronExpression row) = true →
       ∀ h, live s' h (TaskGroup.id row) ↔ h = length (cronTasks s)).
Proof.
  intros Hinv Hrow row'.
  set (data := UpdateData.mk None None None None None (Some enabled)).
  assert (apply_update data row = row') as Happly by done.
  assert (registry_inv (updated groupId data row s)) as Hinv1
    by (by apply (registry_inv_ext s)).
  unfold toggleGroup. fold data.
  rewrite (updateGroup_stored groupId data row s Hrow eq_refl), Happly.
  assert (prisma (if TaskGroup.enabled row'
                  then (scheduleGroup row' (updated groupId data row s)).2
                  else unscheduled groupId (updated groupId data row s))
          = prisma (updated groupId data row s)) as Hdb.
  { destruct (TaskGroup.enabled row'); [|apply unscheduled_prisma].
    destruct (cron_validate (TaskGroup.cronExpression row')) eqn:Hv.
    - rewrite scheduleGroup_valid by done. apply scheduled_prisma.
    - by rewrite scheduleGroup_invalid. }
  eexists. split; [reflexivity|].
  split. { rewrite Hdb. unfold updated. simpl. by rewrite lookup_insert_eq, Happly. }
  split.
  - intros ->. cbn [TaskGroup.enabled row']. split.
    + by rewrite unscheduled_get, String.eqb_refl.
    + intros h. by apply unscheduled_none.
  - intros -> Hv h. cbn [TaskGroup.enabled row'].
    rewrite scheduleGroup_valid by done. cbn [snd].
    rewrite scheduled_live by done.
    split; [by intros [[_ ?]|[-> _]]|]. intros ->. by right.
Qed.

(** The tasks of node-cron after [stop] on each of the handles. *)
Definition stop_all (handles : list nat) (tasks : list ScheduledTask.t)
    : list ScheduledTask.t :=
  foldl (λ c h, alter ScheduledTask.stop h c) tasks handles.

Lemma stop_all_length handles : ∀ tasks, length (stop_all handles tasks) = length tasks.
Proof.
  induction handles as [|h handles IH]; intros tasks; [done|].
  unfold stop_all in *. simpl. by rewrite IH, length_alter.
Qed.

Lemma stop_all_lookup handles : ∀ tasks h,
  stop_all handles tasks !! h
  = (if decide (h ∈ handles) then ScheduledTask.stop else id) <$> tasks !! h.
Proof.
  induction handles as [|h0 handles IH]; intros tasks h.
  { rewrite decide_False by apply not_elem_of_nil.
    unfold stop_all. simpl. by destruct (tasks !! h). }
  unfold stop_all in *. simpl. rewrite IH, list_lookup_alter.
  destruct (decide (h0 = h)) as [->|Hne].
  - rewrite (decide_True (P := h ∈ h :: handles)) by (apply elem_of_cons; by left).
    destruct (tasks !! h) as [c|]; [|done]. simpl. by case_decide.
  - case_decide as Hin.
    + by rewrite (decide_True (P := h ∈ h0 :: handles)) by (apply elem_of_cons; by right).
    + rewrite (decide_False (P := h ∈ h0 :: handles)); [done|].
      intros [?|?]%elem_of_cons; congruence.
Qed.

Lemma cleanup_loop_run entries : ∀ s,
  cleanup_loop entries s
  = (Ok tt,
     with_logs (logs s ++ ((λ e, (LogInfo, "Stopped task group: " +:+ e.1)) <$> entries))
       (with_cronTasks (stop_all entries.*2 (cronTasks s)) s)).
Proof.
  induction entries as [|[groupId h] entries IH]; intros s.
  { simpl. unfold ret, stop_all. simpl. rewrite app_nil_r. by destruct s. }
  cbn [cleanup_loop]. unfold bind, cronTask_stop, logger_info. rewrite IH.
  cbn [logs cronTasks with_logs with_cronTasks fmap list_fmap fst snd].
  unfold stop_all. simpl. by rewrite <- app_assoc.
Qed.

(** X12.  [cleanup] never throws and leaves the store alone.  It stops every
    task held in [scheduledGroups], removes none from node-cron, touches no
    other task, and empties [scheduledGroups]; between its first and last
    log line it writes one line per entry, in the order of insertion.  A
    second [cleanup] changes no task. *)
Theorem cleanup_stops_registered_timers s :
  ∃ s',
    cleanup s = (Ok tt, s')
    ∧ prisma s' = prisma s
    ∧ scheduledGroups s' = []
    ∧ length (cronTasks s') = length (cronTasks s)
    ∧ (∀ groupId h c,
         (groupId, h) ∈ scheduledGroups s →
         cronTasks s' !! h = Some c → ScheduledTask.running c = false)
    ∧ (∀ h, h ∉ (scheduledGroups s).*2 → cronTasks s' !! h = cronTasks s !! h)
    ∧ logs s'
      = logs s ++ [(LogInfo, "Stopping all task group schedules...")]
        ++ ((λ e, (LogInfo, "Stopped task group: " +:+ e.1)) <$> scheduledGroups s)
        ++ [(LogInfo, "All task group schedules stopped")]
    ∧ cronTasks (cleanup s').2 = cronTasks s'.
Proof.
  assert (∀ s0 : Sys World,
            cleanup s0
            = (Ok tt,
               with_logs
                 (logs s0 ++ [(LogInfo, "Stopping all task group schedules...")]
                  ++ ((λ e, (LogInfo, "Stopped task group: " +:+ e.1)) <$> scheduledGroups s0)
                  ++ [(LogInfo, "All task group schedules stopped")])
                 (with_scheduledGroups []
                    (with_cronTasks (stop_all (scheduledGroups s0).*2 (cronTasks s0)) s0))))
    as Hcleanup.
  { intros s0. unfold cleanup, bind. unfold logger_info at 1. cbn beta.
    cbn [scheduledGroups with_logs]. rewrite cleanup_loop_run.
    unfold scheduledGroups_clear, logger_info, JsMap.clear.
    cbn [logs cronTasks scheduledGroups prisma world trace
         with_logs with_cronTasks with_scheduledGroups].
    by rewrite <- !app_assoc. }
  eexists. split; [apply Hcleanup|].
  cbn [logs cronTasks scheduledGroups prisma with_logs with_cronTasks with_scheduledGroups].
  split; [done|]. split; [done|]. split; [apply stop_all_length|].
  split.
  { intros groupId h c Hin. rewrite stop_all_lookup.
    rewrite decide_True by (apply list_elem_of_fmap; by exists (groupId, h)).
    destruct (cronTasks s !! h); [|done]. by intros [= <-]. }
  split.
  { intros h Hnin. rewrite stop_all_lookup, decide_False by done.
    by destruct (cronTasks s !! h). }
  split; [done|].
  rewrite Hcleanup. cbn [snd cronTasks scheduledGroups with_logs with_cronTasks
                         with_scheduledGroups fmap list_fmap].
  done.
Qed.

(** ** Memberships *)

(** A task joined to a membership, as the query of [getGroupWithTasks]
    joins them. *)
Definition join_task (db : Store) (m : TaskGroupMember.t) : option TaskGroupMemberWithTask.t :=
  TaskGroupMemberWithTask.mk m <$> tasks db !! TaskGroupMember.taskId m.

Lemma memberships_of_eq groupId db :
  memberships_of groupId db
  = sort_by_sortOrder
      (omap (join_task db)
            (filter (λ m, TaskGroupMember.groupId m = groupId) (taskGroupMembers db))).
Proof. done. Qed.

Lemma insert_by_sortOrder_snoc a x l :
  TaskGroupMemberWithTask.sortOrder a < TaskGroupMemberWithTask.sortOrder x →
  insert_by_sortOrder a (l ++ [x]) = insert_by_sortOrder a l ++ [x].
Proof.
  intros Hax. induction l as [|b l IH]; simpl.
  - destruct (Z.leb_spec (TaskGroupMemberWithTask.sortOrder a
                          - TaskGroupMemberWithTask.sortOrder x) 0); [done|lia].
  - case_match; [done|]. by rewrite IH.
Qed.

Lemma sort_by_sortOrder_snoc x l :
  (∀ y, y ∈ l → TaskGroupMemberWithTask.sortOrder y < TaskGroupMemberWithTask.sortOrder x) →
  sort_by_sortOrder (l ++ [x]) = sort_by_sortOrder l ++ [x].
Proof.
  induction l as [|a l IH]; intros Hlt; [done|].
  simpl. rewrite IH.
  - apply insert_by_sortOrder_snoc, Hlt, elem_of_cons. by left.
  - intros y Hy. apply Hlt, elem_of_cons. by right.
Qed.

Lemma max_sortOrder_spec groupId db :
  match max_sortOrder groupId db with
  | Some a =>
      (∀ m, m ∈ taskGroupMembers db → TaskGroupMember.groupId m = groupId →
            TaskGroupMember.sortOrder m ≤ a)
      ∧ ∃ m, m ∈ taskGroupMembers db ∧ TaskGroupMember.groupId m = groupId
             ∧ TaskGroupMember.sortOrder m = a
  | None =>
      ∀ m, m ∈ taskGroupMembers db → TaskGroupMember.groupId m ≠ groupId
  end.
Proof.
  unfold max_sortOrder.
  assert (∀ rows : list TaskGroupMember.t,
            match foldr (λ m acc, match acc with
                                  | Some a => Some (Z.max (TaskGroupMember.sortOrder m) a)
                                  | None => Some (TaskGroupMember.sortOrder m)
                                  end) None rows with
            | Some a => (∀ m, m ∈ rows → TaskGroupMember.sortOrder m ≤ a)
                        ∧ ∃ m, m ∈ rows ∧ TaskGroupMember.sortOrder m = a
            | None => rows = []
            end) as Hfold.
  { induction rows as [|r rows IH]; [done|]. simpl.
    destruct (foldr _ None rows) as [a|].
    - destruct IH as [Hle (m0 & Hin0 & Hm0)]. split.
      + intros m [->|Hin]%elem_of_cons; [lia|]. specialize (Hle m Hin). lia.
      + destruct (Z.max_spec (TaskGroupMember.sortOrder r) a) as [[_ ->]|[_ ->]].
        * exists m0. split; [|done]. apply elem_of_cons. by right.
        * exists r. split; [|done]. apply elem_of_cons. by left.
    - subst rows. split.
      + intros m [->|Hin]%elem_of_cons; [lia|]. by apply elem_of_nil in Hin.
      + exists r. split; [|done]. apply elem_of_cons. by left. }
  specialize (Hfold (filter (λ m, TaskGroupMember.groupId m = groupId) (taskGroupMembers db))).
  destruct (foldr _ None _) as [a|].
  - destruct Hfold as [Hle (m0 & Hin0 & Hm0)]. split.
    + intros m Hin Hg. apply Hle. by apply list_elem_of_filter.
    + apply list_elem_of_filter in Hin0 as [Hg Hin0]. by exists m0.
  - intros m Hin Hg.
    assert (m ∈ filter (λ m, TaskGroupMember.groupId m = groupId) (taskGroupMembers db))
      as Hm by (by apply list_elem_of_filter).
    rewrite Hfold in Hm. by apply elem_of_nil in Hm.
Qed.

(** X13.  [addTask] without a position, when it returns, has stored the
    membership at a position above every position of the group (0 for a
    group without memberships), so the new member is the last in the run
    order of the group; the memberships of other groups are as they were. *)
Theorem addTask_appends_last groupId taskId s s' :
  addTask groupId taskId None s = (Ok tt, s') →
  ∃ position task,
    tasks (prisma s) !! taskId = Some task
    ∧ taskGroupMembers (prisma s')
      = taskGroupMembers (prisma s) ++ [TaskGroupMember.mk groupId taskId position]
    ∧ (∀ m, m ∈ taskGroupMembers (prisma s) → TaskGroupMember.groupId m = groupId →
            TaskGroupMember.sortOrder m < position)
    ∧ ((∀ m, m ∈ taskGroupMembers (prisma s) → TaskGroupMember.groupId m ≠ groupId) →
       position = 0)
    ∧ memberships_of groupId (prisma s')
      = memberships_of groupId (prisma s)
        ++ [TaskGroupMemberWithTask.mk (TaskGroupMember.mk groupId taskId position) task]
    ∧ (∀ other, other ≠ groupId →
         memberships_of other (prisma s') = memberships_of other (prisma s)).
Proof.
  unfold addTask, bind, ret, db_read, db_write, taskGroupMember_create, logger_info.
  cbn beta.
  pose proof (max_sortOrder_spec groupId (prisma s)) as Hmax.
  set (position := default (-1) (max_sortOrder groupId (prisma s)) + 1).
  destruct (existsb _ _); [done|].
  destruct (tasks (prisma s) !! taskId) as [task|] eqn:Htask; [|done].
  intros [= <-]. exists position, task.
  cbn [prisma with_logs with_prisma taskGroupMembers set_taskGroupMembers].
  assert (∀ m, m ∈ taskGroupMembers (prisma s) → TaskGroupMember.groupId m = groupId →
               TaskGroupMember.sortOrder m < position) as Hlt.
  { intros m Hin Hg. subst position.
    destruct (max_sortOrder groupId (prisma s)) as [a|]; simpl.
    - destruct Hmax as [Hle _]. specialize (Hle m Hin Hg). lia.
    - by destruct (Hmax m Hin). }
  split; [done|]. split; [done|]. split; [done|]. split.
  { intros Hnone. subst position.
    destruct (max_sortOrder groupId (prisma s)) as [a|]; [|done].
    destruct Hmax as [_ (m0 & Hin0 & Hg0 & _)]. by destruct (Hnone m0 Hin0). }
  split.
  - rewrite !memberships_of_eq.
    cbn [taskGroupMembers set_taskGroupMembers tasks].
    rewrite filter_app, omap_app, filter_cons, decide_True by done.
    unfold join_task at 2. simpl. rewrite Htask. simpl.
    unfold join_task. simpl.
    apply sort_by_sortOrder_snoc.
    intros y (m & Hm & Hy)%list_elem_of_omap.
    apply list_elem_of_filter in Hm as [Hg Hin].
    destruct (tasks (prisma s) !! TaskGroupMember.taskId m); [|done].
    simpl in Hy. injection Hy as <-.
    unfold TaskGroupMemberWithTask.sortOrder. simpl. by apply Hlt.
  - intros other Hne. rewrite !memberships_of_eq.
    cbn [taskGroupMembers set_taskGroupMembers tasks].
    rewrite filter_app, filter_cons, decide_False by (simpl; congruence).
    by rewrite app_nil_r.
Qed.

(** The rows that the loop of [createGroup] adds for [taskIds] from position
    [i] on. *)
Fixpoint new_rows (groupId : string) (i : nat) (taskIds : list string)
    : list TaskGroupMember.t :=
  match taskIds with
  | [] => []
  | taskId :: taskIds' =>
      TaskGroupMember.mk groupId taskId (Z.of_nat i) :: new_rows groupId (S i) taskIds'
  end.

Lemma existsb_is_membership_false groupId taskId rows :
  existsb (λ m, String.eqb (TaskGroupMember.groupId m) groupId
                && String.eqb (TaskGroupMember.taskId m) taskId) rows = false →
  ∀ m, m ∈ rows →
       ¬ (TaskGroupMember.groupId m = groupId ∧ TaskGroupMember.taskId m = taskId).
Proof.
  intros Hex m Hin [Hg Ht].
  assert (existsb (λ m, String.eqb (TaskGroupMember.groupId m) groupId
                        && String.eqb (TaskGroupMember.taskId m) taskId) rows = true)
    as Htrue; [|congruence].
  apply existsb_exists. exists m. split; [by apply list_elem_of_In|].
  by rewrite Hg, Ht, !String.eqb_refl.
Qed.

(** When the loop of [createGroup] returns, it has added the rows of
    [new_rows] and nothing else; every task id is the id of a stored task,
    no id occurs twice, and none was a member before. *)
Lemma createGroup_addTasks_ok groupId taskIds : ∀ i s s',
  createGroup_addTasks groupId i taskIds s = (Ok tt, s') →
  taskGroupMembers (prisma s')
  = taskGroupMembers (prisma s) ++ new_rows groupId i taskIds
  ∧ tasks (prisma s') = tasks (prisma s)
  ∧ Forall (λ taskId, is_Some (tasks (prisma s) !! taskId)) taskIds
  ∧ NoDup taskIds
  ∧ (∀ m, m ∈ taskGroupMembers (prisma s) → TaskGroupMember.groupId m = groupId →
          TaskGroupMember.taskId m ∉ taskIds).
Proof.
  induction taskIds as [|taskId taskIds IH]; intros i s s'.
  { intros [= <-]. rewrite app_nil_r. repeat split; try done; [constructor|].
    intros m _ _. apply not_elem_of_nil. }
  cbn [createGroup_addTasks new_rows]. unfold bind at 1.
  destruct (addTask groupId taskId (Some (Z.of_nat i)) s) as [[[]|e] s1] eqn:Hadd; [|done].
  revert Hadd. unfold addTask, bind, ret, db_write, taskGroupMember_create, logger_info.
  cbn beta.
  destruct (existsb _ (taskGroupMembers (prisma s))) eqn:Hex; [done|].
  destruct (tasks (prisma s) !! taskId) as [task|] eqn:Htask; [|done].
  intros [= <-] Hrest.
  destruct (IH _ _ _ Hrest) as (Hrows & Htasks & Hall & Hnodup & Hfresh).
  cbn [prisma with_logs with_prisma taskGroupMembers set_taskGroupMembers tasks] in *.
  split. { by rewrite Hrows, <- app_assoc. }
  split; [done|]. split. { constructor; [by rewrite Htask|done]. }
  split.
  - constructor; [|done]. intros Hin.
    apply (Hfresh (TaskGroupMember.mk groupId taskId (Z.of_nat i))); [|done|done].
    apply elem_of_app. right. by apply list_elem_of_singleton.
  - intros m Hin Hg [Heq|Hin']%elem_of_cons.
    + by apply (existsb_is_membership_false _ _ _ Hex m Hin).
    + apply (Hfresh m); [|done|done]. apply elem_of_app. by left.
Qed.

(** The joined rows of [new_rows]: the task ids and the positions. *)
Lemma new_rows_joined groupId db taskIds : ∀ i,
  Forall (λ taskId, is_Some (tasks db !! taskId)) taskIds →
  ∃ joined,
    omap (join_task db) (new_rows groupId i taskIds) = joined
    ∧ (λ m, TaskGroupMember.taskId (TaskGroupMemberWithTask.base m)) <$> joined = taskIds
    ∧ TaskGroupMemberWithTask.sortOrder <$> joined
      = Z.of_nat <$> seq i (length taskIds)
    ∧ Forall (λ m, tasks db !! TaskGroupMember.taskId (TaskGroupMemberWithTask.base m)
                   = Some (TaskGroupMemberWithTask.task m)) joined.
Proof.
  induction taskIds as [|taskId taskIds IH]; intros i Hall.
  { exists []. split; [done|]. split; [done|]. split; [done|]. constructor. }
  inversion_clear Hall as [|?? [task Htask] Hrest].
  destruct (IH (S i) Hrest) as (joined & Hj & Hids & Hpos & Htasks).
  exists (TaskGroupMemberWithTask.mk (TaskGroupMember.mk groupId taskId (Z.of_nat i)) task
          :: joined).
  split.
  { cbn [new_rows omap list_omap]. unfold join_task at 1.
    cbn [TaskGroupMember.taskId]. rewrite Htask.
    cbn [fmap option_fmap option_map]. by rewrite Hj. }
  rewrite !fmap_cons, Hids, Hpos.
  split; [done|]. split; [done|]. by constructor.
Qed.

Lemma filter_group_none groupId (rows : list TaskGroupMember.t) :
  (∀ m, m ∈ rows → TaskGroupMember.groupId m ≠ groupId) →
  filter (λ m, TaskGroupMember.groupId m = groupId) rows = [].
Proof.
  induction rows as [|r rows IH]; intros Hnone; [done|].
  rewrite filter_cons, decide_False by (apply Hnone, elem_of_cons; by left).
  apply IH. intros m Hin. apply Hnone, elem_of_cons. by right.
Qed.

Lemma filter_group_new_rows groupId taskIds : ∀ i,
  filter (λ m, TaskGroupMember.groupId m = groupId) (new_rows groupId i taskIds)
  = new_rows groupId i taskIds.
Proof.
  induction taskIds as [|taskId taskIds IH]; intros i; [done|].
  cbn [new_rows]. rewrite filter_cons, decide_True by done. by rewrite IH.
Qed.

Lemma consecutive_sorted l : ∀ i n,
  TaskGroupMemberWithTask.sortOrder <$> l = Z.of_nat <$> seq i n →
  Sorted by_sortOrder l.
Proof.
  induction l as [|a l IH]; intros i n Hpos; [constructor|].
  destruct n as [|n]; [done|]. simpl in Hpos. injection Hpos as Ha Hl.
  constructor; [by eapply IH|].
  destruct l as [|b l]; [constructor|].
  destruct n as [|n]; [done|]. simpl in Hl. injection Hl as Hb _.
  constructor. unfold by_sortOrder. lia.
Qed.

(** X14.  When [createGroup] returns for an argument with a list of task
    ids, and the store held no membership under the id that the new group
    receives, then the members of the new group, as [getGroupWithTasks]
    returns them, are the given tasks in the given order, at the positions
    0, 1, 2, ...; each id is the id of a stored task and no id occurs
    twice. *)
Theorem createGroup_members_in_given_order data taskIds s group s' :
  createGroup data s = (Ok group, s') →
  CreateData.taskIds data = Some taskIds →
  (∀ m, m ∈ taskGroupMembers (prisma s) →
        TaskGroupMember.groupId m ≠ TaskGroup.id group) →
  (λ m, TaskGroupMember.taskId (TaskGroupMemberWithTask.base m))
    <$> memberships_of (TaskGroup.id group) (prisma s') = taskIds
  ∧ TaskGroupMemberWithTask.sortOrder <$> memberships_of (TaskGroup.id group) (prisma s')
    = Z.of_nat <$> seq 0 (length taskIds)
  ∧ Forall (λ m, tasks (prisma s) !! TaskGroupMember.taskId (TaskGroupMemberWithTask.base m)
                 = Some (TaskGroupMemberWithTask.task m))
           (memberships_of (TaskGroup.id group) (prisma s'))
  ∧ NoDup taskIds.
Proof.
  intros Hrun Hids Hfresh.
  destruct (createGroup_ok data s group s' Hrun) as (Hgroup & _).
  assert (taskGroupMembers (prisma s')
          = taskGroupMembers (prisma s) ++ new_rows (TaskGroup.id group) 0 taskIds
          ∧ tasks (prisma s') = tasks (prisma s)
          ∧ Forall (λ taskId, is_Some (tasks (prisma s) !! taskId)) taskIds
          ∧ NoDup taskIds) as (Hrows & Htasks & Hall & Hnodup).
  { revert Hrun. unfold createGroup.
    destruct (cron_validate (CreateData.cronExpression data)) eqn:Hv; [|done].
    cbn [negb]. unfold bind at 1. unfold db_write at 1, taskGroup_create.
    cbn [idCounter set_idCounter taskGroups].
    fold (created_group data (prisma s)). rewrite <- Hgroup.
    destruct (taskGroups (prisma s) !! gen_id (idCounter (prisma s))); [done|].
    unfold bind at 1. rewrite Hids.
    set (s1 := with_prisma _ s).
    assert (taskGroupMembers (prisma s1) = taskGroupMembers (prisma s)
            ∧ tasks (prisma s1) = tasks (prisma s)) as [Hm1 Ht1] by done.
    destruct ((0 <? length taskIds)%nat) eqn:Hlen.
    - destruct (createGroup_addTasks (TaskGroup.id group) 0 taskIds s1)
        as [[[]|e] s2] eqn:Hadd; [|done].
      destruct (createGroup_addTasks_ok _ _ _ _ _ Hadd) as (Hr & Ht & Ha & Hn & _).
      rewrite Hm1 in Hr. rewrite Ht1 in Ht, Ha.
      unfold bind at 1.
      assert (∀ s3, (if TaskGroup.enabled group then scheduleGroup group else ret tt) s2
                    = (Ok tt, s3) →
                    taskGroupMembers (prisma s3) = taskGroupMembers (prisma s2)
                    ∧ tasks (prisma s3) = tasks (prisma s2)) as Hsched.
      { intros s3. destruct (TaskGroup.enabled group); [|by intros [= <-]].
        destruct (cron_validate (TaskGroup.cronExpression group)) eqn:Hv'.
        - rewrite scheduleGroup_valid by done. intros [= <-].
          by rewrite scheduled_prisma.
        - rewrite scheduleGroup_invalid by done. by intros [= <-]. }
      destruct ((if TaskGroup.enabled group then scheduleGroup group else ret tt) s2)
        as [[[]|e] s3] eqn:Hs; [|done].
      destruct (Hsched s3 eq_refl) as [Hm3 Ht3].
      unfold bind, logger_info, ret. intros [= <-].
      cbn [prisma with_logs]. by rewrite Hm3, Ht3.
    - apply Nat.ltb_ge in Hlen. destruct taskIds; [|simpl in Hlen; lia].
      unfold ret at 1. unfold bind at 1.
      assert (∀ s3, (if TaskGroup.enabled group then scheduleGroup group else ret tt) s1
                    = (Ok tt, s3) →
                    taskGroupMembers (prisma s3) = taskGroupMembers (prisma s1)
                    ∧ tasks (prisma s3) = tasks (prisma s1)) as Hsched.
      { intros s3. destruct (TaskGroup.enabled group); [|by intros [= <-]].
        destruct (cron_validate (TaskGroup.cronExpression group)) eqn:Hv'.
        - rewrite scheduleGroup_valid by done. intros [= <-].
          by rewrite scheduled_prisma.
        - rewrite scheduleGroup_invalid by done. by intros [= <-]. }
      destruct ((if TaskGroup.enabled group then scheduleGroup group else ret tt) s1)
        as [[[]|e] s3] eqn:Hs; [|done].
      destruct (Hsched s3 eq_refl) as [Hm3 Ht3].
      unfold bind, logger_info, ret. intros [= <-].
      cbn [prisma with_logs]. rewrite Hm3, Ht3, Hm1, Ht1, app_nil_r.
      repeat split; try done; constructor. }
  assert (filter (λ m, TaskGroupMember.groupId m = TaskGroup.id group)
                 (taskGroupMembers (prisma s')) = new_rows (TaskGroup.id group) 0 taskIds)
    as Hfilter.
  { by rewrite Hrows, filter_app, filter_group_none, filter_group_new_rows. }
  destruct (new_rows_joined (TaskGroup.id group) (prisma s') taskIds 0%nat)
    as (joined & Hj & Hjids & Hjpos & Hjtasks); [by rewrite Htasks|].
  rewrite memberships_of_eq, Hfilter, Hj.
  rewrite (sort_by_sortOrder_sorted_id joined) by (by eapply consecutive_sorted).
  rewrite Htasks in Hjtasks. done.
Qed.

Lemma sort_by_sortOrder_strongly_sorted l :
  StronglySorted by_sortOrder (sort_by_sortOrder l).
Proof.
  apply Sorted_StronglySorted; [|apply sort_by_sortOrder_sorted].
  intros a b c. unfold by_sortOrder. lia.
Qed.

Lemma insert_by_sortOrder_front a l :
  (∀ y, y ∈ l → by_sortOrder a y) → insert_by_sortOrder a l = a :: l.
Proof.
  destruct l as [|b l]; [done|]. intros Hle. simpl.
  specialize (Hle b (list_elem_of_here b l)). unfold by_sortOrder in Hle.
  destruct (Z.leb_spec (TaskGroupMemberWithTask.sortOrder a
                        - TaskGroupMemberWithTask.sortOrder b) 0); [done|lia].
Qed.

Lemma filter_insert_by_sortOrder_out (P : TaskGroupMemberWithTask.t → Prop)
    `{!∀ x, Decision (P x)} a l :
  ¬ P a → filter P (insert_by_sortOrder a l) = filter P l.
Proof.
  intros Ha. induction l as [|b l IH]; simpl.
  - by rewrite filter_cons, decide_False.
  - case_match.
    + by rewrite (filter_cons _ a), decide_False.
    + by rewrite !(filter_cons _ b), IH.
Qed.

Lemma filter_insert_by_sortOrder_in (P : TaskGroupMemberWithTask.t → Prop)
    `{!∀ x, Decision (P x)} a l :
  StronglySorted by_sortOrder l → P a →
  filter P (insert_by_sortOrder a l) = insert_by_sortOrder a (filter P l).
Proof.
  intros Hl Ha. induction Hl as [|b l Hl IH Hb]; simpl.
  - by rewrite filter_cons, decide_True.
  - destruct (Z.leb_spec (TaskGroupMemberWithTask.sortOrder a
                          - TaskGroupMemberWithTask.sortOrder b) 0) as [Hab|Hab].
    + rewrite (filter_cons _ a), decide_True by done.
      symmetry. apply insert_by_sortOrder_front.
      intros y [_ Hy]%list_elem_of_filter.
      apply elem_of_cons in Hy as [->|Hy]; unfold by_sortOrder; [lia|].
      rewrite Forall_forall in Hb. specialize (Hb y Hy). unfold by_sortOrder in Hb. lia.
    + rewrite !(filter_cons _ b), IH. case_decide; [|done].
      simpl. destruct (Z.leb_spec (TaskGroupMemberWithTask.sortOrder a
                                   - TaskGroupMemberWithTask.sortOrder b) 0); [lia|done].
Qed.

(** Sorting commutes with leaving members out. *)
Lemma sort_by_sortOrder_filter (P : TaskGroupMemberWithTask.t → Prop)
    `{!∀ x, Decision (P x)} l :
  sort_by_sortOrder (filter P l) = filter P (sort_by_sortOrder l).
Proof.
  induction l as [|a l IH]; [done|].
  rewrite filter_cons. simpl. case_decide.
  - simpl. rewrite IH. symmetry. apply filter_insert_by_sortOrder_in; [|done].
    apply sort_by_sortOrder_strongly_sorted.
  - rewrite IH. symmetry. by apply filter_insert_by_sortOrder_out.
Qed.

Lemma omap_cons_eq {A B} (f : A → option B) x (l : list A) :
  omap f (x :: l) = match f x with Some y => y :: omap f l | None => omap f l end.
Proof. done. Qed.

Lemma omap_join_filter db (P : TaskGroupMember.t → Prop) `{!∀ x, Decision (P x)}
    (rows : list TaskGroupMember.t) :
  omap (join_task db) (filter P rows)
  = filter (λ m, P (TaskGroupMemberWithTask.base m)) (omap (join_task db) rows).
Proof.
  induction rows as [|r rows IH]; [done|].
  rewrite filter_cons, (omap_cons_eq _ r rows).
  destruct (join_task db r) as [x|] eqn:Hjoin.
  - assert (TaskGroupMemberWithTask.base x = r) as Hbase.
    { unfold join_task in Hjoin.
      destruct (tasks db !! TaskGroupMember.taskId r); [|done].
      by injection Hjoin as <-. }
    rewrite filter_cons, Hbase. case_decide; [|done].
    by rewrite omap_cons_eq, Hjoin, IH.
  - case_decide; [|done]. by rewrite omap_cons_eq, Hjoin.
Qed.

Lemma join_task_set_members rows db :
  join_task (set_taskGroupMembers rows db) = join_task db.
Proof. done. Qed.

Lemma is_membership_true groupId taskId m :
  is_membership groupId taskId m = true
  ↔ TaskGroupMember.groupId m = groupId ∧ TaskGroupMember.taskId m = taskId.
Proof.
  unfold is_membership. by rewrite andb_true_iff, !String.eqb_eq.
Qed.

(** X15.  [removeTask] of a task that is a member of the group returns
    normally: the run order of the group is the one before without that
    task, the positions of the remaining members are as they were, and the
    other groups, the tasks and the group rows are untouched. *)
Theorem removeTask_removes_member groupId taskId s :
  existsb (is_membership groupId taskId) (taskGroupMembers (prisma s)) = true →
  ∃ s',
    removeTask groupId taskId s = (Ok tt, s')
    ∧ memberships_of groupId (prisma s')
      = filter (λ m, TaskGroupMember.taskId (TaskGroupMemberWithTask.base m) ≠ taskId)
               (memberships_of groupId (prisma s))
    ∧ (∀ other, other ≠ groupId →
         memberships_of other (prisma s') = memberships_of other (prisma s))
    ∧ tasks (prisma s') = tasks (prisma s)
    ∧ taskGroups (prisma s') = taskGroups (prisma s)
    ∧ scheduledGroups s' = scheduledGroups s
    ∧ cronTasks s' = cronTasks s.
Proof.
  intros Hex. unfold removeTask, bind, db_write, taskGroupMember_delete, logger_info.
  rewrite Hex. eexists. split; [reflexivity|].
  cbn [prisma with_logs with_prisma]. split; [|split]; [| |done].
  - rewrite !memberships_of_eq.
    cbn [taskGroupMembers set_taskGroupMembers tasks].
    rewrite <- sort_by_sortOrder_filter. f_equal.
    rewrite join_task_set_members.
    etrans; [|exact (omap_join_filter (prisma s)
                       (λ m, TaskGroupMember.taskId m ≠ taskId)
                       (filter (λ m, TaskGroupMember.groupId m = groupId)
                               (taskGroupMembers (prisma s))))].
    f_equal. rewrite !list_filter_filter. apply list_filter_iff.
    intros m. split.
    + intros [Hg Hm]. split; [|done]. intros Ht.
      assert (is_membership groupId taskId m = true) by (by apply is_membership_true).
      congruence.
    + intros [Ht Hg]. split; [done|].
      destruct (is_membership groupId taskId m) eqn:Hm; [|done].
      apply is_membership_true in Hm as [_ ?]. done.
  - intros other Hne. rewrite !memberships_of_eq.
    cbn [taskGroupMembers set_taskGroupMembers tasks]. f_equal.
    rewrite join_task_set_members.
    f_equal. rewrite list_filter_filter. apply list_filter_iff.
    intros m. split; [by intros [? _]|]. intros Hg. split; [done|].
    destruct (is_membership groupId taskId m) eqn:Hm; [|done].
    apply is_membership_true in Hm as [? _]. congruence.
Qed.

(** *** Reordering *)

(** The rows after the loop of [reorderTasks] has rewritten the positions
    of [taskIds] from index [i] on. *)
Fixpoint reordered (groupId : string) (i : nat) (taskIds : list string)
    (rows : list TaskGroupMember.t) : list TaskGroupMember.t :=
  match taskIds with
  | [] => rows
  | taskId :: taskIds' =>
      reordered groupId (S i) taskIds'
        ((λ m, if is_membership groupId taskId m
               then TaskGroupMember.mk groupId taskId (Z.of_nat i) else m) <$> rows)
  end.

(** What the loop does to one row, when no id is listed twice. *)
Definition repositioned (groupId : string) (taskIds : list string) (i : nat)
    (m m' : TaskGroupMember.t) : Prop :=
  ((TaskGroupMember.groupId m ≠ groupId ∨ ¬ (TaskGroupMember.taskId m ∈ taskIds)) ∧ m' = m)
  ∨ ∃ k, taskIds !! k = Some (TaskGroupMember.taskId m)
         ∧ TaskGroupMember.groupId m = groupId
         ∧ m' = TaskGroupMember.mk groupId (TaskGroupMember.taskId m) (Z.of_nat (i + k)).

Lemma is_membership_reposition groupId taskId groupId' taskId' pos m :
  is_membership groupId taskId
    (if is_membership groupId' taskId' m
     then TaskGroupMember.mk groupId' taskId' pos else m)
  = is_membership groupId taskId m.
Proof.
  destruct (is_membership groupId' taskId' m) eqn:Hm; [|done].
  apply is_membership_true in Hm as [Hg Ht].
  unfold is_membership. cbn [TaskGroupMember.groupId TaskGroupMember.taskId].
  by rewrite Hg, Ht.
Qed.

Lemma existsb_reposition groupId taskId groupId' taskId' pos rows :
  existsb (is_membership groupId taskId)
    ((λ m, if is_membership groupId' taskId' m
           then TaskGroupMember.mk groupId' taskId' pos else m) <$> rows)
  = existsb (is_membership groupId taskId) rows.
Proof.
  induction rows as [|m rows IH]; [done|].
  rewrite fmap_cons. cbn [existsb]. by rewrite is_membership_reposition, IH.
Qed.

Lemma reorderTasks_loop_run groupId taskIds : ∀ i s,
  Forall (λ taskId,
            existsb (is_membership groupId taskId) (taskGroupMembers (prisma s)) = true)
         taskIds →
  ∃ s',
    reorderTasks_loop groupId i taskIds s = (Ok tt, s')
    ∧ taskGroupMembers (prisma s') = reordered groupId i taskIds (taskGroupMembers (prisma s))
    ∧ tasks (prisma s') = tasks (prisma s)
    ∧ taskGroups (prisma s') = taskGroups (prisma s)
    ∧ scheduledGroups s' = scheduledGroups s
    ∧ cronTasks s' = cronTasks s
    ∧ logs s' = logs s.
Proof.
  induction taskIds as [|taskId taskIds IH]; intros i s Hall.
  { by exists s. }
  inversion_clear Hall as [|?? Hm Hrest].
  cbn [reorderTasks_loop reordered]. unfold bind, db_write, taskGroupMember_update.
  rewrite Hm.
  set (s1 := with_prisma _ s).
  destruct (IH (S i) s1) as (s' & Hrun & Hrows & Ht & Hg & Hr & Hc & Hl).
  { cbn [s1 prisma with_prisma taskGroupMembers set_taskGroupMembers].
    eapply Forall_impl; [exact Hrest|]. intros t Ht. cbn beta.
    by rewrite existsb_reposition. }
  exists s'. by rewrite Hrun.
Qed.

Lemma reorderTasks_loop_ok groupId taskIds : ∀ i s s',
  reorderTasks_loop groupId i taskIds s = (Ok tt, s') →
  Forall (λ taskId,
            existsb (is_membership groupId taskId) (taskGroupMembers (prisma s)) = true)
         taskIds.
Proof.
  induction taskIds as [|taskId taskIds IH]; intros i s s'; [constructor|].
  cbn [reorderTasks_loop]. unfold bind, db_write, taskGroupMember_update.
  destruct (existsb _ (taskGroupMembers (prisma s))) eqn:Hm; [|done].
  intros Hrun. constructor; [done|].
  apply IH in Hrun. eapply Forall_impl; [exact Hrun|]. intros t. cbn beta.
  cbn [prisma with_prisma taskGroupMembers set_taskGroupMembers].
  by rewrite existsb_reposition.
Qed.

Lemma reorderTasks_loop_app groupId l1 l2 : ∀ i s,
  reorderTasks_loop groupId i (l1 ++ l2) s
  = (reorderTasks_loop groupId i l1 ;;;
     reorderTasks_loop groupId (i + length l1) l2) s.
Proof.
  induction l1 as [|t l1 IH]; intros i s.
  { cbn [app reorderTasks_loop length]. unfold bind, ret. by rewrite Nat.add_0_r. }
  cbn [app reorderTasks_loop length]. unfold bind.
  destruct (db_write _ s) as [[[]|e] s1]; [|done].
  rewrite IH. unfold bind. by replace (S i + length l1)%nat with (i + S (length l1))%nat by lia.
Qed.

Lemma reordered_spec groupId taskIds : ∀ i rows,
  NoDup taskIds →
  Forall2 (repositioned groupId taskIds i) rows (reordered groupId i taskIds rows).
Proof.
  induction taskIds as [|taskId taskIds IH]; intros i rows Hnodup.
  { cbn [reordered]. apply Forall2_same_length_lookup_2; [done|].
    intros j m m' Hm Hm'. left. split; [|congruence]. right. apply not_elem_of_nil. }
  apply NoDup_cons in Hnodup as [Hnotin Hnodup].
  cbn [reordered].
  match goal with |- Forall2 _ _ (reordered _ _ _ ?rows1) =>
    specialize (IH (S i) rows1 Hnodup) end.
  pose proof (proj1 (Forall2_fmap_l _ _ _ _) IH) as IH'.
  eapply Forall2_impl; [exact IH'|].
  intros m m'. cbn beta. unfold compose.
  destruct (is_membership groupId taskId m) eqn:Hmem.
  - apply is_membership_true in Hmem as [Hg Ht].
    intros [[_ ->]|(k & Hk & _)].
    + right. exists 0%nat. rewrite Ht, Nat.add_0_r. done.
    + cbn [TaskGroupMember.taskId] in Hk. apply list_elem_of_lookup_2 in Hk. done.
  - intros [[Hout ->]|(k & Hk & Hg & ->)].
    + left. split; [|done].
      destruct (decide (TaskGroupMember.groupId m = groupId)) as [Hg|Hg]; [|by left].
      right. intros [Heq|Hin]%elem_of_cons.
      * assert (is_membership groupId taskId m = true) by (by apply is_membership_true).
        congruence.
      * by destruct Hout.
    + right. exists (S k). split; [done|]. split; [done|].
      by replace (i + S k)%nat with (S i + k)%nat by lia.
Qed.

Lemma elem_of_new_rows groupId taskIds : ∀ i m,
  m ∈ new_rows groupId i taskIds
  ↔ ∃ k taskId, taskIds !! k = Some taskId
                ∧ m = TaskGroupMember.mk groupId taskId (Z.of_nat (i + k)).
Proof.
  induction taskIds as [|t taskIds IH]; intros i m; cbn [new_rows].
  { split; [by intros ?%elem_of_nil|]. by intros (k & taskId & ? & _). }
  rewrite elem_of_cons, IH. split.
  - intros [->|(k & taskId & Hk & ->)].
    + exists 0%nat, t. by rewrite Nat.add_0_r.
    + exists (S k), taskId. split; [done|].
      by replace (i + S k)%nat with (S i + k)%nat by lia.
  - intros ([|k] & taskId & Hk & ->).
    + left. injection Hk as ->. by rewrite Nat.add_0_r.
    + right. exists k, taskId. split; [done|].
      by replace (i + S k)%nat with (S i + k)%nat by lia.
Qed.

Lemma new_rows_taskIds groupId taskIds : ∀ i,
  TaskGroupMember.taskId <$> new_rows groupId i taskIds = taskIds.
Proof.
  induction taskIds as [|t taskIds IH]; intros i; [done|].
  cbn [new_rows]. by rewrite fmap_cons, IH.
Qed.

Lemma join_task_base db m x : join_task db m = Some x → TaskGroupMemberWithTask.base x = m.
Proof.
  unfold join_task. destruct (tasks db !! TaskGroupMember.taskId m); [|done].
  by intros [= <-].
Qed.

(** Two joined rows of [new_rows] at the same position are the same row. *)
Lemma joined_new_rows_inj db groupId taskIds i x1 x2 :
  x1 ∈ omap (join_task db) (new_rows groupId i taskIds) →
  x2 ∈ omap (join_task db) (new_rows groupId i taskIds) →
  TaskGroupMemberWithTask.sortOrder x1 = TaskGroupMemberWithTask.sortOrder x2 →
  x1 = x2.
Proof.
  intros (m1 & Hm1 & Hj1)%list_elem_of_omap (m2 & Hm2 & Hj2)%list_elem_of_omap Hpos.
  apply elem_of_new_rows in Hm1 as (k1 & t1 & Hk1 & ->).
  apply elem_of_new_rows in Hm2 as (k2 & t2 & Hk2 & ->).
  pose proof (join_task_base _ _ _ Hj1) as Hb1.
  pose proof (join_task_base _ _ _ Hj2) as Hb2.
  unfold TaskGroupMemberWithTask.sortOrder in Hpos. rewrite Hb1, Hb2 in Hpos.
  cbn [TaskGroupMember.sortOrder] in Hpos.
  assert (k1 = k2) as -> by lia.
  assert (t1 = t2) as -> by congruence.
  congruence.
Qed.

Lemma Forall2_filter_eq (R : TaskGroupMember.t → TaskGroupMember.t → Prop)
    (P : TaskGroupMember.t → Prop) `{!∀ x, Decision (P x)} l l' :
  Forall2 R l l' →
  (∀ m m', R m m' → (P m' → m' = m) ∧ (P m → m' = m)) →
  filter P l' = filter P l.
Proof.
  intros Hall HR. induction Hall as [|m m' l l' Hm _ IH]; [done|].
  rewrite !filter_cons, IH. destruct (HR m m' Hm) as [H1 H2].
  destruct (decide (P m')) as [Hp'|Hp'].
  - pose proof (H1 Hp') as Heq. subst m'. by rewrite decide_True.
  - destruct (decide (P m)) as [Hp|Hp]; [|done]. rewrite (H2 Hp) in Hp'. done.
Qed.

Lemma join_task_ext db db' : tasks db = tasks db' → join_task db = join_task db'.
Proof. unfold join_task. by intros ->. Qed.

Lemma by_sortOrder_transitive : Transitive by_sortOrder.
Proof. intros a b c. unfold by_sortOrder. lia. Qed.

(** X16.  A successful [reorderTasks] over a list that names every member
    of the group once makes that list the run order: the memberships of the
    group come back in the order of the list, at positions 0, 1, 2, ...;
    the other groups, the tasks, the group rows and the timers are
    untouched.  The store is assumed to hold each (group, task) pair once
    and a task for every listed id, as its keys require. *)
Theorem reorderTasks_sets_run_order groupId taskIds s s' :
  reorderTasks groupId taskIds s = (Ok tt, s') →
  NoDup taskIds →
  NoDup ((λ m, (TaskGroupMember.groupId m, TaskGroupMember.taskId m))
           <$> taskGroupMembers (prisma s)) →
  (∀ m, m ∈ taskGroupMembers (prisma s) → TaskGroupMember.groupId m = groupId →
        TaskGroupMember.taskId m ∈ taskIds) →
  Forall (λ taskId, is_Some (tasks (prisma s) !! taskId)) taskIds →
  (λ m, TaskGroupMember.taskId (TaskGroupMemberWithTask.base m))
    <$> memberships_of groupId (prisma s') = taskIds
  ∧ TaskGroupMemberWithTask.sortOrder <$> memberships_of groupId (prisma s')
    = Z.of_nat <$> seq 0 (length taskIds)
  ∧ (∀ other, other ≠ groupId →
       memberships_of other (prisma s') = memberships_of other (prisma s))
  ∧ tasks (prisma s') = tasks (prisma s)
  ∧ taskGroups (prisma s') = taskGroups (prisma s)
  ∧ scheduledGroups s' = scheduledGroups s
  ∧ cronTasks s' = cronTasks s.
Proof.
  intros Hrun Hnodup Hkeys Hcover Htasks.
  unfold reorderTasks in Hrun. unfold bind at 1 in Hrun.
  destruct (reorderTasks_loop groupId 0 taskIds s) as [[[]|e] s1] eqn:Hloop; [|done].
  pose proof (reorderTasks_loop_ok _ _ _ _ _ Hloop) as Hmem.
  destruct (reorderTasks_loop_run groupId taskIds 0 s Hmem)
    as (s1' & Hloop' & Hrows & Ht & Hg & Hr & Hc & _).
  rewrite Hloop in Hloop'. injection Hloop' as <-.
  unfold logger_info in Hrun. injection Hrun as <-. cbn [prisma with_logs].
  pose proof (reordered_spec groupId taskIds 0 (taskGroupMembers (prisma s)) Hnodup)
    as Hspec.
  rewrite <- Hrows in Hspec.
  assert (filter (λ m, TaskGroupMember.groupId m = groupId) (taskGroupMembers (prisma s1))
          ≡ₚ new_rows groupId 0 taskIds) as Hperm.
  { apply NoDup_Permutation.
    - apply NoDup_filter.
      apply (NoDup_fmap_1 (λ m, (TaskGroupMember.groupId m, TaskGroupMember.taskId m))).
      replace ((λ m, (TaskGroupMember.groupId m, TaskGroupMember.taskId m))
                 <$> taskGroupMembers (prisma s1))
        with ((λ m, (TaskGroupMember.groupId m, TaskGroupMember.taskId m))
                <$> taskGroupMembers (prisma s)); [done|].
      apply list_eq_Forall2, Forall2_fmap. eapply Forall2_impl; [exact Hspec|].
      intros m m' [[_ ->]|(k & _ & Hgm & ->)]; [done|]. cbn. by rewrite Hgm.
    - apply (NoDup_fmap_1 TaskGroupMember.taskId). by rewrite new_rows_taskIds.
    - intros x. rewrite list_elem_of_filter, elem_of_new_rows. split.
      + intros [Hgx Hin]. apply list_elem_of_lookup_1 in Hin as [j Hj].
        destruct (Forall2_lookup_r _ _ _ _ _ Hspec Hj) as (m & Hm & Hrel).
        apply list_elem_of_lookup_2 in Hm.
        destruct Hrel as [[Hout ->]|(k & Hk & Hgm & ->)].
        * destruct Hout as [Hout|Hout]; [done|]. destruct Hout. by apply Hcover.
        * by exists k, (TaskGroupMember.taskId m).
      + intros (k & taskId & Hk & ->). split; [done|].
        rewrite Forall_forall in Hmem.
        pose proof (Hmem taskId (list_elem_of_lookup_2 _ _ _ Hk)) as Hex.
        apply existsb_exists in Hex as (m & Hin & Hm).
        apply list_elem_of_In in Hin. apply is_membership_true in Hm as [Hgm Htm].
        apply list_elem_of_lookup_1 in Hin as [j Hj].
        destruct (Forall2_lookup_l _ _ _ _ _ Hspec Hj) as (m' & Hm' & Hrel).
        apply list_elem_of_lookup_2 in Hm'.
        destruct Hrel as [[Hout _]|(k' & Hk' & _ & ->)].
        * destruct Hout as [Hout|Hout]; [done|]. destruct Hout. rewrite Htm.
          by eapply list_elem_of_lookup_2.
        * rewrite Htm in Hk', Hm'.
          by rewrite (NoDup_lookup _ _ _ _ Hnodup Hk Hk'). }
  destruct (new_rows_joined groupId (prisma s1) taskIds 0%nat)
    as (joined & Hj & Hjids & Hjpos & _); [by rewrite Ht|].
  assert (sort_by_sortOrder
            (omap (join_task (prisma s1))
                  (filter (λ m, TaskGroupMember.groupId m = groupId)
                          (taskGroupMembers (prisma s1)))) = joined) as Hsorted.
  { apply (Sorted_unique_strong by_sortOrder (Transitive0 := by_sortOrder_transitive)).
    - intros x1 x2 H1 H2 H12 H21.
      apply (joined_new_rows_inj (prisma s1) groupId taskIds 0%nat).
      + by rewrite sort_by_sortOrder_perm, Hperm in H1.
      + by rewrite Hj.
      + unfold by_sortOrder in *. lia.
    - apply sort_by_sortOrder_sorted.
    - by eapply consecutive_sorted.
    - by rewrite sort_by_sortOrder_perm, Hperm, Hj. }
  rewrite memberships_of_eq, Hsorted.
  split; [done|]. split; [done|]. split; [|done].
  intros other Hne. rewrite !memberships_of_eq.
  rewrite (join_task_ext (prisma s1) (prisma s) Ht). do 2 f_equal.
  apply (Forall2_filter_eq (repositioned groupId taskIds 0)); [done|].
  intros m m' [[_ ->]|(k & _ & Hgm & ->)]; [done|].
  cbn [TaskGroupMember.groupId]. split; intros ?; congruence.
Qed.

(** X17.  [reorderTasks] is not all-or-nothing: when the list reaches an
    id that is not a member of the group, the call is rejected there, and
    the store is left as reordering the ids before it alone leaves it; no
    line is logged and the timers are untouched. *)
Theorem reorderTasks_stops_at_first_stranger groupId before taskId after s :
  Forall (λ t, existsb (is_membership groupId t) (taskGroupMembers (prisma s)) = true)
         before →
  existsb (is_membership groupId taskId) (taskGroupMembers (prisma s)) = false →
  ∃ s1 s',
    reorderTasks groupId before s = (Ok tt, s1)
    ∧ reorderTasks groupId (before ++ taskId :: after) s
      = (Throw (Error "Record to update not found."), s')
    ∧ prisma s' = prisma s1
    ∧ logs s' = logs s
    ∧ scheduledGroups s' = scheduledGroups s
    ∧ cronTasks s' = cronTasks s.
Proof.
  intros Hmem Hstranger.
  destruct (reorderTasks_loop_run groupId before 0 s Hmem)
    as (s1 & Hloop & Hrows & _ & _ & Hr & Hc & Hl).
  assert (existsb (is_membership groupId taskId) (taskGroupMembers (prisma s1)) = false)
    as Hstranger1.
  { rewrite Hrows. clear Hloop Hrows Hmem Hr Hc Hl.
    generalize 0%nat. revert Hstranger. generalize (taskGroupMembers (prisma s)).
    induction before as [|t before IH]; intros rows Hrows i; [done|].
    cbn [reordered]. apply IH. by rewrite existsb_reposition. }
  exists (with_logs (logs s1 ++ [(LogInfo, "Reordered tasks in group " +:+ groupId)]) s1), s1.
  split. { unfold reorderTasks, bind. by rewrite Hloop. }
  split; [|done].
  unfold reorderTasks. unfold bind at 1. rewrite reorderTasks_loop_app.
  unfold bind at 1. rewrite Hloop. cbn [reorderTasks_loop]. unfold bind at 1.
  unfold db_write, taskGroupMember_update. rewrite Hstranger1.
  by rewrite with_prisma_same.
Qed.

End Service.

(** ** A worked example

    An executor that rejects tasks of type ["command"] and resolves all
    others, over a world that is a clock in milliseconds; a validator that
    accepts expressions of five fields separated by single spaces; and a
    store with three groups. *)

Definition demo_executeTask (task : Task.t) (w : Z) : Outcome * Z :=
  if String.eqb (Task.type task) "command"
  then (Rejected (Error "Command failed"), w + 1)
  else (Resolved, w + 1).

Definition demo_now (w : Z) : Z := w.

Definition demo_sleep (ms : Z) (w : Z) : Z := w + ms.

Fixpoint count_spaces (s : string) : nat :=
  match s with
  | EmptyString => 0
  | String c s' => (if Ascii.eqb c Ascii.Space then 1 else 0) + count_spaces s'
  end.

Definition demo_validate (expr : string) : bool := (count_spaces expr =? 4)%nat.

Definition demo_gen_id (n : nat) : string := "group-" +:+ pretty n.

Definition demo_task (id type : string) (enabled : bool) : Task.t :=
  Task.mk id ("Task " +:+ id) type "srv-1" enabled "0 3 * * *" None
    (Server.mk "srv-1" "Survival").

Definition demo_group (id failureMode : string) (delayBetweenTasks : Z) : TaskGroup.t :=
  TaskGroup.mk id ("Group " +:+ id) None "0 3 * * *" failureMode delayBetweenTasks
    true None None None.

Definition demo_store : Store :=
  mkStore
    (list_to_map [("nightly", demo_group "nightly" "stop" 5);
                  ("weekly", demo_group "weekly" "continue" 5);
                  ("maintenance", demo_group "maintenance" "stop" 0)])
    (list_to_map [("backup", demo_task "backup" "backup" true);
                  ("purge", demo_task "purge" "command" true);
                  ("restart", demo_task "restart" "restart" true);
                  ("start", demo_task "start" "start" true);
                  ("announce", demo_task "announce" "command" false)])
    [TaskGroupMember.mk "nightly" "restart" 30;
     TaskGroupMember.mk "nightly" "backup" 10;
     TaskGroupMember.mk "nightly" "start" 40;
     TaskGroupMember.mk "nightly" "purge" 20;
     TaskGroupMember.mk "weekly" "backup" 1;
     TaskGroupMember.mk "weekly" "announce" 2;
     TaskGroupMember.mk "weekly" "restart" 3;
     TaskGroupMember.mk "maintenance" "announce" 0]
    [] 0.

Definition demo_state : Sys Z := mkSys demo_store [] [] [] 0 [].

Definition demo_member (groupId taskId type : string) (enabled : bool) (sortOrder : Z)
    : TaskGroupMemberWithTask.t :=
  TaskGroupMemberWithTask.mk (TaskGroupMember.mk groupId taskId sortOrder)
    (demo_task taskId type enabled).

Definition demo_nightly : TaskGroupWithMembers.t :=
  TaskGroupWithMembers.mk (demo_group "nightly" "stop" 5)
    [demo_member "nightly" "backup" "backup" true 10;
     demo_member "nightly" "purge" "command" true 20;
     demo_member "nightly" "restart" "restart" true 30;
     demo_member "nightly" "start" "start" true 40].

Definition demo_weekly : TaskGroupWithMembers.t :=
  TaskGroupWithMembers.mk (demo_group "weekly" "continue" 5)
    [demo_member "weekly" "backup" "backup" true 1;
     demo_member "weekly" "announce" "command" false 2;
     demo_member "weekly" "restart" "restart" true 3].

Definition demo_maintenance : TaskGroupWithMembers.t :=
  TaskGroupWithMembers.mk (demo_group "maintenance" "stop" 0)
    [demo_member "maintenance" "announce" "command" false 0].

(** A group whose expression has four fields. *)
Definition demo_malformed : TaskGroup.t :=
  TaskGroup.mk "broken" "Group broken" None "0 3 * *" "stop" 0 true None None None.

Definition demo_create : CreateData.t :=
  CreateData.mk "Hourly" None "0 * * * *" None None None (Some ["backup"; "restart"]).

Definition demo_created : TaskGroup.t :=
  TaskGroup.mk "group-0" "Hourly" None "0 * * * *" "stop" 0 true None None None.

(** An update that switches a group off. *)
Definition demo_disable : UpdateData.t :=
  UpdateData.mk None None None None None (Some false).

(** The state after [scheduleGroup] of the nightly group, twice. *)
Definition demo_registered : Sys Z :=
  (scheduleGroup demo_validate (demo_group "nightly" "stop" 5)
     (scheduleGroup demo_validate (demo_group "nightly" "stop" 5) demo_state).2).2.

Lemma demo_nightly_found :
  taskGroup_findUnique_include "nightly" (prisma demo_state) = Some demo_nightly.
Proof. vm_compute. reflexivity. Defined.

Lemma demo_weekly_found :
  taskGroup_findUnique_include "weekly" (prisma demo_state) = Some demo_weekly.
Proof. vm_compute. reflexivity. Defined.

Lemma demo_maintenance_found :
  taskGroup_findUnique_include "maintenance" (prisma demo_state) = Some demo_maintenance.
Proof. vm_compute. reflexivity. Defined.

Lemma demo_registered_inv : registry_inv demo_registered.
Proof.
  unfold demo_registered. apply scheduleGroup_inv, scheduleGroup_inv.
  split; intros ? ?; [intros (c & Hc & _)|]; done.
Defined.

(** The all-disabled group finalizes as failed. *)
Lemma executeGroup_final_status_witness :
  taskGroup_findUnique_include "maintenance" (prisma demo_state) = Some demo_maintenance
  ∧ ∃ ex s',
      executeGroup demo_executeTask demo_now demo_sleep "maintenance" demo_state = (Ok ex, s')
      ∧ TaskGroupExecution.status ex = "failed"
      ∧ TaskGroupExecution.tasksCompleted ex = 0%nat.
Proof.
  split; [exact demo_maintenance_found|].
  destruct (executeGroup_final_status demo_executeTask demo_now demo_sleep
              "maintenance" demo_state demo_maintenance demo_maintenance_found)
    as (ex & s' & results & Hrun & _ & _ & _ & _ & _ & _ & _ & _ & Hdisabled).
  exists ex, s'. split; [exact Hrun|].
  apply Hdisabled; [discriminate|]. repeat constructor.
Defined.

(** C1, as stated, fails: in the run of the group whose only member is
    disabled every member is skipped, and the run finalizes as [failed], not
    as [partial]. *)
Lemma all_skipped_run_is_failed :
  ∃ ex s' results,
    executeGroup demo_executeTask demo_now demo_sleep "maintenance" demo_state = (Ok ex, s')
    ∧ TaskGroupExecution.taskResults ex = Some results
    ∧ TaskResult.st <$> results = [TaskResult.skipped]
    ∧ TaskGroupExecution.status ex = "failed"
    ∧ TaskGroupExecution.status ex ≠ "partial".
Proof.
  eexists _, _, _. split; [vm_compute; reflexivity|].
  split; [reflexivity|]. split; [reflexivity|]. split; [reflexivity|]. discriminate.
Qed.

(** The nightly group: four enabled members in stop mode, the second of
    which fails. *)
Lemma failure_mode_semantics_witness :
  taskGroup_findUnique_include "nightly" (prisma demo_state) = Some demo_nightly
  ∧ ∃ ex s',
      executeGroup demo_executeTask demo_now demo_sleep "nightly" demo_state = (Ok ex, s')
      ∧ TaskGroupExecution.status ex = "partial"
      ∧ TaskGroupExecution.tasksCompleted ex = 1%nat
      ∧ TaskGroupExecution.tasksFailed ex = 1%nat
      ∧ TaskGroupExecution.tasksSkipped ex = 2%nat.
Proof.
  split; [exact demo_nightly_found|].
  destruct (failure_mode_semantics demo_executeTask demo_now demo_sleep
              "nightly" demo_state demo_nightly demo_nightly_found)
    as (ex & s' & results & evs & Hrun & Hres & _ & _ & _ & _ & Hfour).
  exists ex, s'. split; [exact Hrun|].
  assert (Hrun' := Hrun). vm_compute in Hrun'. injection Hrun' as Hex _.
  subst ex. injection Hres as Hres. subst results.
  apply Hfour; [reflexivity|reflexivity| |]; eexists; split; reflexivity.
Defined.

(** The weekly group: its second member is disabled. *)
Lemma disabled_member_is_skipped_witness :
  taskGroup_findUnique_include "weekly" (prisma demo_state) = Some demo_weekly
  ∧ ∃ ex s' results r,
      executeGroup demo_executeTask demo_now demo_sleep "weekly" demo_state = (Ok ex, s')
      ∧ TaskGroupExecution.taskResults ex = Some results
      ∧ results !! 1%nat = Some r
      ∧ TaskResult.st r = TaskResult.skipped
      ∧ TaskResult.error r = Some "Task is disabled".
Proof.
  split; [exact demo_weekly_found|].
  destruct (disabled_member_is_skipped demo_executeTask demo_now demo_sleep
              "weekly" demo_state demo_weekly demo_weekly_found)
    as (ex & s' & results & evs & Hrun & Hres & _ & Hdisabled).
  destruct (Hdisabled 1%nat (demo_member "weekly" "announce" "command" false 2)
              eq_refl eq_refl) as ((r & Hr & Hst & Herr) & _).
  exists ex, s', results, r. repeat split; assumption.
Defined.

(** The nightly group: the executor rejects the second member, which is
    recorded as failed with the message; the run goes on to the end. *)
Lemma executor_errors_are_recorded_witness :
  taskGroup_findUnique_include "nightly" (prisma demo_state) = Some demo_nightly
  ∧ ∃ ex s' results r,
      executeGroup demo_executeTask demo_now demo_sleep "nightly" demo_state = (Ok ex, s')
      ∧ TaskGroupExecution.taskResults ex = Some results
      ∧ length results = 4%nat
      ∧ taskGroupExecutions (prisma s') = [ex]
      ∧ results !! 1%nat = Some r
      ∧ TaskResult.st r = TaskResult.failed
      ∧ TaskResult.error r = Some "Command failed".
Proof.
  split; [exact demo_nightly_found|].
  destruct (executor_errors_are_recorded demo_executeTask demo_now demo_sleep
              "nightly" demo_state demo_nightly demo_nightly_found)
    as (ex & s' & results & Hrun & Hres & Hlen & Hrows & _ & _ & _ & Hturns & _).
  assert (Hrun' := Hrun). vm_compute in Hrun'. injection Hrun' as Hex _.
  subst ex. injection Hres as Hres. subst results.
  destruct (Hturns 1%nat (demo_member "nightly" "purge" "command" true 20) _
              eq_refl eq_refl) as (w & Hw & _ & _ & _ & Hcall).
  eexists _, s', _, _. split; [exact Hrun|]. split; [reflexivity|].
  split; [exact Hlen|]. split; [exact Hrows|]. split; [reflexivity|].
  exact (Hcall eq_refl eq_refl).
Defined.

Lemma executeGroup_not_found_witness :
  taskGroups (prisma demo_state) !! "monthly" = None
  ∧ executeGroup demo_executeTask demo_now demo_sleep "monthly" demo_state
    = (Throw (Error "Task group monthly not found"), demo_state).
Proof.
  split; [reflexivity|].
  exact (proj1 (executeGroup_not_found demo_executeTask demo_now demo_sleep
                  "monthly" demo_state eq_refl)).
Defined.

(** The weekly group has a delay of five seconds and is suspended once. *)
Lemma inter_task_delays_witness :
  taskGroup_findUnique_include "weekly" (prisma demo_state) = Some demo_weekly
  ∧ ∃ ex s' evs,
      executeGroup demo_executeTask demo_now demo_sleep "weekly" demo_state = (Ok ex, s')
      ∧ trace s' = evs
      ∧ delays evs = [5000].
Proof.
  split; [exact demo_weekly_found|].
  destruct (inter_task_delays demo_executeTask demo_now demo_sleep
              "weekly" demo_state demo_weekly demo_weekly_found)
    as (ex & s' & results & evs & Hrun & Hres & Htr & _ & _ & _ & Hpos & _).
  exists ex, s', evs. split; [exact Hrun|]. split; [exact Htr|].
  rewrite Hpos by reflexivity.
  assert (Hrun' := Hrun). vm_compute in Hrun'. injection Hrun' as Hex _.
  subst ex. injection Hres as Hres. subst results. reflexivity.
Defined.

(** C6, as stated, fails: the run of the weekly group, three members with
    [delayBetweenTasks = 5], is suspended once, not twice; no suspension
    follows its second member, which is disabled and not the last.  The run
    of the nightly group, four enabled members in stop mode, is suspended
    twice, not three times: no suspension follows its third member. *)
Lemma skipped_member_is_not_followed_by_delay :
  (∃ ex s',
     executeGroup demo_executeTask demo_now demo_sleep "weekly" demo_state = (Ok ex, s')
     ∧ TaskGroupExecution.tasksTotal ex = 3%nat
     ∧ trace s' = [EvExecute (demo_task "backup" "backup" true);
                   EvDelay 5000;
                   EvExecute (demo_task "restart" "restart" true)]
     ∧ length (delays (trace s')) = 1%nat)
  ∧ (∃ ex s',
       executeGroup demo_executeTask demo_now demo_sleep "nightly" demo_state = (Ok ex, s')
       ∧ TaskGroupExecution.tasksTotal ex = 4%nat
       ∧ trace s' = [EvExecute (demo_task "backup" "backup" true);
                     EvDelay 5000;
                     EvExecute (demo_task "purge" "command" true);
                     EvDelay 5000]
       ∧ length (delays (trace s')) = 2%nat).
Proof.
  split; eexists _, _; (split; [vm_compute; reflexivity|]); repeat split.
Qed.

Lemma executeGroup_results_per_member_witness :
  taskGroup_findUnique_include "nightly" (prisma demo_state) = Some demo_nightly
  ∧ ∃ ex s',
      executeGroup demo_executeTask demo_now demo_sleep "nightly" demo_state = (Ok ex, s')
      ∧ TaskGroupExecution.tasksTotal ex = 4%nat
      ∧ (TaskGroupExecution.tasksCompleted ex + TaskGroupExecution.tasksFailed ex
         + TaskGroupExecution.tasksSkipped ex)%nat = 4%nat.
Proof.
  split; [exact demo_nightly_found|].
  destruct (executeGroup_results_per_member demo_executeTask demo_now demo_sleep
              "nightly" demo_state demo_nightly demo_nightly_found)
    as (ex & s' & results & sorted & Hrun & _ & _ & _ & _ & _ & Htotal & Hsum & _).
  exists ex, s'. split; [exact Hrun|]. split; [exact Htotal|].
  rewrite Hsum. exact Htotal.
Defined.

Lemma invalid_cron_registers_nothing_witness :
  demo_validate (TaskGroup.cronExpression demo_malformed) = false
  ∧ scheduledGroups (scheduleGroup demo_validate demo_malformed demo_registered).2
    = scheduledGroups demo_registered
  ∧ cronTasks (scheduleGroup demo_validate demo_malformed demo_registered).2
    = cronTasks demo_registered.
Proof.
  split; [reflexivity|].
  destruct (invalid_cron_registers_nothing demo_validate demo_gen_id
              demo_malformed demo_registered eq_refl)
    as (_ & Hc & Hr & _).
  split; assumption.
Defined.

(** C7, as stated, fails: [scheduleGroup] of a group whose expression does
    not validate returns normally, with an error line in the log. *)
Lemma scheduleGroup_invalid_returns_normally :
  demo_validate (TaskGroup.cronExpression demo_malformed) = false
  ∧ scheduleGroup demo_validate demo_malformed demo_state
    = (Ok tt,
       with_logs [(LogError, "Invalid cron expression for task group Group broken: 0 3 * *")]
         demo_state).
Proof. split; reflexivity. Qed.

Lemma one_live_timer_per_group_witness :
  registry_inv demo_registered
  ∧ (∀ h, live demo_registered h "nightly" ↔ h = 1%nat)
  ∧ (∀ h, ¬ live (deleteGroup "nightly" demo_registered).2 h "nightly")
  ∧ taskGroups (prisma demo_registered) !! "nightly" = Some (demo_group "nightly" "stop" 5)
  ∧ update_rejected demo_validate demo_disable = false
  ∧ TaskGroup.enabled (apply_update demo_disable (demo_group "nightly" "stop" 5)) = false
  ∧ ∃ s',
      updateGroup demo_validate "nightly" demo_disable demo_registered
      = (Ok (apply_update demo_disable (demo_group "nightly" "stop" 5)), s')
      ∧ JsMap.get "nightly" (scheduledGroups s') = None
      ∧ (∀ h, ¬ live s' h "nightly")
      ∧ ScheduledTask.running <$> cronTasks s' !! 1%nat = Some false.
Proof.
  split; [exact demo_registered_inv|].
  pose proof (scheduleGroup_inv demo_validate (demo_group "nightly" "stop" 5) demo_state)
    as Hfirst.
  assert (taskGroups (prisma demo_registered) !! "nightly"
          = Some (demo_group "nightly" "stop" 5)) as Hrow by (vm_compute; reflexivity).
  split.
  { destruct (one_live_timer_per_group demo_validate demo_gen_id
                (scheduleGroup demo_validate (demo_group "nightly" "stop" 5) demo_state).2)
      as (_ & _ & Hnew & _).
    { apply Hfirst. split; intros ? ?; [intros (c & Hc & _)|]; done. }
    exact (proj1 (Hnew (demo_group "nightly" "stop" 5) eq_refl)). }
  destruct (one_live_timer_per_group demo_validate demo_gen_id demo_registered
              demo_registered_inv)
    as (_ & _ & _ & _ & _ & Hupdate & Hdelete & _).
  split; [exact (proj1 (proj2 (proj2 (Hdelete "nightly"))))|].
  split; [exact Hrow|]. split; [reflexivity|]. split; [reflexivity|].
  destruct (Hupdate "nightly" demo_disable (demo_group "nightly" "stop" 5)
              Hrow eq_refl eq_refl) as (s' & Hrun & Hget & Hnone & _).
  exists s'. split; [exact Hrun|]. split; [exact Hget|]. split; [exact Hnone|].
  assert (Hrun' := Hrun). vm_compute in Hrun'.
  pose proof (f_equal snd Hrun') as Hs'. cbn [snd] in Hs'. rewrite <- Hs'. reflexivity.
Defined.

Lemma createGroup_defaults_witness :
  createGroup demo_validate demo_gen_id demo_create demo_state
  = (Ok demo_created,
     (createGroup demo_validate demo_gen_id demo_create demo_state).2)
  ∧ TaskGroup.failureMode demo_created = "stop"
  ∧ TaskGroup.delayBetweenTasks demo_created = 0
  ∧ TaskGroup.enabled demo_created = true
  ∧ JsMap.get "group-0"
      (scheduledGroups (createGroup demo_validate demo_gen_id demo_create demo_state).2)
    = Some 0%nat.
Proof.
  assert (createGroup demo_validate demo_gen_id demo_create demo_state
          = (Ok demo_created,
             (createGroup demo_validate demo_gen_id demo_create demo_state).2)) as Hrun
    by (vm_compute; reflexivity).
  split; [exact Hrun|].
  destruct (createGroup_defaults demo_validate demo_gen_id demo_create demo_state
              demo_created _ Hrun)
    as (_ & Hmode & _ & Hdelay & _ & Henabled & _ & Harmed & _).
  split; [exact (Hmode eq_refl)|]. split; [exact (Hdelay eq_refl)|].
  split; [exact (Henabled eq_refl)|].
  destruct (Harmed (Henabled eq_refl)) as (old & _ & _ & Hget). exact Hget.
Defined.


(** * The task-group form and the automation page

    The pure parts of [TaskGroupModal.tsx] and [AutomationPage.tsx]: the
    schedule presets, the two fields of the form that hold the schedule,
    and the list of selected task ids with its edits.  A state setter
    called with a value computed from the current state is the function
    from the current state to the new one. *)

Module TaskGroupModal.

Record Preset := mkPreset { label : string; value : string }.

Definition CRON_PRESETS : list Preset :=
  [ mkPreset "Every 5 minutes" "*/5 * * * *";
    mkPreset "Every 15 minutes" "*/15 * * * *";
    mkPreset "Every 30 minutes" "*/30 * * * *";
    mkPreset "Every hour" "0 * * * *";
    mkPreset "Every 6 hours" "0 */6 * * *";
    mkPreset "Daily at midnight" "0 0 * * *";
    mkPreset "Daily at noon" "0 12 * * *";
    mkPreset "Weekly on Sunday" "0 0 * * 0";
    mkPreset "Weekly on Monday" "0 0 * * 1";
    mkPreset "Custom" "custom" ].

(** The two state variables that hold the schedule. *)
Record CronFields := mkCronFields { cronPreset : string; customCron : string }.

(** The effect run when the form opens on a group: the part that fills the
    schedule fields from [editGroup.cronExpression]. *)
Definition populate_cron (cronExpression : string) : CronFields :=
  let preset := List.find (λ p, String.eqb (value p) cronExpression) CRON_PRESETS in
  if match preset with
     | Some p => negb (String.eqb (value p) "custom")
     | None => false
     end
  then mkCronFields cronExpression ""
  else mkCronFields "custom" cronExpression.

(** The constant [cronExpression] of [handleSubmit]: the expression that
    [handleSubmit] goes on to check. *)
Definition cronExpression (f : CronFields) : string :=
  if String.eqb (cronPreset f) "custom" then customCron f else cronPreset f.

(** [selectedTaskIds] and its edits. *)
Definition toggleTaskSelection (selectedTaskIds : list string) (taskId : string)
    : list string :=
  if decide (taskId ∈ selectedTaskIds)
  then filter (λ id, id ≠ taskId) selectedTaskIds
  else selectedTaskIds ++ [taskId].

Definition removeTask (selectedTaskIds : list string) (taskId : string) : list string :=
  filter (λ id, id ≠ taskId) selectedTaskIds.

(** A JavaScript array of strings: reading outside the array gives
    [undefined] ([None]), and writing outside extends it. *)
Definition js_get (a : list (option string)) (i : nat) : option string :=
  default None (a !! i).

Definition js_set (a : list (option string)) (i : nat) (v : option string)
    : list (option string) :=
  if decide (i < length a)%nat then <[i := v]> a
  else a ++ replicate (i - length a) None ++ [v].

Definition moveTaskUp (selectedTaskIds : list (option string)) (index : nat)
    : list (option string) :=
  if decide (index = 0%nat) then selectedTaskIds
  else
    let newOrder := selectedTaskIds in
    let first := js_get newOrder index in
    let second := js_get newOrder (index - 1) in
    js_set (js_set newOrder (index - 1) first) index second.

Definition moveTaskDown (selectedTaskIds : list (option string)) (index : nat)
    : list (option string) :=
  if decide (Z.of_nat index = Z.of_nat (length selectedTaskIds) - 1) then selectedTaskIds
  else
    let newOrder := selectedTaskIds in
    let first := js_get newOrder (index + 1) in
    let second := js_get newOrder index in
    js_set (js_set newOrder index first) (index + 1) second.

(** The two columns of the task picker. *)
Section Picker.
Context {ScheduledTask : Type} (id : ScheduledTask → string).

Definition selectedTasks (availableTasks : list ScheduledTask)
    (selectedTaskIds : list string) : list ScheduledTask :=
  omap (λ i, List.find (λ t, String.eqb (id t) i) availableTasks) selectedTaskIds.

Definition unselectedTasks (availableTasks : list ScheduledTask)
    (selectedTaskIds : list string) : list ScheduledTask :=
  filter (λ t, ¬ (id t ∈ selectedTaskIds)) availableTasks.

Lemma find_id_Some availableTasks i t :
  List.find (λ t, String.eqb (id t) i) availableTasks = Some t →
  t ∈ availableTasks ∧ id t = i.
Proof.
  intros [Hin Heq]%find_some. split; [by apply list_elem_of_In|].
  by apply String.eqb_eq.
Qed.

Lemma find_id_unique availableTasks t :
  NoDup (id <$> availableTasks) → t ∈ availableTasks →
  List.find (λ t', String.eqb (id t') (id t)) availableTasks = Some t.
Proof.
  induction availableTasks as [|a l IH]; [by intros _ ?%elem_of_nil|].
  rewrite fmap_cons. intros [Hnotin Hnodup]%NoDup_cons Hin. cbn [List.find].
  destruct (String.eqb_spec (id a) (id t)) as [Heq|Hne].
  - apply elem_of_cons in Hin as [->|Hin]; [done|].
    destruct Hnotin. rewrite Heq. apply list_elem_of_fmap. by exists t.
  - apply elem_of_cons in Hin as [->|Hin]; [done|]. by apply IH.
Qed.

Lemma elem_of_selectedTasks availableTasks selectedTaskIds t :
  NoDup (id <$> availableTasks) →
  t ∈ selectedTasks availableTasks selectedTaskIds
  ↔ t ∈ availableTasks ∧ id t ∈ selectedTaskIds.
Proof.
  intros Hnodup. unfold selectedTasks. rewrite list_elem_of_omap. split.
  - intros (i & Hi & [Hin <-]%find_id_Some). done.
  - intros [Hin Hi]. exists (id t). split; [done|]. by apply find_id_unique.
Qed.

Lemma selectedTasks_ids availableTasks selectedTaskIds :
  id <$> selectedTasks availableTasks selectedTaskIds
  = filter (λ i, i ∈ id <$> availableTasks) selectedTaskIds.
Proof.
  unfold selectedTasks.
  induction selectedTaskIds as [|i ids IH]; [done|].
  rewrite omap_cons_eq, filter_cons.
  destruct (List.find _ availableTasks) as [t|] eqn:Hfind.
  - apply find_id_Some in Hfind as [Hin <-].
    rewrite decide_True by (apply list_elem_of_fmap; by exists t).
    by rewrite fmap_cons, IH.
  - rewrite decide_False; [done|].
    intros (t & -> & Hin)%list_elem_of_fmap.
    apply list_elem_of_In in Hin.
    pose proof (find_none _ _ Hfind t Hin) as Hne. cbn beta in Hne.
    by rewrite String.eqb_refl in Hne.
Qed.

(** X18.  The two columns of the task picker split the available tasks:
    when the available tasks have different ids and no id is selected
    twice, every available task is in exactly one column, and the selected
    column shows the selected ids in their order, without those that name
    no available task. *)
Theorem picker_columns_partition availableTasks selectedTaskIds :
  NoDup (id <$> availableTasks) →
  NoDup selectedTaskIds →
  selectedTasks availableTasks selectedTaskIds
    ++ unselectedTasks availableTasks selectedTaskIds ≡ₚ availableTasks
  ∧ id <$> selectedTasks availableTasks selectedTaskIds
    = filter (λ i, i ∈ id <$> availableTasks) selectedTaskIds.
Proof.
  intros Havail Hsel. split; [|apply selectedTasks_ids].
  assert (NoDup availableTasks) as Hnodup by (by eapply NoDup_fmap_1).
  apply NoDup_Permutation; [|done|].
  - apply NoDup_app. split; [|split].
    + apply (NoDup_fmap_1 id). rewrite selectedTasks_ids. by apply NoDup_filter.
    + intros t [_ Hin]%elem_of_selectedTasks; [|done].
      unfold unselectedTasks. rewrite list_elem_of_filter. by intros [Hout _].
    + by apply NoDup_filter.
  - intros t. rewrite elem_of_app, elem_of_selectedTasks by done.
    unfold unselectedTasks. rewrite list_elem_of_filter. split.
    + by intros [[? _]|[_ ?]].
    + intros Hin. destruct (decide (id t ∈ selectedTaskIds)); [by left|by right].
Qed.

End Picker.

(** *** Opening and submitting the form *)

Lemma populate_cron_round_trip (expr : string) :
  cronExpression (populate_cron expr) = expr
  ∧ cronPreset (populate_cron expr) ∈ value <$> CRON_PRESETS.
Proof.
  unfold populate_cron.
  destruct (List.find _ CRON_PRESETS) as [p|] eqn:Hfind.
  - apply find_some in Hfind as [Hin Heq]. apply String.eqb_eq in Heq.
    destruct (String.eqb_spec (value p) "custom") as [Hc|Hc]; cbn [negb].
    + split; [done|]. apply list_elem_of_fmap. exists p.
      split; [done|]. by apply list_elem_of_In.
    + unfold cronExpression. cbn [cronPreset customCron]. rewrite <- Heq.
      destruct (String.eqb_spec (value p) "custom"); [done|].
      split; [done|]. apply list_elem_of_fmap. exists p.
      split; [done|]. by apply list_elem_of_In.
  - split; [done|]. vm_compute. do 9 apply list_elem_of_further. apply list_elem_of_here.
Qed.

Section Form.

(** [String.prototype.trim] and [String.prototype.split] with the pattern
    [/\s+/], of the JavaScript library. *)
Variable js_trim : string → string.
Variable js_split_whitespace : string → list string.

Definition isValidCron (cron : string) : bool :=
  let parts := js_split_whitespace (js_trim cron) in
  (length parts =? 5)%nat.

(** The state variables of the form that [handleSubmit] reads. *)
Record Form := mkForm {
  name : string;
  description : string;
  schedule : CronFields;
  failureMode : string;
  delayBetweenTasks : Z;
  selectedTaskIds : list string
}.

(** The effect run when the form opens on [editGroup], a group as the
    service returns it. *)
Definition populate (editGroup : TaskGroupWithMembers.t) : Form :=
  let group := TaskGroupWithMembers.base editGroup in
  let orderedTaskIds :=
    (λ m, TaskGroupMember.taskId (TaskGroupMemberWithTask.base m))
      <$> sort_by_sortOrder (TaskGroupWithMembers.taskMemberships editGroup) in
  mkForm (TaskGroup.name group)
    (js_or (λ d, String.eqb d "") (TaskGroup.description group) "")
    (populate_cron (TaskGroup.cronExpression group))
    (TaskGroup.failureMode group)
    (TaskGroup.delayBetweenTasks group)
    orderedTaskIds.

(** What [handleSubmit] does with the form: it shows an error and sends
    nothing, or calls [onUpdate] or [onSubmit] with these arguments. *)
Inductive Submitted :=
  | SetError (message : string)
  | OnUpdate (groupId name : string) (description : option string)
      (cronExpression failureMode : string) (delayBetweenTasks : Z)
  | OnSubmit (name : string) (description : option string)
      (cronExpression failureMode : string) (delayBetweenTasks : Z)
      (enabled : bool) (taskIds : list string).

(** [handleSubmit] up to the call of [onUpdate] or [onSubmit]; [onUpdate]
    says whether the optional [onUpdate] was passed to the form. *)
Definition handleSubmit (editGroup : option TaskGroupWithMembers.t) (onUpdate : bool)
    (form : Form) : Submitted :=
  if String.eqb (js_trim (name form)) "" then SetError "Please enter a group name"
  else
    let cronExpression := cronExpression (schedule form) in
    if String.eqb cronExpression "" || negb (isValidCron cronExpression)
    then SetError "Please enter a valid cron expression"
    else if (length (selectedTaskIds form) =? 0)%nat
    then SetError "Please select at least one task"
    else
      let description :=
        if String.eqb (description form) "" then None else Some (description form) in
      match editGroup with
      | Some group =>
          if onUpdate
          then OnUpdate (TaskGroup.id (TaskGroupWithMembers.base group)) (name form)
                 description cronExpression (failureMode form) (delayBetweenTasks form)
          else OnSubmit (name form) description cronExpression (failureMode form)
                 (delayBetweenTasks form) true (selectedTaskIds form)
      | None =>
          OnSubmit (name form) description cronExpression (failureMode form)
            (delayBetweenTasks form) true (selectedTaskIds form)
      end.

(** X19.  When the form is opened on a group and submitted unchanged, the
    expression that [handleSubmit] checks is the group's own cron
    expression, whatever it is, and the preset field holds the value of one
    of the listed presets.  The update is sent exactly when the name is not
    blank, the expression is not empty and has five fields, and the group
    has a member; it then carries the group's id, name, expression,
    failure mode and delay, and its description unless that is empty.
    When the expression is empty or has not five fields, nothing is sent
    and the error of the schedule field is shown.  Whatever is sent
    carries the group's own expression. *)
Theorem populate_then_submit_keeps_cron (editGroup : TaskGroupWithMembers.t) :
  let group := TaskGroupWithMembers.base editGroup in
  let expr := TaskGroup.cronExpression group in
  let form := populate editGroup in
  cronExpression (schedule form) = expr
  ∧ cronPreset (schedule form) ∈ value <$> CRON_PRESETS
  ∧ (js_trim (TaskGroup.name group) ≠ "" →
     expr ≠ "" → isValidCron expr = true →
     TaskGroupWithMembers.taskMemberships editGroup ≠ [] →
     handleSubmit (Some editGroup) true form
     = OnUpdate (TaskGroup.id group) (TaskGroup.name group)
         (match TaskGroup.description group with
          | Some d => if String.eqb d "" then None else Some d
          | None => None
          end)
         expr (TaskGroup.failureMode group) (TaskGroup.delayBetweenTasks group))
  ∧ (∀ onUpdate groupId n d sent fm delay,
       handleSubmit (Some editGroup) onUpdate form = OnUpdate groupId n d sent fm delay →
       js_trim (TaskGroup.name group) ≠ ""
       ∧ expr ≠ "" ∧ isValidCron expr = true
       ∧ TaskGroupWithMembers.taskMemberships editGroup ≠ []
       ∧ sent = expr)
  ∧ (js_trim (TaskGroup.name group) ≠ "" →
     expr = "" ∨ isValidCron expr = false →
     ∀ onUpdate,
       handleSubmit (Some editGroup) onUpdate form
       = SetError "Please enter a valid cron expression")
  ∧ (∀ onUpdate n d sent fm delay enabled taskIds,
       handleSubmit (Some editGroup) onUpdate form = OnSubmit n d sent fm delay enabled taskIds →
       onUpdate = false ∧ sent = expr ∧ expr ≠ "" ∧ isValidCron expr = true).
Proof.
  intros group expr form.
  destruct (populate_cron_round_trip expr) as [Hcron Hpreset].
  assert (length (selectedTaskIds form)
          = length (TaskGroupWithMembers.taskMemberships editGroup)) as Hlen.
  { unfold form, populate. cbn [selectedTaskIds].
    rewrite length_fmap. apply Permutation_length, sort_by_sortOrder_perm. }
  assert (∀ onUpdate,
            handleSubmit (Some editGroup) onUpdate form
            = if String.eqb (js_trim (TaskGroup.name group)) ""
              then SetError "Please enter a group name"
              else if String.eqb expr "" || negb (isValidCron expr)
              then SetError "Please enter a valid cron expression"
              else if (length (TaskGroupWithMembers.taskMemberships editGroup) =? 0)%nat
              then SetError "Please select at least one task"
              else
                let d := match TaskGroup.description group with
                         | Some d => if String.eqb d "" then None else Some d
                         | None => None
                         end in
                if onUpdate
                then OnUpdate (TaskGroup.id group) (TaskGroup.name group) d expr
                       (TaskGroup.failureMode group) (TaskGroup.delayBetweenTasks group)
                else OnSubmit (TaskGroup.name group) d expr
                       (TaskGroup.failureMode group) (TaskGroup.delayBetweenTasks group)
                       true (selectedTaskIds form)) as Hsubmit.
  { intros onUpdate. unfold handleSubmit. rewrite Hlen.
    change (schedule form) with (populate_cron expr). rewrite Hcron.
    change (name form) with (TaskGroup.name group).
    change (failureMode form) with (TaskGroup.failureMode group).
    change (delayBetweenTasks form) with (TaskGroup.delayBetweenTasks group).
    change (description form)
      with (js_or (λ d, String.eqb d "") (TaskGroup.description group) "").
    destruct (String.eqb (js_trim (TaskGroup.name group)) ""); [done|].
    destruct (String.eqb expr "" || negb (isValidCron expr)); [done|].
    destruct (length (TaskGroupWithMembers.taskMemberships editGroup) =? 0)%nat; [done|].
    cbn zeta. unfold js_or.
    destruct (TaskGroup.description group) as [d|]; [|done].
    destruct (String.eqb d "") eqn:Hd; [done|]. by rewrite Hd. }
  assert (TaskGroupWithMembers.taskMemberships editGroup ≠ []
          ↔ (length (TaskGroupWithMembers.taskMemberships editGroup) =? 0)%nat = false)
    as Hmembers.
  { destruct (TaskGroupWithMembers.taskMemberships editGroup); simpl; split; done. }
  split; [exact Hcron|]. split; [exact Hpreset|]. split.
  { intros Hname Hexpr Hvalid Hmem. rewrite Hsubmit.
    rewrite (proj2 (String.eqb_neq _ _) Hname), (proj2 (String.eqb_neq _ _) Hexpr), Hvalid.
    cbn [orb negb]. by rewrite (proj1 Hmembers Hmem). }
  split.
  { intros onUpdate groupId n d sent fm delay. rewrite Hsubmit.
    destruct (String.eqb_spec (js_trim (TaskGroup.name group)) "") as [|Hname]; [done|].
    destruct (String.eqb_spec expr "") as [|Hexpr]; [done|]. cbn [orb].
    destruct (isValidCron expr); [|done]. cbn [negb].
    destruct (length (TaskGroupWithMembers.taskMemberships editGroup) =? 0)%nat eqn:Hmem;
      [done|].
    cbn zeta. destruct onUpdate; [|done]. intros [= _ _ _ <- _ _].
    split; [done|]. split; [done|]. split; [done|]. split; [|done]. by apply Hmembers. }
  split.
  { intros Hname Hbad onUpdate. rewrite Hsubmit.
    rewrite (proj2 (String.eqb_neq _ _) Hname).
    destruct Hbad as [->|Hbad]; [done|]. rewrite Hbad. by rewrite orb_true_r. }
  intros onUpdate n d sent fm delay enabled taskIds. rewrite Hsubmit.
  destruct (String.eqb (js_trim (TaskGroup.name group)) ""); [done|].
  destruct (String.eqb_spec expr "") as [|Hexpr]; [done|]. cbn [orb].
  destruct (isValidCron expr); [|done]. cbn [negb].
  destruct (length (TaskGroupWithMembers.taskMemberships editGroup) =? 0)%nat; [done|].
  cbn zeta. destruct onUpdate; [done|]. by intros [= _ _ <- _ _ _ _].
Qed.

End Form.

(** X20.  Clicking a task in the picker never selects an id twice: the
    selection stays free of duplicates, the clicked id changes sides, the
    other ids keep their places, and a newly selected id goes last. *)
Theorem toggleTaskSelection_flips_one selectedTaskIds taskId :
  NoDup selectedTaskIds →
  NoDup (toggleTaskSelection selectedTaskIds taskId)
  ∧ (taskId ∈ toggleTaskSelection selectedTaskIds taskId ↔ ¬ (taskId ∈ selectedTaskIds))
  ∧ removeTask (toggleTaskSelection selectedTaskIds taskId) taskId
    = removeTask selectedTaskIds taskId
  ∧ (¬ (taskId ∈ selectedTaskIds) →
     toggleTaskSelection selectedTaskIds taskId = selectedTaskIds ++ [taskId]
     ∧ toggleTaskSelection (toggleTaskSelection selectedTaskIds taskId) taskId
       = selectedTaskIds).
Proof.
  intros Hnodup. unfold toggleTaskSelection at 1 2 3 4, removeTask.
  destruct (decide (taskId ∈ selectedTaskIds)) as [Hin|Hout].
  - split; [by apply NoDup_filter|]. split.
    + rewrite list_elem_of_filter. split; [by intros [? _]|done].
    + split; [|done]. rewrite list_filter_filter. apply list_filter_iff.
      intros i. split; [by intros [? _]|done].
  - assert (filter (λ id, id ≠ taskId) selectedTaskIds = selectedTaskIds) as Hsame.
    { clear Hnodup. induction selectedTaskIds as [|i ids IH]; [done|].
      apply not_elem_of_cons in Hout as [Hne Hout].
      by rewrite filter_cons, decide_True, IH by done. }
    split.
    { apply NoDup_app. split; [done|]. split; [|apply NoDup_singleton].
      by intros i Hi ->%list_elem_of_singleton. }
    split.
    { split; [done|]. intros _. apply elem_of_app. right. apply list_elem_of_here. }
    split.
    { by rewrite filter_app, filter_cons, decide_False, filter_nil, app_nil_r by auto. }
    intros _. split; [done|]. unfold toggleTaskSelection.
    destruct (decide (taskId ∈ selectedTaskIds)); [done|].
    rewrite decide_True by (apply elem_of_app; right; apply list_elem_of_here).
    by rewrite filter_app, filter_cons, decide_False, filter_nil, app_nil_r, Hsame by auto.
Qed.

Lemma js_get_first (before : list (option string)) u rest :
  js_get (before ++ u :: rest) (length before) = u.
Proof. unfold js_get. by rewrite list_lookup_middle. Qed.

Lemma js_get_second (before : list (option string)) u v rest :
  js_get (before ++ u :: v :: rest) (S (length before)) = v.
Proof.
  unfold js_get. rewrite lookup_app_r by lia.
  by replace (S (length before) - length before)%nat with 1%nat by lia.
Qed.

Lemma js_set_first (before : list (option string)) u rest w :
  js_set (before ++ u :: rest) (length before) w = before ++ w :: rest.
Proof.
  unfold js_set. rewrite decide_True by (rewrite length_app; simpl; lia).
  by rewrite insert_app_r_alt, Nat.sub_diag by lia.
Qed.

Lemma js_set_second (before : list (option string)) u v rest w :
  js_set (before ++ u :: v :: rest) (S (length before)) w = before ++ u :: w :: rest.
Proof.
  unfold js_set. rewrite decide_True by (rewrite length_app; simpl; lia).
  rewrite insert_app_r_alt by lia.
  by replace (S (length before) - length before)%nat with 1%nat by lia.
Qed.

(** X21.  The arrows of the selected column swap two neighbours and
    nothing else: "up" on a row and "down" on the row above it give the
    same list, so each undoes the other; "up" on the first row and "down"
    on the last row change nothing. *)
Theorem move_task_swaps_neighbours (before after : list string) (a b : string) :
  let ids := Some <$> (before ++ a :: b :: after) in
  let swapped := Some <$> (before ++ b :: a :: after) in
  moveTaskUp ids (S (length before)) = swapped
  ∧ moveTaskDown ids (length before) = swapped
  ∧ moveTaskDown (moveTaskUp ids (S (length before))) (length before) = ids
  ∧ moveTaskUp ids 0 = ids
  ∧ moveTaskDown ids (length ids - 1) = ids.
Proof.
  intros ids swapped.
  assert (∀ x y, moveTaskUp (Some <$> (before ++ x :: y :: after)) (S (length before))
                 = Some <$> (before ++ y :: x :: after)) as Hup.
  { intros x y. unfold moveTaskUp. rewrite decide_False by lia. cbn zeta.
    rewrite !fmap_app, !fmap_cons, <- (length_fmap Some before).
    replace (S (length (Some <$> before)) - 1)%nat with (length (Some <$> before)) by lia.
    by rewrite js_get_first, js_get_second, js_set_first, js_set_second. }
  assert (∀ x y, moveTaskDown (Some <$> (before ++ x :: y :: after)) (length before)
                 = Some <$> (before ++ y :: x :: after)) as Hdown.
  { intros x y. unfold moveTaskDown.
    rewrite decide_False by (rewrite length_fmap, length_app; simpl; lia). cbn zeta.
    rewrite !fmap_app, !fmap_cons, <- (length_fmap Some before).
    replace (length (Some <$> before) + 1)%nat with (S (length (Some <$> before))) by lia.
    by rewrite js_get_first, js_get_second, js_set_first, js_set_second. }
  split; [apply Hup|]. split; [apply Hdown|]. split.
  { subst ids. by rewrite Hup, Hdown. }
  split; [done|]. unfold moveTaskDown. rewrite decide_True; [done|].
  subst ids. rewrite length_fmap, length_app. simpl. lia.
Qed.

End TaskGroupModal.

Module AutomationPage.

Definition formatCron (cron : string) : string :=
  if String.eqb cron "0 * * * *" then "Every hour"
  else if String.eqb cron "0 0 * * *" then "Daily at midnight"
  else if String.eqb cron "0 0 * * 0" then "Weekly on Sunday"
  else if String.eqb cron "*/5 * * * *" then "Every 5 minutes"
  else if String.eqb cron "*/15 * * * *" then "Every 15 minutes"
  else if String.eqb cron "*/30 * * * *" then "Every 30 minutes"
  else if String.eqb cron "0 */6 * * *" then "Every 6 hours"
  else if String.eqb cron "0 12 * * *" then "Daily at noon"
  else if String.eqb cron "0 0 * * 1" then "Weekly on Monday"
  else cron.

(** X22.  The page and the form name the schedules alike: [formatCron]
    shows every preset of the form, "Custom" apart, under the label the
    form gives it, and shows every other expression as it is. *)
Theorem formatCron_agrees_with_presets :
  Forall (λ p, TaskGroupModal.value p ≠ "custom" →
               formatCron (TaskGroupModal.value p) = TaskGroupModal.label p)
         TaskGroupModal.CRON_PRESETS
  ∧ ∀ cron, ¬ (cron ∈ TaskGroupModal.value <$> TaskGroupModal.CRON_PRESETS) →
            formatCron cron = cron.
Proof.
  split.
  - repeat constructor; done.
  - intros cron Hout. unfold formatCron.
    repeat match goal with
           | |- context [String.eqb cron ?preset] =>
               destruct (String.eqb_spec cron preset) as [Heq|_];
               [destruct Hout; rewrite Heq; vm_compute;
                repeat (first [apply list_elem_of_here | apply list_elem_of_further])|]
           end.
    done.
Qed.

End AutomationPage.


(** ** The worked example, continued *)

(** A group without members, and a group in continue mode whose members
    are all enabled. *)
Definition demo_more_store : Store :=
  mkStore
    (list_to_map [("idle", demo_group "idle" "stop" 5);
                  ("sweep", demo_group "sweep" "continue" 0)])
    (list_to_map [("backup", demo_task "backup" "backup" true);
                  ("purge", demo_task "purge" "command" true);
                  ("restart", demo_task "restart" "restart" true)])
    [TaskGroupMember.mk "sweep" "backup" 1;
     TaskGroupMember.mk "sweep" "purge" 2;
     TaskGroupMember.mk "sweep" "restart" 3]
    [] 0.

Definition demo_more_state : Sys Z := mkSys demo_more_store [] [] [] 0 [].

Definition demo_idle : TaskGroupWithMembers.t :=
  TaskGroupWithMembers.mk (demo_group "idle" "stop" 5) [].

Definition demo_sweep : TaskGroupWithMembers.t :=
  TaskGroupWithMembers.mk (demo_group "sweep" "continue" 0)
    [demo_member "sweep" "backup" "backup" true 1;
     demo_member "sweep" "purge" "command" true 2;
     demo_member "sweep" "restart" "restart" true 3].

(** The tasks that [demo_executeTask] rejects. *)
Definition demo_fails (task : Task.t) : option JsError :=
  if String.eqb (Task.type task) "command" then Some (Error "Command failed") else None.

Definition demo_reschedule : UpdateData.t :=
  UpdateData.mk None None (Some "0 4 * * *") None None None.

Definition demo_blank : UpdateData.t :=
  UpdateData.mk None None (Some "") None None None.

Lemma demo_state_inv : registry_inv demo_state.
Proof. split; intros ? ?; [intros (c & Hc & _)|]; done. Defined.

Lemma demo_registered_nightly :
  taskGroups (prisma demo_registered) !! "nightly" = Some (demo_group "nightly" "stop" 5).
Proof. vm_compute. reflexivity. Defined.

Lemma executeGroup_writes_summary_witness :
  taskGroups (prisma demo_state) !! "nightly" = Some (demo_group "nightly" "stop" 5)
  ∧ ∃ ex s',
      executeGroup demo_executeTask demo_now demo_sleep "nightly" demo_state = (Ok ex, s')
      ∧ TaskGroupExecution.errorMessage ex = Some "1 task(s) failed"
      ∧ taskGroupExecutions (prisma s') = [ex].
Proof.
  assert (taskGroups (prisma demo_state) !! "nightly"
          = Some (demo_group "nightly" "stop" 5)) as Hrow by (vm_compute; reflexivity).
  split; [exact Hrow|].
  destruct (executeGroup_writes_summary demo_executeTask demo_now demo_sleep
              "nightly" demo_state _ Hrow)
    as (ex & s' & lastRun & Hrun & _ & _ & _ & Hfailed & Hrows & _).
  exists ex, s'. split; [exact Hrun|]. split; [|exact Hrows].
  assert (Hrun' := Hrun). vm_compute in Hrun'. injection Hrun' as Hex _.
  subst ex. reflexivity.
Defined.

Lemma executeGroup_empty_group_witness :
  taskGroup_findUnique_include "idle" (prisma demo_more_state) = Some demo_idle
  ∧ TaskGroupWithMembers.taskMemberships demo_idle = []
  ∧ ∃ ex s',
      executeGroup demo_executeTask demo_now demo_sleep "idle" demo_more_state = (Ok ex, s')
      ∧ TaskGroupExecution.status ex = "success"
      ∧ TaskGroupExecution.tasksTotal ex = 0%nat.
Proof.
  assert (taskGroup_findUnique_include "idle" (prisma demo_more_state) = Some demo_idle)
    as Hfound by (vm_compute; reflexivity).
  split; [exact Hfound|]. split; [reflexivity|].
  destruct (executeGroup_empty_group demo_executeTask demo_now demo_sleep
              "idle" demo_more_state demo_idle Hfound eq_refl)
    as (ex & s' & Hrun & Hstatus & _ & Htotal & _).
  exists ex, s'. split; [exact Hrun|]. split; [exact Hstatus|exact Htotal].
Defined.

Lemma stop_mode_at_most_one_failure_witness :
  taskGroup_findUnique_include "nightly" (prisma demo_state) = Some demo_nightly
  ∧ TaskGroup.failureMode (TaskGroupWithMembers.base demo_nightly) = "stop"
  ∧ ∃ ex s',
      executeGroup demo_executeTask demo_now demo_sleep "nightly" demo_state = (Ok ex, s')
      ∧ (TaskGroupExecution.tasksFailed ex ≤ 1)%nat.
Proof.
  split; [exact demo_nightly_found|]. split; [reflexivity|].
  destruct (stop_mode_at_most_one_failure demo_executeTask demo_now demo_sleep
              "nightly" demo_state demo_nightly demo_nightly_found eq_refl)
    as (ex & s' & Hrun & Hfailed & _).
  exists ex, s'. split; [exact Hrun|exact Hfailed].
Defined.

Lemma executeGroup_runs_in_loaded_order_witness :
  taskGroup_findUnique_include "nightly" (prisma demo_state) = Some demo_nightly
  ∧ ∃ ex s' results,
      executeGroup demo_executeTask demo_now demo_sleep "nightly" demo_state = (Ok ex, s')
      ∧ TaskGroupExecution.taskResults ex = Some results
      ∧ TaskResult.taskId <$> results = ["backup"; "purge"; "restart"; "start"].
Proof.
  split; [exact demo_nightly_found|].
  destruct (executeGroup_runs_in_loaded_order demo_executeTask demo_now demo_sleep
              "nightly" demo_state demo_nightly demo_nightly_found)
    as (_ & ex & s' & results & Hrun & Hres & Hids).
  exists ex, s', results. split; [exact Hrun|]. split; [exact Hres|].
  rewrite Hids. reflexivity.
Defined.

Lemma continue_mode_attempts_every_member_witness :
  taskGroup_findUnique_include "sweep" (prisma demo_more_state) = Some demo_sweep
  ∧ TaskGroup.failureMode (TaskGroupWithMembers.base demo_sweep) ≠ "stop"
  ∧ Forall (λ m, Task.enabled (TaskGroupMemberWithTask.task m) = true)
           (TaskGroupWithMembers.taskMemberships demo_sweep)
  ∧ (∀ t w, (demo_executeTask t w).1 = outcome_of (demo_fails t))
  ∧ ∃ ex s',
      executeGroup demo_executeTask demo_now demo_sleep "sweep" demo_more_state = (Ok ex, s')
      ∧ TaskGroupExecution.tasksSkipped ex = 0%nat
      ∧ TaskGroupExecution.tasksFailed ex = 1%nat
      ∧ TaskGroupExecution.tasksCompleted ex = 2%nat
      ∧ TaskGroupExecution.status ex = "partial".
Proof.
  assert (taskGroup_findUnique_include "sweep" (prisma demo_more_state) = Some demo_sweep)
    as Hfound by (vm_compute; reflexivity).
  assert (TaskGroup.failureMode (TaskGroupWithMembers.base demo_sweep) ≠ "stop")
    as Hmode by discriminate.
  assert (Forall (λ m, Task.enabled (TaskGroupMemberWithTask.task m) = true)
                 (TaskGroupWithMembers.taskMemberships demo_sweep)) as Henabled
    by (repeat constructor).
  assert (∀ t w, (demo_executeTask t w).1 = outcome_of (demo_fails t)) as Hexec.
  { intros t w. unfold demo_executeTask, demo_fails.
    destruct (String.eqb (Task.type t) "command"); reflexivity. }
  split; [exact Hfound|]. split; [exact Hmode|]. split; [exact Henabled|].
  split; [exact Hexec|].
  destruct (continue_mode_attempts_every_member demo_executeTask demo_now demo_sleep
              "sweep" demo_more_state demo_sweep demo_fails Hfound Hmode Henabled Hexec)
    as (ex & s' & results & evs & Hrun & _ & _ & _ & _ & Hsk & Hfl & Hok & Hone).
  exists ex, s'. split; [exact Hrun|]. split; [exact Hsk|].
  assert (TaskGroupExecution.tasksFailed ex = 1%nat) as Hfailed
    by (rewrite Hfl; reflexivity).
  split; [exact Hfailed|]. split; [rewrite Hok; reflexivity|].
  apply Hone; [exact Hfailed|]. simpl. lia.
Defined.

Lemma loadTaskGroups_arms_enabled_groups_witness :
  registry_inv demo_state
  ∧ ∃ s',
      loadTaskGroups demo_validate demo_state = (Ok tt, s')
      ∧ registry_inv s'
      ∧ ∃ h, live s' h "nightly".
Proof.
  split; [exact demo_state_inv|].
  destruct (loadTaskGroups_arms_enabled_groups demo_validate demo_state demo_state_inv)
    as (s' & Hrun & Hinv & _ & Harmed & _).
  exists s'. split; [exact Hrun|]. split; [exact Hinv|].
  apply (Harmed "nightly" (demo_group "nightly" "stop" 5)); reflexivity.
Defined.

Lemma missing_group_update_and_delete_witness :
  taskGroups (prisma demo_state) !! "monthly" = None
  ∧ updateGroup demo_validate "monthly" demo_reschedule demo_state
    = (Throw (Error "Record to update not found."), demo_state)
  ∧ deleteGroup "monthly" demo_state
    = (Throw (Error "Record to delete does not exist."), unscheduled "monthly" demo_state).
Proof.
  split; [reflexivity|].
  destruct (missing_group_update_and_delete demo_validate "monthly" demo_state eq_refl)
    as (Hupdate & Hdelete & _).
  split; [apply Hupdate; reflexivity|exact Hdelete].
Defined.

Lemma deleteGroup_removes_row_and_timer_witness :
  taskGroups (prisma demo_registered) !! "nightly" = Some (demo_group "nightly" "stop" 5)
  ∧ ∃ s',
      deleteGroup "nightly" demo_registered = (Ok tt, s')
      ∧ taskGroups (prisma s') !! "nightly" = None
      ∧ JsMap.get "nightly" (scheduledGroups s') = None.
Proof.
  split; [exact demo_registered_nightly|].
  destruct (deleteGroup_removes_row_and_timer "nightly" demo_registered _
              demo_registered_nightly)
    as (s' & Hrun & _ & Hrow & Hreg & _).
  exists s'. split; [exact Hrun|]. split; [exact Hrow|exact Hreg].
Defined.

Lemma updateGroup_reschedules_witness :
  registry_inv demo_registered
  ∧ taskGroups (prisma demo_registered) !! "nightly" = Some (demo_group "nightly" "stop" 5)
  ∧ update_rejected demo_validate demo_reschedule = false
  ∧ TaskGroup.enabled (apply_update demo_reschedule (demo_group "nightly" "stop" 5)) = true
  ∧ demo_validate
      (TaskGroup.cronExpression (apply_update demo_reschedule (demo_group "nightly" "stop" 5)))
    = true
  ∧ ∃ s',
      updateGroup demo_validate "nightly" demo_reschedule demo_registered
      = (Ok (apply_update demo_reschedule (demo_group "nightly" "stop" 5)), s')
      ∧ ∀ h, live s' h "nightly" ↔ h = 2%nat.
Proof.
  split; [exact demo_registered_inv|]. split; [exact demo_registered_nightly|].
  split; [reflexivity|]. split; [reflexivity|]. split; [reflexivity|].
  destruct (updateGroup_reschedules demo_validate "nightly" demo_reschedule
              (demo_group "nightly" "stop" 5) demo_registered
              demo_registered_inv demo_registered_nightly eq_refl eq_refl eq_refl)
    as (s' & Hrun & _ & _ & _ & Hlive).
  exists s'. split; [exact Hrun|exact Hlive].
Defined.

Lemma updateGroup_invalid_stored_expression_witness :
  taskGroups (prisma demo_registered) !! "nightly" = Some (demo_group "nightly" "stop" 5)
  ∧ update_rejected demo_validate demo_blank = false
  ∧ TaskGroup.enabled (apply_update demo_blank (demo_group "nightly" "stop" 5)) = true
  ∧ demo_validate
      (TaskGroup.cronExpression (apply_update demo_blank (demo_group "nightly" "stop" 5)))
    = false
  ∧ ∃ s',
      updateGroup demo_validate "nightly" demo_blank demo_registered
      = (Ok (apply_update demo_blank (demo_group "nightly" "stop" 5)), s')
      ∧ TaskGroup.cronExpression <$> taskGroups (prisma s') !! "nightly" = Some ""
      ∧ scheduledGroups s' = scheduledGroups demo_registered
      ∧ cronTasks s' = cronTasks demo_registered.
Proof.
  split; [exact demo_registered_nightly|].
  split; [reflexivity|]. split; [reflexivity|]. split; [reflexivity|].
  destruct (updateGroup_invalid_stored_expression demo_validate "nightly" demo_blank
              (demo_group "nightly" "stop" 5) demo_registered
              demo_registered_nightly eq_refl eq_refl eq_refl)
    as (_ & s' & Hrun & Hrow & Hreg & Hcron & _).
  exists s'. split; [exact Hrun|]. split; [rewrite Hrow; reflexivity|].
  split; [exact Hreg|exact Hcron].
Defined.

Lemma toggleGroup_stores_flag_witness :
  registry_inv demo_registered
  ∧ taskGroups (prisma demo_registered) !! "nightly" = Some (demo_group "nightly" "stop" 5)
  ∧ ∃ row' s',
      toggleGroup demo_validate "nightly" false demo_registered = (Ok row', s')
      ∧ TaskGroup.enabled row' = false
      ∧ JsMap.get "nightly" (scheduledGroups s') = None.
Proof.
  split; [exact demo_registered_inv|]. split; [exact demo_registered_nightly|].
  destruct (toggleGroup_stores_flag demo_validate "nightly" false
              (demo_group "nightly" "stop" 5) demo_registered
              demo_registered_inv demo_registered_nightly)
    as (s' & Hrun & _ & Hoff & _).
  eexists _, s'. split; [exact Hrun|]. split; [reflexivity|].
  exact (proj1 (Hoff eq_refl)).
Defined.

Lemma addTask_appends_last_witness :
  addTask "maintenance" "backup" None demo_state
  = (Ok tt, (addTask "maintenance" "backup" None demo_state).2)
  ∧ (TaskGroupMember.taskId ∘ TaskGroupMemberWithTask.base)
      <$> memberships_of "maintenance" (prisma (addTask "maintenance" "backup" None demo_state).2)
    = ["announce"; "backup"].
Proof.
  assert (addTask "maintenance" "backup" None demo_state
          = (Ok tt, (addTask "maintenance" "backup" None demo_state).2)) as Hrun
    by (vm_compute; reflexivity).
  split; [exact Hrun|].
  destruct (addTask_appends_last "maintenance" "backup" demo_state _ Hrun)
    as (position & task & _ & _ & _ & _ & Hlast & _).
  rewrite Hlast, fmap_app. reflexivity.
Defined.

Lemma createGroup_members_in_given_order_witness :
  createGroup demo_validate demo_gen_id demo_create demo_state
  = (Ok demo_created, (createGroup demo_validate demo_gen_id demo_create demo_state).2)
  ∧ CreateData.taskIds demo_create = Some ["backup"; "restart"]
  ∧ Forall (λ m, TaskGroupMember.groupId m ≠ TaskGroup.id demo_created)
           (taskGroupMembers (prisma demo_state))
  ∧ (TaskGroupMember.taskId ∘ TaskGroupMemberWithTask.base)
      <$> memberships_of "group-0"
            (prisma (createGroup demo_validate demo_gen_id demo_create demo_state).2)
    = ["backup"; "restart"].
Proof.
  assert (createGroup demo_validate demo_gen_id demo_create demo_state
          = (Ok demo_created,
             (createGroup demo_validate demo_gen_id demo_create demo_state).2)) as Hrun
    by (vm_compute; reflexivity).
  assert (Forall (λ m, TaskGroupMember.groupId m ≠ TaskGroup.id demo_created)
                 (taskGroupMembers (prisma demo_state))) as Hfresh
    by (repeat (constructor; [discriminate|]); constructor).
  split; [exact Hrun|]. split; [reflexivity|]. split; [exact Hfresh|].
  destruct (createGroup_members_in_given_order demo_validate demo_gen_id demo_create
              ["backup"; "restart"] demo_state demo_created _ Hrun eq_refl)
    as (Hids & _).
  { intros m Hm. exact (proj1 (Forall_forall _ _) Hfresh m Hm). }
  exact Hids.
Defined.

Lemma removeTask_removes_member_witness :
  existsb (is_membership "nightly" "purge") (taskGroupMembers (prisma demo_state)) = true
  ∧ ∃ s',
      removeTask "nightly" "purge" demo_state = (Ok tt, s')
      ∧ (TaskGroupMember.taskId ∘ TaskGroupMemberWithTask.base)
          <$> memberships_of "nightly" (prisma s')
        = ["backup"; "restart"; "start"].
Proof.
  split; [reflexivity|].
  destruct (removeTask_removes_member "nightly" "purge" demo_state eq_refl)
    as (s' & Hrun & Hrows & _).
  exists s'. split; [exact Hrun|]. rewrite Hrows. vm_compute. reflexivity.
Defined.

Lemma reorderTasks_sets_run_order_witness :
  reorderTasks "weekly" ["restart"; "backup"; "announce"] demo_state
  = (Ok tt, (reorderTasks "weekly" ["restart"; "backup"; "announce"] demo_state).2)
  ∧ NoDup ["restart"; "backup"; "announce"]
  ∧ NoDup ((λ m, (TaskGroupMember.groupId m, TaskGroupMember.taskId m))
             <$> taskGroupMembers (prisma demo_state))
  ∧ Forall (λ m, TaskGroupMember.groupId m = "weekly" →
                 TaskGroupMember.taskId m ∈ ["restart"; "backup"; "announce"])
           (taskGroupMembers (prisma demo_state))
  ∧ Forall (λ taskId, is_Some (tasks (prisma demo_state) !! taskId))
           ["restart"; "backup"; "announce"]
  ∧ (TaskGroupMember.taskId ∘ TaskGroupMemberWithTask.base)
      <$> memberships_of "weekly"
            (prisma (reorderTasks "weekly" ["restart"; "backup"; "announce"] demo_state).2)
    = ["restart"; "backup"; "announce"].
Proof.
  assert (reorderTasks "weekly" ["restart"; "backup"; "announce"] demo_state
          = (Ok tt, (reorderTasks "weekly" ["restart"; "backup"; "announce"] demo_state).2))
    as Hrun by (vm_compute; reflexivity).
  assert (NoDup ["restart"; "backup"; "announce"]) as Hnodup
    by (refine (bool_decide_unpack _ _); vm_compute; exact I).
  assert (NoDup ((λ m, (TaskGroupMember.groupId m, TaskGroupMember.taskId m))
                   <$> taskGroupMembers (prisma demo_state))) as Hkeys
    by (refine (bool_decide_unpack _ _); vm_compute; exact I).
  assert (Forall (λ m, TaskGroupMember.groupId m = "weekly" →
                       TaskGroupMember.taskId m ∈ ["restart"; "backup"; "announce"])
                 (taskGroupMembers (prisma demo_state))) as Hcover.
  { repeat (constructor;
            [intros Hg; first [discriminate Hg
                              | repeat (first [apply list_elem_of_here
                                              | apply list_elem_of_further])]|]).
    constructor. }
  assert (Forall (λ taskId, is_Some (tasks (prisma demo_state) !! taskId))
                 ["restart"; "backup"; "announce"]) as Htasks
    by (repeat (constructor; [eexists; vm_compute; reflexivity|]); constructor).
  split; [exact Hrun|]. split; [exact Hnodup|]. split; [exact Hkeys|].
  split; [exact Hcover|]. split; [exact Htasks|].
  destruct (reorderTasks_sets_run_order "weekly" ["restart"; "backup"; "announce"]
              demo_state _ Hrun Hnodup Hkeys) as (Hids & _).
  { intros m Hm. exact (proj1 (Forall_forall _ _) Hcover m Hm). }
  { exact Htasks. }
  exact Hids.
Defined.

Lemma reorderTasks_stops_at_first_stranger_witness :
  Forall (λ t, existsb (is_membership "weekly" t) (taskGroupMembers (prisma demo_state))
               = true) ["restart"]
  ∧ existsb (is_membership "weekly" "purge") (taskGroupMembers (prisma demo_state)) = false
  ∧ ∃ s',
      reorderTasks "weekly" ["restart"; "purge"; "backup"] demo_state
      = (Throw (Error "Record to update not found."), s')
      ∧ prisma s' = prisma (reorderTasks "weekly" ["restart"] demo_state).2
      ∧ logs s' = [].
Proof.
  assert (Forall (λ t, existsb (is_membership "weekly" t)
                         (taskGroupMembers (prisma demo_state)) = true) ["restart"])
    as Hbefore by (repeat constructor).
  split; [exact Hbefore|]. split; [reflexivity|].
  destruct (reorderTasks_stops_at_first_stranger "weekly" ["restart"] "purge" ["backup"]
              demo_state Hbefore eq_refl)
    as (s1 & s' & Hprefix & Hrun & Hstore & Hlogs & _).
  exists s'. split; [exact Hrun|]. split; [|exact Hlogs].
  rewrite Hprefix. exact Hstore.
Defined.

Lemma toggleTaskSelection_flips_one_witness :
  NoDup ["backup"; "restart"]
  ∧ TaskGroupModal.toggleTaskSelection ["backup"; "restart"] "start"
    = ["backup"; "restart"; "start"]
  ∧ NoDup (TaskGroupModal.toggleTaskSelection ["backup"; "restart"] "backup").
Proof.
  assert (NoDup ["backup"; "restart"]) as Hnodup
    by (refine (bool_decide_unpack _ _); vm_compute; exact I).
  split; [exact Hnodup|]. split.
  - destruct (TaskGroupModal.toggleTaskSelection_flips_one
                ["backup"; "restart"] "start" Hnodup) as (_ & _ & _ & Hnew).
    apply Hnew. refine (bool_decide_unpack _ _). vm_compute. exact I.
  - exact (proj1 (TaskGroupModal.toggleTaskSelection_flips_one
                    ["backup"; "restart"] "backup" Hnodup)).
Defined.

Lemma picker_columns_partition_witness :
  NoDup (Task.id <$> [demo_task "backup" "backup" true; demo_task "restart" "restart" true])
  ∧ NoDup ["restart"; "start"]
  ∧ Task.id <$> TaskGroupModal.selectedTasks Task.id
                  [demo_task "backup" "backup" true; demo_task "restart" "restart" true]
                  ["restart"; "start"]
    = ["restart"].
Proof.
  assert (NoDup (Task.id <$> [demo_task "backup" "backup" true;
                              demo_task "restart" "restart" true])) as Havail
    by (refine (bool_decide_unpack _ _); vm_compute; exact I).
  assert (NoDup ["restart"; "start"]) as Hsel
    by (refine (bool_decide_unpack _ _); vm_compute; exact I).
  split; [exact Havail|]. split; [exact Hsel|].
  destruct (TaskGroupModal.picker_columns_partition Task.id
              [demo_task "backup" "backup" true; demo_task "restart" "restart" true]
              ["restart"; "start"] Havail Hsel) as (_ & Hids).
  rewrite Hids. vm_compute. reflexivity.
Defined.


(** A [trim] and a [split] for the worked example; they agree with the
    library on strings whose fields are separated by single spaces, with no
    space at either end. *)
Definition demo_trim (s : string) : string := s.

Fixpoint demo_split (field s : string) : list string :=
  match s with
  | EmptyString => [field]
  | String c s' =>
      if Ascii.eqb c Ascii.Space then field :: demo_split "" s'
      else demo_split (field +:+ String c "") s'
  end.

Definition demo_split_whitespace (s : string) : list string := demo_split "" s.

Lemma populate_then_submit_keeps_cron_witness :
  demo_trim (TaskGroup.name (TaskGroupWithMembers.base demo_nightly)) ≠ ""
  ∧ TaskGroup.cronExpression (TaskGroupWithMembers.base demo_nightly) ≠ ""
  ∧ TaskGroupModal.isValidCron demo_trim demo_split_whitespace
      (TaskGroup.cronExpression (TaskGroupWithMembers.base demo_nightly)) = true
  ∧ TaskGroupWithMembers.taskMemberships demo_nightly ≠ []
  ∧ TaskGroupModal.handleSubmit demo_trim demo_split_whitespace (Some demo_nightly) true
      (TaskGroupModal.populate demo_nightly)
    = TaskGroupModal.OnUpdate "nightly" "Group nightly" None "0 3 * * *" "stop" 5.
Proof.
  assert (demo_trim (TaskGroup.name (TaskGroupWithMembers.base demo_nightly)) ≠ "")
    as Hname by discriminate.
  assert (TaskGroup.cronExpression (TaskGroupWithMembers.base demo_nightly) ≠ "")
    as Hexpr by discriminate.
  assert (TaskGroupWithMembers.taskMemberships demo_nightly ≠ []) as Hmembers
    by discriminate.
  split; [exact Hname|]. split; [exact Hexpr|]. split; [reflexivity|].
  split; [exact Hmembers|].
  destruct (TaskGroupModal.populate_then_submit_keeps_cron demo_trim demo_split_whitespace
              demo_nightly) as (_ & _ & Hsent & _).
  exact (Hsent Hname Hexpr eq_refl Hmembers).
Defined.
